(** * rech-editor-cobol: paragraph completion and Cobol documentation parser

    A shallow embedding of

      - [CobolDocParser] (src/lsp/server.ts, the block that starts at
        [export class CobolDocParser]) and
      - [ParagraphCompletion] (src/unnamed/part_000),

    with the properties of the declaration index, of the comment-block
    extraction, of the two documentation dialects and of the single-slot
    cache.

    Conventions.  A JavaScript string is a list of code units; the
    development covers code units below 256 (type [ascii], read as
    Latin-1).  A JavaScript [Map] is an insertion-ordered association
    list.  A call that throws is the value [TypeError]; a promise is a cell that
    is settled at most once. *)

From Stdlib Require Import Ascii String.
From Stdlib Require Import List ZArith Lia Bool Arith.
From Stdlib Require Import Recdef.
Import ListNotations.

Set Implicit Arguments.

(* ================================================================== *)
(** ** JavaScript strings *)
(* ================================================================== *)

Module JsString.

Definition t := list ascii.

(** Literals are written [str "..."]. *)
Definition str (s : string) : t := list_ascii_of_string s.

Definition code (c : ascii) : nat := nat_of_ascii c.

(** [a == b] on strings. *)
Fixpoint t_eqb (a b : t) : bool :=
  match a, b with
  | [], [] => true
  | x :: a', y :: b' => Ascii.eqb x y && t_eqb a' b'
  | _, _ => false
  end.

(** [WhiteSpace] and [LineTerminator] of ECMAScript restricted to code
    units below 256: TAB, LF, VT, FF, CR, SP and NBSP.  This is the set
    that both [String.prototype.trim] and the regular expression class
    [\s] use. *)
Definition isSpace (c : ascii) : bool :=
  let n := code c in
  ((9 <=? n) && (n <=? 13)) || (n =? 32) || (n =? 160).

(** [LineTerminator] below 256; the regular expression [.] excludes it. *)
Definition isLineTerminator (c : ascii) : bool :=
  let n := code c in (n =? 10) || (n =? 13).

(** The class [\w]: [A-Za-z0-9_]. *)
Definition isWord (c : ascii) : bool :=
  let n := code c in
  ((65 <=? n) && (n <=? 90)) || ((97 <=? n) && (n <=? 122))
  || ((48 <=? n) && (n <=? 57)) || (n =? 95).

(** [s.startsWith(p)] *)
Fixpoint startsWith (p s : t) : bool :=
  match p, s with
  | [], _ => true
  | _ :: _, [] => false
  | a :: p', b :: s' => if Ascii.eqb a b then startsWith p' s' else false
  end.

(** [s.includes(p)]; a literal regular expression such as [/@param/]
    used with [match] in a condition is the same substring test. *)
Fixpoint includes (p s : t) : bool :=
  startsWith p s ||
  match s with
  | [] => false
  | _ :: s' => includes p s'
  end.

(** [s.replace(p, r)] for a string pattern: the first occurrence of [p]
    is replaced.  The source only passes replacements without [$]. *)
Fixpoint replace (p r s : t) : t :=
  if startsWith p s then r ++ skipn (length p) s
  else match s with
       | [] => []
       | c :: s' => c :: replace p r s'
       end.

Fixpoint trimStart (s : t) : t :=
  match s with
  | [] => []
  | c :: s' => if isSpace c then trimStart s' else s
  end.

Definition trimEnd (s : t) : t := rev (trimStart (rev s)).

(** [s.trim()] *)
Definition trim (s : t) : t := trimEnd (trimStart s).

(** [s.endsWith(p)] *)
Definition endsWith (p s : t) : bool := startsWith (rev p) (rev s).

(** [s.slice(0, -1)] *)
Definition dropLast (s : t) : t := removelast s.

(** [a.join(sep)] on an array of strings. *)
Fixpoint join (sep : t) (a : list t) : t :=
  match a with
  | [] => []
  | [x] => x
  | x :: rest => x ++ sep ++ join sep rest
  end.

(** [a.toString()] on an array of strings. *)
Definition arrayToString (a : list t) : t := join (str ",") a.

End JsString.

Import JsString.

(* ================================================================== *)
(** ** Regular expressions

    A backtracking matcher for the fragment of ECMAScript regular
    expressions that the source uses: characters, classes, sequence,
    ordered alternation, greedy repetition of a class, greedy option,
    capture groups and the line-start assertion of the [m] flag. *)
(* ================================================================== *)

Module Regex.

Inductive regex : Type :=
| Eps : regex
| Bol : regex                          (* ^ under the m flag *)
| Chr : ascii -> regex
| Cls : (ascii -> bool) -> regex
| Seq : regex -> regex -> regex
| Alt : regex -> regex -> regex
| Star : (ascii -> bool) -> regex      (* c* for a class c, greedy *)
| Opt : regex -> regex                 (* r? greedy *)
| Grp : nat -> regex -> regex.         (* ( r ) numbered *)

(** [c+] for a class [c]. *)
Definition Plus (p : ascii -> bool) : regex := Seq (Cls p) (Star p).

(** A literal run of characters. *)
Fixpoint Lit (s : t) : regex :=
  match s with
  | [] => Eps
  | c :: s' => Seq (Chr c) (Lit s')
  end.

(** A sequence of expressions. *)
Definition Seqs (rs : list regex) : regex := fold_right Seq Eps rs.

(** The class [[\w-]]. *)
Definition isWordOrDash (c : ascii) : bool :=
  isWord c || Ascii.eqb c "-"%char.

(** The class [.]: any code unit but a line terminator. *)
Definition dot (c : ascii) : bool := negb (isLineTerminator c).

Definition Caps := list (nat * t).

Fixpoint group (n : nat) (caps : Caps) : option t :=
  match caps with
  | [] => None
  | (k, v) :: rest => if Nat.eqb k n then Some v else group n rest
  end.

(** A continuation receives the position reached, the code unit before
    it, the input that is left and the captures made so far. *)
Definition K (R : Type) := nat -> option ascii -> t -> Caps -> option R.

Fixpoint starClass (R : Type) (p : ascii -> bool) (k : K R)
    (pos : nat) (prev : option ascii) (s : t) (caps : Caps) {struct s} : option R :=
  match s with
  | c :: s' =>
      if p c then
        match starClass p k (S pos) (Some c) s' caps with
        | Some r => Some r
        | None => k pos prev s caps
        end
      else k pos prev s caps
  | [] => k pos prev s caps
  end.

Fixpoint matchK (R : Type) (r : regex) (k : K R)
    (pos : nat) (prev : option ascii) (s : t) (caps : Caps) {struct r} : option R :=
  match r with
  | Eps => k pos prev s caps
  | Bol =>
      match prev with
      | None => k pos prev s caps
      | Some c => if isLineTerminator c then k pos prev s caps else None
      end
  | Chr a =>
      match s with
      | c :: s' => if Ascii.eqb a c then k (S pos) (Some c) s' caps else None
      | [] => None
      end
  | Cls p =>
      match s with
      | c :: s' => if p c then k (S pos) (Some c) s' caps else None
      | [] => None
      end
  | Seq r1 r2 => matchK r1 (matchK r2 k) pos prev s caps
  | Alt r1 r2 =>
      match matchK r1 k pos prev s caps with
      | Some x => Some x
      | None => matchK r2 k pos prev s caps
      end
  | Star p => starClass p k pos prev s caps
  | Opt r1 =>
      (* an iteration that consumes nothing is refused (RepeatMatcher,
         step 2.b of the ECMAScript semantics) *)
      match matchK r1 (fun pos' prev' s' caps' =>
                         if Nat.eqb pos' pos then None else k pos' prev' s' caps')
                      pos prev s caps with
      | Some x => Some x
      | None => k pos prev s caps
      end
  | Grp n r1 =>
      matchK r1 (fun pos' prev' s' caps' =>
                   k pos' prev' s' ((n, firstn (pos' - pos) s) :: caps'))
             pos prev s caps
  end.

Record MatchResult : Type := mkMatch {
  index : nat;          (* where the match starts *)
  lastIndex : nat;      (* where it ends *)
  groups : Caps
}.

(** The last continuation: the match ends where it is called. *)
Definition finish (start : nat) : K MatchResult :=
  fun pos' _ _ caps => Some (mkMatch start pos' caps).

Definition matchAt (r : regex) (pos : nat) (prev : option ascii) (s : t)
  : option MatchResult :=
  matchK r (finish pos) pos prev s [].

(** [r.exec(s)] without the [g] flag: the leftmost start that matches. *)
Fixpoint execFrom (r : regex) (pos : nat) (prev : option ascii) (s : t)
  : option MatchResult :=
  match matchAt r pos prev s with
  | Some res => Some res
  | None =>
      match s with
      | [] => None
      | c :: s' => execFrom r (S pos) (Some c) s'
      end
  end.

Definition exec (r : regex) (s : t) : option MatchResult := execFrom r 0 None s.

(** JavaScript truthiness of a capture: [undefined] and the empty string
    are both false. *)
Definition truthy (g : option t) : bool :=
  match g with
  | Some (_ :: _) => true
  | _ => false
  end.

(** The string a capture holds; [undefined] is rendered empty. *)
Definition text (g : option t) : t :=
  match g with
  | Some v => v
  | None => []
  end.

(** The strings an expression can consume, captures and context left
    aside. *)
Fixpoint lang (r : regex) (w : t) : Prop :=
  match r with
  | Eps => w = []
  | Bol => w = []
  | Chr a => w = [a]
  | Cls p => exists c, w = [c] /\ p c = true
  | Seq r1 r2 => exists w1 w2, w = w1 ++ w2 /\ lang r1 w1 /\ lang r2 w2
  | Alt r1 r2 => lang r1 w \/ lang r2 w
  | Star p => forallb p w = true
  | Opt r1 => w = [] \/ lang r1 w
  | Grp _ r1 => lang r1 w
  end.

(** A greedy run of a class stops here: at the end of the input or
    before a code unit outside the class. *)
Definition stopsAt (p : ascii -> bool) (s : t) : bool :=
  match s with
  | [] => true
  | c :: _ => negb (p c)
  end.

End Regex.

Import Regex.

(* ================================================================== *)
(** ** CobolDocParser (src/lsp/server.ts) *)
(* ================================================================== *)

(** [new DocElement(name, description)] *)
Record DocElement : Type := mkDocElement {
  elementName : t;
  elementDescription : t
}.

(** [new CobolDoc(comment, params, returns, throws)] *)
Record CobolDoc : Type := mkCobolDoc {
  comment : t;
  params : list DocElement;
  returns : list DocElement;
  throws : list DocElement
}.

Module CobolDocParser.

(** The expression of [createDocElementFromLine]: one or more [\s], the
    marker [*>], one or more [\s], group 1 [(@param|@return|@throws)], one
    [\s], group 2 [([\w-]+)], an optional [\s], and the optional group 3,
    a greedy run of [.] to the end of the line. *)
Definition docElementRegex : regex :=
  Seqs [Plus isSpace;
        Lit (str "*>");
        Plus isSpace;
        Grp 1 (Alt (Lit (str "@param"))
              (Alt (Lit (str "@return")) (Lit (str "@throws"))));
        Cls isSpace;
        Grp 2 (Plus isWordOrDash);
        Opt (Cls isSpace);
        Opt (Grp 3 (Star dot))].

(** [createDocElementFromLine].  Group 2 is not optional, so it is never
    [undefined] when the expression matches. *)
Definition createDocElementFromLine (currentLine : t) : option DocElement :=
  match exec docElementRegex currentLine with
  | Some m =>
      if truthy (group 3 (groups m)) then
        Some (mkDocElement (text (group 2 (groups m))) (text (group 3 (groups m))))
      else if truthy (group 2 (groups m)) then
        Some (mkDocElement (text (group 2 (groups m))) [])
      else None
  | None => None
  end.

(** [updateDocElement]: the array is returned instead of mutated. *)
Definition updateDocElement (elements : list DocElement) (currentLine : t)
  : list DocElement :=
  match createDocElementFromLine currentLine with
  | Some element => elements ++ [element]
  | None => elements
  end.

(** [isRechDoc] *)
Definition isRechDoc (documentation : list t) : bool :=
  includes (str "*>/**") (arrayToString documentation).

(** The local variables of [extractRechDoc]. *)
Record RechState : Type := mkRechState {
  stComment : t;
  stParams : list DocElement;
  stReturns : list DocElement;
  stThrows : list DocElement;
  parsingRechDoc : bool;
  extractingComment : bool
}.

Definition initialRechState : RechState :=
  mkRechState [] [] [] [] false false.

Definition setParsing (b : bool) (st : RechState) : RechState :=
  mkRechState (stComment st) (stParams st) (stReturns st) (stThrows st)
              b (extractingComment st).

Definition setExtracting (b : bool) (st : RechState) : RechState :=
  mkRechState (stComment st) (stParams st) (stReturns st) (stThrows st)
              (parsingRechDoc st) b.

Definition setComment (c : t) (st : RechState) : RechState :=
  mkRechState c (stParams st) (stReturns st) (stThrows st)
              (parsingRechDoc st) (extractingComment st).

Definition setParams (l : list DocElement) (st : RechState) : RechState :=
  mkRechState (stComment st) l (stReturns st) (stThrows st)
              (parsingRechDoc st) (extractingComment st).

Definition setReturns (l : list DocElement) (st : RechState) : RechState :=
  mkRechState (stComment st) (stParams st) l (stThrows st)
              (parsingRechDoc st) (extractingComment st).

Definition setThrows (l : list DocElement) (st : RechState) : RechState :=
  mkRechState (stComment st) (stParams st) (stReturns st) l
              (parsingRechDoc st) (extractingComment st).

(** [/(@enum|@optional|@default|@extends)/] *)
Definition matchesOtherTag (line : t) : bool :=
  includes (str "@enum") line || includes (str "@optional") line
  || includes (str "@default") line || includes (str "@extends") line.

(** The four tag tests inside [if (parsingRechDoc)], in source order. *)
Definition tagStep (st : RechState) (currentLine : t) : RechState :=
  let st1 :=
    if includes (str "@param") currentLine then
      setExtracting false (setParams (updateDocElement (stParams st) currentLine) st)
    else st in
  let st2 :=
    if includes (str "@return") currentLine then
      setReturns (updateDocElement (stReturns st1) currentLine) (setExtracting false st1)
    else st1 in
  let st3 :=
    if includes (str "@throws") currentLine then
      setThrows (updateDocElement (stThrows st2) currentLine) (setExtracting false st2)
    else st2 in
  if matchesOtherTag currentLine then setExtracting false st3 else st3.

(** [if (extractingComment) { ... }].  In the branch for an empty
    [currentComment] the source evaluates [comment.concat("\n\n")] and
    drops the result: [comment] is not assigned. *)
Definition commentStep (st : RechState) (currentLine : t) : RechState :=
  if extractingComment st then
    let currentComment := trim (replace (str "*>") [] currentLine) in
    if Nat.eqb (length currentComment) 0 then st
    else setComment (stComment st ++ currentComment ++ str " ") st
  else st.

(** The body of [documentation.forEach] in [extractRechDoc]. *)
Definition rechStep (st : RechState) (currentLine : t) : RechState :=
  if startsWith (str "*>/**") (trim currentLine) then
    setExtracting true (setParsing true st)
  else
    let st1 :=
      if startsWith (str "*>*/") (trim currentLine) then setParsing false st
      else st in
    if parsingRechDoc st1 then commentStep (tagStep st1 currentLine) currentLine
    else st1.

(** The seven tag tokens. *)
Definition tagTokens : list t :=
  [str "@param"; str "@return"; str "@throws";
   str "@enum"; str "@optional"; str "@default"; str "@extends"].

(** A line that mentions one of the tag tokens anywhere in its text. *)
Definition containsTagToken (line : t) : bool :=
  existsb (fun token => includes token line) tagTokens.

(** A line that opens a structured block. *)
Definition isOpener (line : t) : bool := startsWith (str "*>/**") (trim line).

(** Summary accumulation is off: outside a block, or inside one after a
    tag token was seen. *)
Definition accumulationOff (st : RechState) : Prop :=
  parsingRechDoc st = false \/ extractingComment st = false.

Definition docOfState (st : RechState) : CobolDoc :=
  mkCobolDoc (stComment st) (stParams st) (stReturns st) (stThrows st).

(** [extractRechDoc] *)
Definition extractRechDoc (documentation : list t) : CobolDoc :=
  docOfState (fold_left rechStep documentation initialRechState).

(** [removeDots] *)
Function removeDots (currentLine : t) {measure length currentLine} : t :=
  if negb (t_eqb currentLine []) && endsWith (str ".") currentLine
  then removeDots (dropLast currentLine)
  else currentLine.
Proof.
  intros s H. apply andb_true_iff in H as [H _].
  destruct s as [|c s]; [discriminate|].
  unfold dropLast. pose proof (@exists_last _ (c :: s)) as E.
  destruct E as (l & a & E); [discriminate|].
  rewrite E, removelast_last, length_app. simpl. lia.
Defined.

(** The body of [documentation.forEach] in [extractDefaultDoc]. *)
Definition defaultStep (comment : t) (currentLine : t) : t :=
  if startsWith (str "*>->") (trim currentLine) then
    let currentComment :=
      trim (replace (str "<-<*") [] (replace (str "*>->") [] currentLine)) in
    let currentComment := removeDots currentComment in
    comment ++ currentComment ++ str " "
  else comment.

(** [extractDefaultDoc] *)
Definition extractDefaultDoc (documentation : list t) : CobolDoc :=
  mkCobolDoc (fold_left defaultStep documentation []) [] [] [].

(** [parseCobolDoc] *)
Definition parseCobolDoc (documentation : list t) : CobolDoc :=
  if isRechDoc documentation then extractRechDoc documentation
  else extractDefaultDoc documentation.

(** The extraction method a call of [parseCobolDoc] enters. *)
Inductive Path : Type := ExtractRechDoc | ExtractDefaultDoc.

(** [parseCobolDoc] with the sequence of extraction methods it calls. *)
Definition parseCobolDocTraced (documentation : list t) : list Path * CobolDoc :=
  if isRechDoc documentation
  then ([ExtractRechDoc], extractRechDoc documentation)
  else ([ExtractDefaultDoc], extractDefaultDoc documentation).

End CobolDocParser.

Import CobolDocParser.

(* ================================================================== *)
(** ** JavaScript [Map]: insertion-ordered, one entry per key *)
(* ================================================================== *)

Module JsMap.

Definition t (V : Type) := list (JsString.t * V).

Definition empty (V : Type) : t V := [].

(** [m.get(k)] *)
Fixpoint get (V : Type) (k : JsString.t) (m : t V) : option V :=
  match m with
  | [] => None
  | (k', v) :: rest => if t_eqb k' k then Some v else get k rest
  end.

(** [m.has(k)] *)
Definition has (V : Type) (k : JsString.t) (m : t V) : bool :=
  match get k m with Some _ => true | None => false end.

(** [m.set(k, v)]: an existing key keeps its place and takes the new
    value; a new key goes to the end. *)
Fixpoint set (V : Type) (k : JsString.t) (v : V) (m : t V) : t V :=
  match m with
  | [] => [(k, v)]
  | (k', v') :: rest =>
      if t_eqb k' k then (k', v) :: rest else (k', v') :: set k v rest
  end.

(** [m.keys()] and [m.values()], in insertion order. *)
Definition keys (V : Type) (m : t V) : list JsString.t := map fst m.
Definition values (V : Type) (m : t V) : list V := map snd m.

End JsMap.

(* ================================================================== *)
(** ** Calls that may throw, and promises *)
(* ================================================================== *)

(** The result of a call: a value, or a thrown [TypeError] (reading a
    property of [undefined]). *)
Inductive outcome (A : Type) : Type :=
| Ok : A -> outcome A
| TypeError : outcome A.
Arguments TypeError {A}.

Definition bind (A B : Type) (x : outcome A) (f : A -> outcome B) : outcome B :=
  match x with
  | Ok a => f a
  | TypeError => TypeError
  end.

Notation "'do' x <- e ;; k" := (bind e (fun x => k))
  (at level 10, x name, e at level 100, k at level 200).

(** The state of a promise. *)
Inductive promise (A : Type) : Type :=
| Pending : promise A
| Fulfilled : A -> promise A
| Rejected : promise A.
Arguments Pending {A}.
Arguments Rejected {A}.

(** [resolve(v)] and [reject()] of a promise executor: a promise that is
    already settled ignores them. *)
Definition resolveP (A : Type) (v : A) (p : promise A) : promise A :=
  match p with Pending => Fulfilled v | _ => p end.

Definition rejectP (A : Type) (p : promise A) : promise A :=
  match p with Pending => Rejected | _ => p end.

(** What an external promise eventually does. *)
Inductive settlement (A : Type) : Type :=
| Resolves : A -> settlement A
| Rejects : settlement A
| NeverSettles : settlement A.
Arguments Rejects {A}.
Arguments NeverSettles {A}.

(* ================================================================== *)
(** ** ParagraphCompletion (src/unnamed/part_000) *)
(* ================================================================== *)

Definition lineFeed : ascii := "010"%char.

(** The separator of [lines.join("\n")]. *)
Definition newline : JsString.t := [lineFeed].

(** What the callback of [Scan.scan] reads from its iterator. *)
Record ScanIterator : Type := mkScanIterator {
  row : Z;
  lineContent : JsString.t
}.

Inductive MarkupKind : Type := Markdown.
Inductive CompletionItemKind : Type := Method.

(** The object literal returned by [createParagraphCompletion]; the range
    of the text edit starts and ends at the same position. *)
Record CompletionItem : Type := mkCompletionItem {
  label : JsString.t;
  newText : JsString.t;
  rangeLine : Z;
  rangeCharacter : Z;
  detail : JsString.t;
  documentationKind : MarkupKind;
  documentationValue : JsString.t;
  kind : CompletionItemKind
}.

(** The instance fields of [ParagraphCompletion]. *)
Record Instance : Type := mkInstance {
  cacheFileName : JsString.t;
  uri : JsString.t;
  currentLines : option (list JsString.t);
  lineNumber : Z;
  rangeColumn : Z
}.

(** The static fields of [ParagraphCompletion]; both start [undefined]. *)
Record Statics : Type := mkStatics {
  cache : option (JsMap.t CompletionItem);
  cacheSourceFileName : option JsString.t
}.

(** [a[i]] on an array: [undefined] outside the array. *)
Definition at_ (A : Type) (a : list A) (i : Z) : option A :=
  if (i <? 0)%Z then None else nth_error a (Z.to_nat i).

(** The expression that [generateParagraphCompletion] hands to [Scan]:
    line start (flags [gm]), seven [\s], group 1 [([\w\-]+)], a period,
    and optionally a run of [\s], the marker [*>] and the rest of the
    line. *)
Definition paragraphRegex : regex :=
  Seqs [Bol;
        Cls isSpace; Cls isSpace; Cls isSpace; Cls isSpace;
        Cls isSpace; Cls isSpace; Cls isSpace;
        Grp 1 (Plus isWordOrDash);
        Chr "."%char;
        Opt (Seqs [Star isSpace; Lit (str "*>"); Star dot])].

(** The loop of [getElementDocumentation]; [n] is [index + 1], so the
    loop ends when [n] is 0.  [lines[index]] outside the array is
    [undefined], and [undefined.startsWith] throws. *)
Fixpoint documentationLoop (lines : list JsString.t) (n : nat)
    (documentation : list JsString.t) : outcome (list JsString.t) :=
  match n with
  | O => Ok documentation
  | S index =>
      match nth_error lines index with
      | None => TypeError
      | Some currentLineText =>
          if startsWith (str "      *>") currentLineText
          then documentationLoop lines index (documentation ++ [currentLineText])
          else Ok documentation
      end
  end.

(** [getElementDocumentation] *)
Definition getElementDocumentation (lines : list JsString.t) (lineIndex : Z)
  : outcome (list JsString.t) :=
  do documentation <- documentationLoop lines (Z.to_nat lineIndex) [] ;;
  Ok (rev documentation).

Section ParagraphCompletion.

(** Collaborators whose sources are not at hand. *)

(** [new Scan(buffer).scan(regexp, callback)]: the iterators handed to
    the callback, in order. *)
Variable scan : JsString.t -> regex -> list ScanIterator.
(** [ParserCobol.getDeclaracaoParagrafo] *)
Variable getDeclaracaoParagrafo : JsString.t -> option JsString.t.
(** [cobolDoc.comment.join(" ")] and [cobolDoc.elementsAsMarkdown()] *)
Variable commentDetail : CobolDoc -> JsString.t.
Variable elementsAsMarkdown : CobolDoc -> JsString.t.
(** [BufferSplitter.split] *)
Variable split : JsString.t -> list JsString.t.
(** [CompletionUtils.findWordStartWithinLine] *)
Variable findWordStartWithinLine : Z -> option JsString.t -> Z.

(** [createParagraphCompletion] *)
Definition createParagraphCompletion (this : Instance)
    (paragraph : JsString.t) (docArray : list JsString.t) : CompletionItem :=
  let cobolDoc := parseCobolDoc docArray in
  mkCompletionItem paragraph paragraph (lineNumber this) (rangeColumn this)
                   (commentDetail cobolDoc) Markdown
                   (elementsAsMarkdown cobolDoc) Method.

(** The callback given to [Scan.scan] in [generateParagraphCompletion]. *)
Definition scanCallback (this : Instance) (lines : list JsString.t)
    (items : JsMap.t CompletionItem) (iterator : ScanIterator)
  : outcome (JsMap.t CompletionItem) :=
  let paragraphName := getDeclaracaoParagrafo (lineContent iterator) in
  do docArray <- getElementDocumentation lines (row iterator) ;;
  if truthy paragraphName then
    let paragraphItem := createParagraphCompletion this (text paragraphName) docArray in
    Ok (JsMap.set (text paragraphName) paragraphItem items)
  else Ok items.

Fixpoint forEachIterator (this : Instance) (lines : list JsString.t)
    (iterators : list ScanIterator) (items : JsMap.t CompletionItem)
  : outcome (JsMap.t CompletionItem) :=
  match iterators with
  | [] => Ok items
  | iterator :: rest =>
      do items' <- scanCallback this lines items iterator ;;
      forEachIterator this lines rest items'
  end.

(** [generateParagraphCompletion(lines, false)]: the scan alone. *)
Definition generateWithoutCache (this : Instance) (lines : list JsString.t)
  : outcome (JsMap.t CompletionItem) :=
  let buffer := join newline lines in
  forEachIterator this lines (scan buffer paragraphRegex) (JsMap.empty _).

(** The callback of [forEach] in the merge. *)
Definition mergeEntry (items : JsMap.t CompletionItem)
    (entry : JsString.t * CompletionItem) : JsMap.t CompletionItem :=
  let (key, value) := entry in
  if negb (JsMap.has key items) then JsMap.set key value items else items.

(** [generateParagraphCompletion].  The inner call passes
    [useCache = false], so it is the scan alone; [this.currentLines]
    being [undefined] makes [lines.join] throw. *)
Definition generateParagraphCompletion (this : Instance)
    (lines : list JsString.t) (useCache : bool)
  : outcome (JsMap.t CompletionItem) :=
  do items <- generateWithoutCache this lines ;;
  if useCache then
    match currentLines this with
    | None => TypeError
    | Some local =>
        do localItems <- generateWithoutCache this local ;;
        Ok (fold_left mergeEntry localItems items)
    end
  else Ok items.

End ParagraphCompletion.

(* ================================================================== *)
(** ** [generate] and [loadCache]: one request against the static cache

    The executor of the promise that [generate] returns runs to its end
    before any callback registered with [then] or [catch] runs.  A
    request is therefore the executor, followed by the callback on
    [sourceOfCompletions] when that promise resolves, followed by the
    callbacks on the promise of [ExpandedSourceManager.getExpandedSource]
    when the callback before asked for it. *)
(* ================================================================== *)

Record World : Type := mkWorld {
  statics : Statics;
  this_ : Instance;
  (** the promise returned by [generate] *)
  generated : promise (list CompletionItem);
  (** the promise returned by [loadCache] *)
  loaded : promise unit;
  (** the arguments of the calls of [getExpandedSource], in order *)
  expansionRequests : list JsString.t
}.

Section Request.

Variable scan : JsString.t -> regex -> list ScanIterator.
Variable getDeclaracaoParagrafo : JsString.t -> option JsString.t.
Variable commentDetail : CobolDoc -> JsString.t.
Variable elementsAsMarkdown : CobolDoc -> JsString.t.
Variable split : JsString.t -> list JsString.t.
Variable findWordStartWithinLine : Z -> option JsString.t -> Z.

Let generateParagraphCompletion' :=
  generateParagraphCompletion scan getDeclaracaoParagrafo
                              commentDetail elementsAsMarkdown.

(** [cache && cacheSourceFileName == this.cacheFileName]; a [Map] is
    truthy even when it is empty. *)
Definition cacheIsCurrent (s : Statics) (this : Instance) : bool :=
  match cache s, cacheSourceFileName s with
  | Some _, Some name => t_eqb name (cacheFileName this)
  | _, _ => false
  end.

(** The executor of [generate].  [this.loadCache()] only creates a
    pending promise and subscribes to [sourceOfCompletions]; an
    exception in the executor rejects the promise. *)
Definition generateExecutor (s : Statics) (this0 : Instance)
    (line column : Z) (lines : list JsString.t) : World :=
  let this :=
    mkInstance (cacheFileName this0) (uri this0) (Some lines) line
               (findWordStartWithinLine column (at_ lines line) - 1)%Z in
  let items :=
    if cacheIsCurrent s this then
      match cache s with
      | Some c => Ok (JsMap.values c)
      | None => TypeError
      end
    else
      match currentLines this with
      | Some l =>
          do m <- generateParagraphCompletion' this l false ;;
          Ok (JsMap.values m)
      | None => TypeError
      end in
  mkWorld s this
          (match items with
           | Ok v => resolveP v Pending
           | TypeError => rejectP Pending
           end)
          Pending [].

(** The callback on [sourceOfCompletions] in [loadCache].  An
    exception in it leaves the assignments undone and the promise of
    [loadCache] pending. *)
Definition loadCacheThen (sourceOfCompletions : JsString.t)
    (w : World) : World :=
  let this := this_ w in
  if t_eqb sourceOfCompletions (str "local") then
    match currentLines this with
    | Some l =>
        match generateParagraphCompletion' this l false with
        | Ok m =>
            mkWorld (mkStatics (Some m) (Some (cacheFileName this))) this
                    (generated w) (resolveP tt (loaded w)) (expansionRequests w)
        | TypeError => w
        end
    | None => w
    end
  else
    mkWorld (statics w) this (generated w) (loaded w)
            (expansionRequests w ++ [uri this]).

(** The callback on the expanded source when it arrives.  The name is
    assigned before the index is built; an exception in the build goes
    to the [catch] below it. *)
Definition loadCacheExpanded (buffer : JsString.t) (w : World) : World :=
  let this := this_ w in
  let s1 := mkStatics (cache (statics w)) (Some (cacheFileName this)) in
  match generateParagraphCompletion' this (split buffer) true with
  | Ok m =>
      mkWorld (mkStatics (Some m) (cacheSourceFileName s1)) this
              (generated w) (resolveP tt (loaded w)) (expansionRequests w)
  | TypeError =>
      mkWorld s1 this (rejectP (generated w)) (rejectP (loaded w))
              (expansionRequests w)
  end.

(** The [catch] on the expanded source rejects the promise of
    [loadCache]; the [catch] that [generate] put on that promise then
    calls [reject] of the promise of [generate]. *)
Definition loadCacheCatch (w : World) : World :=
  mkWorld (statics w) (this_ w) (rejectP (generated w)) (rejectP (loaded w))
          (expansionRequests w).

(** [generate], from the call to quiescence: the executor, then the
    callbacks of [loadCache] that the two external promises fire.
    [mode] is what [sourceOfCompletions] does, [expansion] what the
    promise of [getExpandedSource] does for a given uri. *)
Definition generate (mode : settlement JsString.t)
    (expansion : JsString.t -> settlement JsString.t)
    (s : Statics) (this0 : Instance)
    (line column : Z) (lines : list JsString.t) : World :=
  let w1 := generateExecutor s this0 line column lines in
  match mode with
  | Resolves sourceOfCompletions =>
      let w2 := loadCacheThen sourceOfCompletions w1 in
      if t_eqb sourceOfCompletions (str "local") then w2
      else
        match expansion (uri (this_ w2)) with
        | Resolves buffer => loadCacheExpanded buffer w2
        | Rejects => loadCacheCatch w2
        | NeverSettles => w2
        end
  | Rejects => w1
  | NeverSettles => w1
  end.

End Request.

(** [ParagraphCompletion.clearCache] *)
Definition clearCache (s : Statics) : Statics :=
  mkStatics (Some (JsMap.empty _)) (Some []).

(* ================================================================== *)
(** ** Collaborators modelled from the specification

    [Scan], [ParserCobol], [CobolDoc] and [BufferSplitter] are imported by
    the sources but are not among them.  The theorems below that speak of
    every scanner take them as parameters; the instances here are used
    to evaluate the code on concrete buffers. *)
(* ================================================================== *)

Module Collaborators.

(** Modelled from the spec: [BufferSplitter.split] is missing; "the
    expanded-buffer format is plain text lines, identical in shape to the
    local buffer".  The buffer is cut at every line feed. *)
Fixpoint splitLines (current : JsString.t) (buffer : JsString.t) : list JsString.t :=
  match buffer with
  | [] => [rev current]
  | c :: rest =>
      if Ascii.eqb c lineFeed then rev current :: splitLines [] rest
      else splitLines (c :: current) rest
  end.

Definition split (buffer : JsString.t) : list JsString.t := splitLines [] buffer.

Fixpoint scanLines (r : regex) (n : nat) (lines : list JsString.t) : list ScanIterator :=
  match lines with
  | [] => []
  | l :: rest =>
      match matchAt r 0 None l with
      | Some _ => mkScanIterator (Z.of_nat n) l :: scanLines r (S n) rest
      | None => scanLines r (S n) rest
      end
  end.

(** Modelled from the spec: the class [Scan] is missing; "given a buffer
    (ordered sequence of source lines) and a column-anchored pattern,
    produces a lazy sequence of (line index, matched text) occurrences",
    an occurrence being "(lineIndex, capturedName, rawLineText)".  Every
    line that the pattern matches from its first column gives one
    iterator, in source order. *)
Definition scan (buffer : JsString.t) (r : regex) : list ScanIterator :=
  scanLines r 0 (split buffer).

(** Modelled from the spec: [ParserCobol.getDeclaracaoParagrafo] is
    missing; a declaration line is the margin "immediately followed by a
    name token and a terminating period", and "the trailing comment, if
    present, is ignored for name extraction".  The name is group 1 of the
    pattern of the scan. *)
Definition getDeclaracaoParagrafo (line : JsString.t) : option JsString.t :=
  match matchAt paragraphRegex 0 None line with
  | Some m => group 1 (groups m)
  | None => None
  end.

(** Modelled from the spec: the class [CobolDoc] is missing; the record
    holds a "summary: string (may be empty)".  The detail of a completion
    is that summary. *)
Definition commentDetail (doc : CobolDoc) : JsString.t := comment doc.

Definition elementLine (tag : JsString.t) (e : DocElement) : JsString.t :=
  tag ++ str " " ++ elementName e ++ str " " ++ elementDescription e ++ newline.

(** Modelled from the spec: [CobolDoc.elementsAsMarkdown] is missing; the
    record holds "parameters", "returns" and "throws", each an "ordered
    sequence of (name, description)".  They are listed in that order, one
    per line. *)
Definition elementsAsMarkdown (doc : CobolDoc) : JsString.t :=
  concat (map (elementLine (str "@param")) (params doc))
  ++ concat (map (elementLine (str "@return")) (returns doc))
  ++ concat (map (elementLine (str "@throws")) (throws doc)).

(** Modelled from the spec: [CompletionUtils.findWordStartWithinLine] is
    missing and the spec does not describe it; the column is kept. *)
Definition findWordStartWithinLine (column : Z) (line : option JsString.t) : Z :=
  column.

Definition generateParagraphCompletion :=
  generateParagraphCompletion scan getDeclaracaoParagrafo
                              commentDetail elementsAsMarkdown.

Definition generate :=
  generate scan getDeclaracaoParagrafo commentDetail elementsAsMarkdown
          split findWordStartWithinLine.

End Collaborators.


(* ================================================================== *)
(** ** The behaviour in the words of the specification

    Definitions that follow the text of the specification; the theorems
    compare them with the definitions above, which follow the code. *)
(* ================================================================== *)

Module Spec.

Fixpoint takeWhile (A : Type) (f : A -> bool) (l : list A) : list A :=
  match l with
  | [] => []
  | x :: rest => if f x then x :: takeWhile f rest else []
  end.

(** A line that "starts with the comment-introduction marker" after the
    fixed margin. *)
Definition isCommentLine (line : JsString.t) : bool :=
  startsWith (str "      *>") line.

(** "Walk upward from [declarationLineIndex - 1]; stop at the first
    non-matching line.  The collected lines are reversed so the block
    reads top-to-bottom as in source." *)
Definition commentBlockAbove (lines : list JsString.t) (declarationLineIndex : nat)
  : list JsString.t :=
  rev (takeWhile isCommentLine (rev (firstn declarationLineIndex lines))).

Fixpoint dropDots (s : JsString.t) : JsString.t :=
  match s with
  | [] => []
  | c :: rest => if Ascii.eqb c "."%char then dropDots rest else s
  end.

(** "Trailing period characters repeatedly stripped from the end." *)
Definition stripTrailingDots (s : JsString.t) : JsString.t :=
  rev (dropDots (rev s)).

(** What one line gives to the freeform summary.  A line that begins,
    after trimming, with the marker gives its text without the first
    "*>->" and without the first "<-<*", trimmed, without the periods
    that end it, followed by one space.  Any other line gives
    nothing. *)
Definition freeformFragment (line : JsString.t) : JsString.t :=
  if startsWith (str "*>->") (trim line) then
    stripTrailingDots
      (trim (replace (str "<-<*") [] (replace (str "*>->") [] line)))
    ++ str " "
  else [].

Definition freeformSummary (block : list JsString.t) : JsString.t :=
  concat (map freeformFragment block).

(** An occurrence that declares [name]: the name the callback reads
    from its line is truthy and equal to [name]. *)
Definition declares (getDeclaracaoParagrafo : JsString.t -> option JsString.t)
    (name : JsString.t) (iterator : ScanIterator) : bool :=
  truthy (getDeclaracaoParagrafo (lineContent iterator))
  && t_eqb (text (getDeclaracaoParagrafo (lineContent iterator))) name.

(** The first and the last occurrence of a name in a scan. *)
Definition firstOccurrence (getDeclaracaoParagrafo : JsString.t -> option JsString.t)
    (name : JsString.t) (occurrences : list ScanIterator) : option ScanIterator :=
  find (declares getDeclaracaoParagrafo name) occurrences.

Definition lastOccurrence (getDeclaracaoParagrafo : JsString.t -> option JsString.t)
    (name : JsString.t) (occurrences : list ScanIterator) : option ScanIterator :=
  find (declares getDeclaracaoParagrafo name) (rev occurrences).

(** The names a scan declares, one per occurrence, in scan order. *)
Definition declaredNames (getDeclaracaoParagrafo : JsString.t -> option JsString.t)
    (occurrences : list ScanIterator) : list JsString.t :=
  flat_map (fun iterator =>
              if truthy (getDeclaracaoParagrafo (lineContent iterator))
              then [text (getDeclaracaoParagrafo (lineContent iterator))]
              else [])
           occurrences.

(** "Ordering of the resulting mapping is insertion order of first
    appearance": a name goes to the end of the keys the first time it is
    seen and keeps its place afterwards. *)
Definition addKey (keys : list JsString.t) (key : JsString.t) : list JsString.t :=
  if existsb (fun k => t_eqb k key) keys then keys else keys ++ [key].

Definition firstAppearances (names : list JsString.t) : list JsString.t :=
  fold_left addKey names [].

(** The record the index holds for an occurrence of [name]: the one
    built from the comment block above the row of the occurrence. *)
Definition recordAt (commentDetail elementsAsMarkdown : CobolDoc -> JsString.t)
    (this : Instance) (lines : list JsString.t)
    (name : JsString.t) (iterator : ScanIterator) : CompletionItem :=
  createParagraphCompletion commentDetail elementsAsMarkdown this name
    (commentBlockAbove lines (Z.to_nat (row iterator))).

(** Every row of the scan of a buffer is a line of that buffer (or the
    line after its last). *)
Definition rowsInRange (scan : JsString.t -> regex -> list ScanIterator)
    (lines : list JsString.t) : Prop :=
  Forall (fun iterator => (row iterator <= Z.of_nat (length lines))%Z)
         (scan (join newline lines) paragraphRegex).

(** The "optional trailing free-text description" of a tag line: what
    follows the name, less one blank, up to the end of the line. *)
Definition dropOneSpace (tail : JsString.t) : JsString.t :=
  match tail with
  | c :: rest => if isSpace c then rest else tail
  | [] => []
  end.

Definition descriptionOf (tail : JsString.t) : JsString.t :=
  takeWhile dot (dropOneSpace tail).

(** The captures once the description is matched: group 3 is set only
    when the description is not empty. *)
Definition withDescription (description : JsString.t) (caps : Caps) : Caps :=
  match description with
  | [] => caps
  | _ :: _ => (3, description) :: caps
  end.

(** What follows the tag keyword holds no name token: it does not start
    with a blank followed by a code unit of a name. *)
Definition lacksName (tail : JsString.t) : bool :=
  match tail with
  | c :: d :: _ => negb (isSpace c && isWordOrDash d)
  | _ => true
  end.

(** The tag keywords that give records. *)
Definition recordTags : list JsString.t :=
  [str "@param"; str "@return"; str "@throws"].

(** The list of the parse that a tag keyword feeds. *)
Definition listOfTag (tag : JsString.t) (st : RechState) : list DocElement :=
  if t_eqb tag (str "@param") then stParams st
  else if t_eqb tag (str "@return") then stReturns st
  else stThrows st.

End Spec.

Import Spec.

(* ================================================================== *)
(** ** Buffers and requests used in the examples *)
(* ================================================================== *)

Module Examples.

(** The buffer of the scenario of the specification. *)
Definition scenarioBuffer : list JsString.t :=
  [str "       PARA-A."; str "      *>-> Does A. <-<*"; str "       PARA-B."].

(** A buffer that declares PARA-A twice, with a different comment above
    each declaration, and ends with a statement. *)
Definition duplicateBuffer : list JsString.t :=
  [str "      *>-> First."; str "       PARA-A.";
   str "      *>-> Second."; str "       PARA-A.";
   str "           exit."].

(** An expanded source and a local buffer that both declare K; the local
    buffer also declares ONLY-LOCAL. *)
Definition expandedLines : list JsString.t :=
  [str "      *>-> From the copy."; str "       K."].

Definition localLines : list JsString.t :=
  [str "      *>-> Local text."; str "       K."; str "       ONLY-LOCAL."].

(** A request for [f.cbl]. *)
Definition someInstance : Instance :=
  mkInstance (str "f.cache") (str "file:///f.cbl") None 0 0.

(** A cache left by an earlier request for the same file. *)
Definition priorItem : CompletionItem :=
  mkCompletionItem (str "OLD") (str "OLD") 0 0 (str "Earlier ") Markdown [] Method.

Definition priorStatics : Statics :=
  mkStatics (Some [(str "OLD", priorItem)]) (Some (str "f.cache")).

End Examples.

Import Examples.

(* ================================================================== *)
(** ** Further definitions for the index and the cache *)
(* ================================================================== *)

Module IndexSpec.

(** An entry as [createParagraphCompletion] builds it for the instance
    [this]: the key is the label and the text inserted, and the edit
    stands at the line and column of the instance. *)
Definition builtBy (this : Instance) (entry : JsString.t * CompletionItem) : Prop :=
  label (snd entry) = fst entry
  /\ newText (snd entry) = fst entry
  /\ rangeLine (snd entry) = lineNumber this
  /\ rangeCharacter (snd entry) = rangeColumn this.

(** [key] is one of [keys]. *)
Definition hasKey (keys : list JsString.t) (key : JsString.t) : bool :=
  existsb (fun k => t_eqb k key) keys.

(** The instance once the executor of [generate] has assigned its
    fields. *)
Definition assigned (findWordStartWithinLine : Z -> option JsString.t -> Z)
    (this0 : Instance) (line column : Z) (lines : list JsString.t) : Instance :=
  mkInstance (cacheFileName this0) (uri this0) (Some lines) line
             (findWordStartWithinLine column (at_ lines line) - 1)%Z.

End IndexSpec.

Import IndexSpec.

(* ================================================================== *)
(** ** Further definitions for the documentation parser *)
(* ================================================================== *)

Module DocSpec.

(** A line that closes a structured block. *)
Definition isCloser (line : JsString.t) : bool :=
  startsWith (str "*>*/") (trim line).

(** A line of the summary: neither opener nor closer, and without any
    tag token. *)
Definition isPlain (line : JsString.t) : bool :=
  negb (isOpener line) && negb (isCloser line) && negb (containsTagToken line).

(** What a plain line gives to the summary: its text without the first
    marker, trimmed, followed by one space; nothing when that text is
    empty. *)
Definition summaryFragment (line : JsString.t) : JsString.t :=
  let currentComment := trim (replace (str "*>") [] line) in
  if Nat.eqb (length currentComment) 0 then []
  else currentComment ++ str " ".

(** A line that ends the summary: a closer or a line with a tag
    token. *)
Definition endsSummary (line : JsString.t) : bool :=
  isCloser line || containsTagToken line.

End DocSpec.

Import DocSpec.

(* ================================================================== *)
(** ** What a match consumes and captures *)
(* ================================================================== *)

Module RegexSemantics.

(** [matches r w caps caps']: the expression [r] can consume the string
    [w] and turn the captures [caps] into [caps'].  A group captures the
    string it consumed; an option that is taken consumes at least one
    code unit. *)
Fixpoint matches (r : regex) (w : JsString.t) (caps caps' : Caps) : Prop :=
  match r with
  | Eps => w = [] /\ caps' = caps
  | Bol => w = [] /\ caps' = caps
  | Chr a => w = [a] /\ caps' = caps
  | Cls p => (exists c, w = [c] /\ p c = true) /\ caps' = caps
  | Seq r1 r2 =>
      exists w1 w2 mid,
        w = w1 ++ w2 /\ matches r1 w1 caps mid /\ matches r2 w2 mid caps'
  | Alt r1 r2 => matches r1 w caps caps' \/ matches r2 w caps caps'
  | Star p => forallb p w = true /\ caps' = caps
  | Opt r1 => (w = [] /\ caps' = caps) \/ (w <> [] /\ matches r1 w caps caps')
  | Grp n r1 => exists mid, matches r1 w caps mid /\ caps' = (n, w) :: mid
  end.

End RegexSemantics.

Import RegexSemantics.

(* ================================================================== *)
(** ** server.ts: locations, the log and the snippet repositories *)
(* ================================================================== *)

Module Server.

Definition backslash : ascii := "\"%char.

(** [s.replace(/p/g, r)] for a pattern [p] that is a literal: every
    occurrence is replaced, from left to right and without overlap.  The
    source has no empty pattern; with one the string is left as it
    is. *)
Function replaceAll (p r s : JsString.t) {measure length s} : JsString.t :=
  match s with
  | [] => []
  | c :: s' =>
      if negb (t_eqb p []) && startsWith p (c :: s')
      then r ++ replaceAll p r (skipn (length p) (c :: s'))
      else c :: replaceAll p r s'
  end.
Proof.
  - intros p r s c s' Hs H. apply andb_true_iff in H as [Hp _].
    destruct p as [|a p]; [discriminate|].
    cbn [length skipn]. rewrite length_skipn. lia.
  - intros p r s c s' Hs H. cbn [length]. lia.
Defined.

(** The fields of [RechPosition] that the server reads. *)
Record RechPosition : Type := mkRechPosition {
  positionLine : Z;
  positionColumn : Z;
  positionFile : option JsString.t
}.

(** [Location.create(uri, Range.create(start, end))] *)
Record Location : Type := mkLocation {
  locationUri : JsString.t;
  startLine : Z;
  startCharacter : Z;
  endLine : Z;
  endCharacter : Z
}.

(** [createLocation]: the regular expression of the first replacement
    is two backslashes, with the flag [g]. *)
Definition createLocation (uri : JsString.t) (position : RechPosition) : Location :=
  let fileUri :=
    replace (str "F:") (str "file:///F%3A")
            (replaceAll [backslash; backslash] (str "/") uri) in
  mkLocation fileUri
             (positionLine position) (positionColumn position)
             (positionLine position) (positionColumn position).

(** The module variable [loggingConfigured] (it starts [undefined]),
    and what the server did to the log and asked of the client. *)
Record LogState : Type := mkLogState {
  loggingConfigured : bool;
  setActiveCalls : nat;       (* calls of Log.get().setActive(true) *)
  logConfigRequests : nat     (* calls of getConfig("log") *)
}.

(** [configureServerLog].  [config] is what the promise of
    [getConfig("log")] does; the executor sets the flag and resolves
    before any callback runs. *)
Definition configureServerLog (config : settlement bool) (st : LogState)
  : LogState * promise unit :=
  if loggingConfigured st then (st, resolveP tt Pending)
  else
    let asked := mkLogState true (setActiveCalls st) (S (logConfigRequests st)) in
    let returned := resolveP tt Pending in
    match config with
    | Resolves loggingActive =>
        (if loggingActive
         then mkLogState true (S (setActiveCalls asked)) (logConfigRequests asked)
         else asked,
         returned)
    | Rejects => (asked, rejectP returned)
    | NeverSettles => (asked, returned)
    end.

(** Calls of [configureServerLog] one after the other. *)
Fixpoint configureServerLogs (configs : list (settlement bool)) (st : LogState)
  : LogState * list (promise unit) :=
  match configs with
  | [] => (st, [])
  | config :: rest =>
      let (st1, p) := configureServerLog config st in
      let (st2, ps) := configureServerLogs rest st1 in
      (st2, p :: ps)
  end.

(** The module variable [snippetsRepositories], and the calls of
    [getConfig("snippetsRepositories")]. *)
Record SnippetState : Type := mkSnippetState {
  snippetsRepositories : option (list JsString.t);
  snippetConfigRequests : nat
}.

(** [getSnippetsRepositories].  An array is truthy even when it is
    empty; [None] is [undefined]. *)
Definition getSnippetsRepositories (config : settlement (option (list JsString.t)))
    (st : SnippetState) : SnippetState * promise (option (list JsString.t)) :=
  match snippetsRepositories st with
  | Some repositories => (st, resolveP (Some repositories) Pending)
  | None =>
      let asked := mkSnippetState None (S (snippetConfigRequests st)) in
      match config with
      | Resolves repositories =>
          (mkSnippetState repositories (snippetConfigRequests asked),
           resolveP repositories Pending)
      | Rejects => (asked, rejectP Pending)
      | NeverSettles => (asked, Pending)
      end
  end.

Fixpoint getSnippetsRepositoriesCalls
    (configs : list (settlement (option (list JsString.t)))) (st : SnippetState)
  : SnippetState * list (promise (option (list JsString.t))) :=
  match configs with
  | [] => (st, [])
  | config :: rest =>
      let (st1, p) := getSnippetsRepositories config st in
      let (st2, ps) := getSnippetsRepositoriesCalls rest st1 in
      (st2, p :: ps)
  end.

(** The calls up to and including the first one that the client answers
    with an array. *)
Fixpoint callsUntilAnswer (configs : list (settlement (option (list JsString.t))))
  : nat :=
  match configs with
  | [] => 0
  | Resolves (Some _) :: _ => 1
  | _ :: rest => S (callsUntilAnswer rest)
  end.

(** The values of the setting of automatic diagnosis and of the event
    that [validateTextDocument] takes: "onChange", "onSave" or a
    boolean. *)
Inductive Trigger : Type :=
| OnChange : Trigger
| OnSave : Trigger
| Flag : bool -> Trigger.

(** Truthiness: both strings are not empty. *)
Definition triggerTruthy (t : Trigger) : bool :=
  match t with
  | Flag b => b
  | _ => true
  end.

(** [a == b].  A boolean against one of the two strings compares 0 or 1
    with [NaN]. *)
Definition looseEq (a b : Trigger) : bool :=
  match a, b with
  | OnChange, OnChange => true
  | OnSave, OnSave => true
  | Flag x, Flag y => Bool.eqb x y
  | _, _ => false
  end.

(** [event === true] *)
Definition strictlyTrue (event : Trigger) : bool :=
  match event with
  | Flag true => true
  | _ => false
  end.

Section Validate.

(** A diagnostic, as [Diagnostician.diagnose] resolves them. *)
Variable Diagnostic : Type.

(** [validateTextDocument]: the promise it returns and the calls of
    [connection.sendDiagnostics], as pairs of a uri and diagnostics.
    [autodiagnostic] is what the promise of [getAutoDiagnostic] does,
    [document] what [documents.get] returns, [diagnosis] what the
    promise of [diagnose] does. *)
Definition validateTextDocument (textDocumentUri : JsString.t) (event : Trigger)
    (autodiagnostic : settlement Trigger) (document : option JsString.t)
    (diagnosis : settlement (list Diagnostic))
  : promise unit * list (JsString.t * list Diagnostic) :=
  match autodiagnostic with
  | Resolves setting =>
      (Fulfilled tt,
       if triggerTruthy setting && (strictlyTrue event || looseEq setting event) then
         match document with
         | Some _ =>
             match diagnosis with
             | Resolves diagnostics => [(textDocumentUri, diagnostics)]
             | Rejects => [(textDocumentUri, [])]
             | NeverSettles => []
             end
         | None => []
         end
       else [])
  | Rejects => (Rejected, [])
  | NeverSettles => (Pending, [])
  end.

End Validate.

End Server.

(* ================================================================== *)
(** ** FinallyFormatter: the column of the open [try] *)
(* ================================================================== *)

Module Formatter.

(** [toLowerCase] on one code unit below 256: the letters A to Z, and
    the capital letters of Latin-1 from U+00C0 to U+00DE without the
    multiplication sign U+00D7. *)
Definition lowerUnit (c : ascii) : ascii :=
  let n := nat_of_ascii c in
  if ((65 <=? n) && (n <=? 90)) || ((192 <=? n) && (n <=? 222) && negb (n =? 215))
  then ascii_of_nat (n + 32)
  else c.

(** [s.toLowerCase()] *)
Definition toLowerCase (s : JsString.t) : JsString.t := map lowerUnit s.

Section FindStartColumn.

(** [CompletionUtils] is not part of the sources at hand: its two
    functions are parameters.  They are applied to [lines[i]], which is
    [undefined] outside the array, and may raise. *)
Variable isTheParagraphOrMethodDeclaration : option JsString.t -> outcome bool.
Variable countSpacesAtBeginning : option JsString.t -> outcome Z.

(** The loop [for (let i = line; i > 0; i--)] of [findStartColumn], from
    index [i] with the given [depth]: [Some column] when the body
    returns, [None] when the loop ends, by [break] or with [i] at 0. *)
Fixpoint findLoop (lines : list JsString.t) (i : nat) (depth : Z)
  : outcome (option Z) :=
  match i with
  | O => Ok None
  | S i' =>
      do declaration <-
        isTheParagraphOrMethodDeclaration (at_ lines (Z.of_nat (S i'))) ;;
      if (declaration : bool) then Ok None
      else
        match at_ lines (Z.of_nat (S i')) with
        | None => TypeError
        | Some current =>
            let lowered := toLowerCase (trim current) in
            let depth' :=
              if startsWith (str "end-try") lowered then (depth + 1)%Z
              else if startsWith (str "try") lowered then (depth - 1)%Z
              else depth in
            if (depth' <? 0)%Z
            then do column <- countSpacesAtBeginning (Some current) ;;
                 Ok (Some column)
            else findLoop lines i' depth'
        end
  end.

(** [findStartColumn] *)
Definition findStartColumn (line : Z) (lines : list JsString.t) : outcome Z :=
  do found <- findLoop lines (Z.to_nat line) 0%Z ;;
  match found with
  | Some column => Ok column
  | None => countSpacesAtBeginning (at_ lines line)
  end.

End FindStartColumn.

(** The two tests of the loop, on one line. *)
Definition closesTry (line : JsString.t) : bool :=
  startsWith (str "end-try") (toLowerCase (trim line)).

Definition opensTry (line : JsString.t) : bool :=
  negb (closesTry line) && startsWith (str "try") (toLowerCase (trim line)).

(** Lines in which every [try] has its [end-try] further down and every
    [end-try] its [try] further up. *)
Inductive balanced : list JsString.t -> Prop :=
| balanced_nil : balanced []
| balanced_plain line rest :
    closesTry line = false -> opensTry line = false ->
    balanced rest -> balanced (line :: rest)
| balanced_nest opening inner closing rest :
    opensTry opening = true -> closesTry closing = true ->
    balanced inner -> balanced rest ->
    balanced (opening :: inner ++ closing :: rest).

End Formatter.

(** Inputs for the examples of [findStartColumn]: a buffer with two
    nested blocks, and two functions in the place of [CompletionUtils]
    (a declaration is taken to be a line of one word that ends with a
    period; the blanks before the first other code unit are counted;
    both raise on [undefined]). *)
Module FormatterExamples.

Definition isDeclaration (line : option JsString.t) : outcome bool :=
  match line with
  | Some text =>
      Ok (endsWith (str ".") (trim text) && negb (existsb isSpace (trim text)))
  | None => TypeError
  end.

Definition countSpaces (line : option JsString.t) : outcome Z :=
  match line with
  | Some text =>
      Ok (Z.of_nat (length text) - Z.of_nat (length (trimStart text)))%Z
  | None => TypeError
  end.

Definition innerBlock : list JsString.t :=
  [ str "              try";
    str "                 perform write-it";
    str "              END-TRY" ].

Definition openBlock : list JsString.t :=
  str "              move 1 to w-count" :: innerBlock
  ++ [ str "              finally" ].

End FormatterExamples.

(* ================================================================== *)
(** * Properties *)
(* ================================================================== *)

Unset Implicit Arguments.

(** ** Strings *)

Module JsStringFacts.

Lemma t_eqb_eq a : forall b, t_eqb a b = true <-> a = b.
Proof.
  induction a as [|x a IH]; intros [|y b]; simpl; try (split; congruence).
  rewrite andb_true_iff, IH, Ascii.eqb_eq. split.
  - intros [-> ->]. reflexivity.
  - intros H. inversion H. auto.
Qed.

Lemma t_eqb_refl a : t_eqb a a = true.
Proof. now apply t_eqb_eq. Qed.

Lemma t_eqb_neq a b : a <> b -> t_eqb a b = false.
Proof.
  intros H. destruct (t_eqb a b) eqn:E; [|reflexivity].
  apply t_eqb_eq in E. contradiction.
Qed.

Lemma startsWith_iff p s : startsWith p s = true <-> exists r, s = p ++ r.
Proof.
  revert s; induction p as [|a p IH]; intros s; simpl.
  - split; [eauto | reflexivity].
  - destruct s as [|b s].
    + split; [discriminate | intros [r Hr]; discriminate].
    + destruct (Ascii.eqb_spec a b) as [->|Hab].
      * rewrite IH. split; intros [r Hr]; exists r; [now subst | now inversion Hr].
      * split; [discriminate | intros [r Hr]; inversion Hr; congruence].
Qed.

Lemma startsWith_app p r : startsWith p (p ++ r) = true.
Proof. apply startsWith_iff; eauto. Qed.

Lemma startsWith_nil_r p : p <> [] -> startsWith p [] = false.
Proof. destruct p; [congruence | reflexivity]. Qed.

(** A prefix test only looks at the first [length p] code units. *)
Lemma startsWith_head_false p c s a :
  p = a :: tl p -> a <> c -> startsWith p (c :: s) = false.
Proof.
  intros Hp Hac. rewrite Hp. simpl. destruct (Ascii.eqb_spec a c); congruence.
Qed.

Lemma includes_iff p s : includes p s = true <-> exists a b, s = a ++ p ++ b.
Proof.
  induction s as [|c s IH]; simpl.
  - rewrite orb_false_r, startsWith_iff. split.
    + intros [r Hr]. exists [], r. exact Hr.
    + intros (a & b & H). destruct a; simpl in H.
      * eauto.
      * discriminate.
  - rewrite orb_true_iff, startsWith_iff, IH. split.
    + intros [[r Hr] | (a & b & H)].
      * exists [], r. exact Hr.
      * exists (c :: a), b. now rewrite H.
    + intros (a & b & H). destruct a as [|x a]; simpl in H.
      * left. eauto.
      * right. inversion H. eauto.
Qed.

Lemma includes_cons_false p c s :
  includes p (c :: s) = false -> includes p s = false.
Proof. simpl. intros H. now apply orb_false_iff in H. Qed.

(** Every code unit of a substring occurs in the string. *)
Lemma includes_In p s c : includes p s = true -> In c p -> In c s.
Proof.
  intros H Hc. apply includes_iff in H as (a & b & ->).
  rewrite !in_app_iff. auto.
Qed.

Lemma startsWith_In p s c : startsWith p s = true -> In c p -> In c s.
Proof.
  intros H Hc. apply startsWith_iff in H as (r & ->).
  rewrite in_app_iff. auto.
Qed.

(** *** [replace] *)

Lemma replace_absent p r s : includes p s = false -> replace p r s = s.
Proof.
  induction s as [|c s IH]; simpl; intros H.
  - rewrite orb_false_r in H. now rewrite H.
  - apply orb_false_iff in H as [H1 H2]. rewrite H1. f_equal. auto.
Qed.

(** When the pattern occurs, the text before its first occurrence and
    the text after it are kept. *)
Lemma replace_present p r s :
  includes p s = true ->
  exists a b, s = a ++ p ++ b /\ replace p r s = a ++ r ++ b.
Proof.
  induction s as [|c s IH]; simpl; intros H.
  - rewrite orb_false_r in H. rewrite H.
    apply startsWith_iff in H as [b Hb]. exists [], b. split; [exact Hb|].
    simpl. f_equal. rewrite Hb. now rewrite skipn_app, skipn_all, Nat.sub_diag.
  - destruct (startsWith p (c :: s)) eqn:E.
    + apply startsWith_iff in E as [b Hb]. exists [], b. split; [exact Hb|].
      simpl. f_equal. rewrite Hb. now rewrite skipn_app, skipn_all, Nat.sub_diag.
    + simpl in H. destruct (IH H) as (a & b & Hs & Hr).
      exists (c :: a), b. split; simpl; congruence.
Qed.

(** Removing a pattern never adds code units. *)
Lemma replace_nil_incl p s c : In c (replace p [] s) -> In c s.
Proof.
  destruct (includes p s) eqn:E.
  - destruct (replace_present p [] s E) as (a & b & Hs & Hr).
    rewrite Hr, Hs. simpl. rewrite !in_app_iff. tauto.
  - now rewrite replace_absent.
Qed.

(** What is left of the string after a removal: every code unit of the
    string is in the pattern or in the result. *)
Lemma replace_nil_cover p s c : In c s -> In c p \/ In c (replace p [] s).
Proof.
  destruct (includes p s) eqn:E.
  - destruct (replace_present p [] s E) as (a & b & Hs & Hr).
    rewrite Hr. rewrite Hs at 1. simpl. rewrite !in_app_iff. tauto.
  - rewrite replace_absent; auto.
Qed.

(** *** [trim] *)

Lemma trimStart_all_space s : forallb isSpace s = true -> trimStart s = [].
Proof.
  induction s as [|c s IH]; simpl; [reflexivity|].
  intros H. apply andb_true_iff in H as [-> H]. auto.
Qed.

Lemma trimStart_nil_inv s : trimStart s = [] -> forallb isSpace s = true.
Proof.
  induction s as [|c s IH]; simpl; [reflexivity|].
  destruct (isSpace c); [auto | discriminate].
Qed.

Lemma trimStart_suffix s : exists w, s = w ++ trimStart s /\ forallb isSpace w = true.
Proof.
  induction s as [|c s (w & Hw & Hs)]; simpl.
  - exists []. auto.
  - destruct (isSpace c) eqn:E.
    + exists (c :: w). simpl. rewrite E, Hs. split; [now rewrite <- Hw | reflexivity].
    + exists []. auto.
Qed.

Lemma trimStart_head s c r : trimStart s = c :: r -> isSpace c = false.
Proof.
  induction s as [|x s IH]; simpl; [discriminate|].
  destruct (isSpace x) eqn:E; [auto|]. intros H; inversion H; congruence.
Qed.

Lemma trimStart_idem s : trimStart (trimStart s) = trimStart s.
Proof.
  destruct (trimStart s) as [|c r] eqn:E; [reflexivity|].
  simpl. now rewrite (trimStart_head s c r E).
Qed.

Lemma forallb_rev (A : Type) (f : A -> bool) l : forallb f (rev l) = forallb f l.
Proof.
  induction l as [|x l IH]; simpl; [reflexivity|].
  rewrite forallb_app, IH. simpl. rewrite andb_true_r. apply andb_comm.
Qed.

Lemma trim_nil_iff s : trim s = [] <-> forallb isSpace s = true.
Proof.
  unfold trim, trimEnd. split.
  - intros H. apply (f_equal (@rev _)) in H. rewrite rev_involutive in H. simpl in H.
    apply trimStart_nil_inv in H. rewrite forallb_rev in H.
    destruct (trimStart_suffix s) as (w & Hw & Hs).
    rewrite Hw, forallb_app, Hs, H. reflexivity.
  - intros H. rewrite (trimStart_all_space s H). reflexivity.
Qed.

(** [trim] keeps a middle part of the string. *)
Lemma trim_decompose s :
  exists w1 w2, s = w1 ++ trim s ++ w2
                /\ forallb isSpace w1 = true /\ forallb isSpace w2 = true.
Proof.
  destruct (trimStart_suffix s) as (w1 & H1 & Hs1).
  destruct (trimStart_suffix (rev (trimStart s))) as (w2 & H2 & Hs2).
  exists w1, (rev w2). unfold trim, trimEnd. repeat split; auto.
  - rewrite <- rev_app_distr, <- H2, rev_involutive. exact H1.
  - now rewrite forallb_rev.
Qed.

Lemma trim_incl s c : In c (trim s) -> In c s.
Proof.
  destruct (trim_decompose s) as (w1 & w2 & H & _). intros Hc.
  rewrite H, !in_app_iff. auto.
Qed.

(** The trimmed string starts with a non-blank prefix exactly when the
    string does after its leading blanks. *)
Lemma startsWith_trim p s c :
  p = c :: tl p -> forallb (fun x => negb (isSpace x)) p = true ->
  startsWith p (trim s) = startsWith p (trimStart s).
Proof.
  intros Hp Hns.
  destruct (startsWith p (trimStart s)) eqn:E.
  - apply startsWith_iff in E as [r Hr].
    unfold trim, trimEnd. rewrite Hr, rev_app_distr.
    destruct (trimStart_suffix (rev r ++ rev p)) as (w & Hw & Hs).
    (* the blanks dropped at the end all come from [r] *)
    assert (exists r', trimStart (rev r ++ rev p) = r' ++ rev p) as [r' Hr'].
    { clear Hw Hs w Hr. generalize (rev r) as q. induction q as [|x q IH]; simpl.
      - exists []. simpl. destruct (rev p) as [|y l] eqn:Ey; [reflexivity|].
        simpl. assert (In y p) as Hy by (apply in_rev; rewrite Ey; now left).
        rewrite forallb_forall in Hns. apply Hns in Hy.
        apply negb_true_iff in Hy. now rewrite Hy.
      - destruct (isSpace x); [exact IH|]. exists (x :: q). reflexivity. }
    rewrite Hr', rev_app_distr, rev_involutive. apply startsWith_app.
  - destruct (startsWith p (trim s)) eqn:E'; [|reflexivity].
    apply startsWith_iff in E' as [r Hr].
    unfold trim, trimEnd in Hr.
    destruct (trimStart_suffix (rev (trimStart s))) as (w & Hw & Hs).
    apply (f_equal (@rev _)) in Hw. rewrite rev_involutive, rev_app_distr, Hr in Hw.
    rewrite Hw, <- app_assoc, startsWith_app in E. discriminate.
Qed.

(** *** [join] *)

Lemma join_cons sep x y rest : join sep (x :: y :: rest) = x ++ sep ++ join sep (y :: rest).
Proof. reflexivity. Qed.

(** A separator that is not in the pattern cuts the search in two. *)
Lemma startsWith_app_sep p u c y :
  ~ In c p -> startsWith p (u ++ c :: y) = startsWith p u.
Proof.
  revert u; induction p as [|a p IH]; intros u Hc; [reflexivity|].
  destruct u as [|d u]; simpl.
  - destruct (Ascii.eqb_spec a c) as [->|]; [|reflexivity].
    exfalso. apply Hc. now left.
  - destruct (Ascii.eqb_spec a d); [|reflexivity].
    apply IH. intros H. apply Hc. now right.
Qed.

Lemma includes_nil_r p : p <> [] -> includes p [] = false.
Proof. intros H. simpl. now rewrite startsWith_nil_r. Qed.

Lemma includes_app_sep p x c y :
  p <> [] -> ~ In c p ->
  includes p (x ++ c :: y) = includes p x || includes p y.
Proof.
  intros Hp Hc. induction x as [|d x IH].
  - rewrite includes_nil_r by exact Hp. simpl.
    change (c :: y) with ([] ++ c :: y).
    rewrite startsWith_app_sep by exact Hc.
    now rewrite startsWith_nil_r.
  - change ((d :: x) ++ c :: y) with (d :: (x ++ c :: y)).
    cbn [includes]. rewrite IH.
    change (d :: x ++ c :: y) with ((d :: x) ++ c :: y).
    rewrite startsWith_app_sep by exact Hc.
    now rewrite orb_assoc.
Qed.

Lemma includes_join p c lines :
  p <> [] -> ~ In c p ->
  includes p (join [c] lines) = existsb (includes p) lines.
Proof.
  intros Hp Hc. induction lines as [|x rest IH].
  - simpl. now rewrite startsWith_nil_r.
  - destruct rest as [|y rest].
    + simpl join. simpl existsb. now rewrite orb_false_r.
    + rewrite join_cons. change ([c] ++ join [c] (y :: rest)) with (c :: join [c] (y :: rest)).
      rewrite includes_app_sep by assumption. rewrite IH. reflexivity.
Qed.

End JsStringFacts.

Import JsStringFacts.

(* ================================================================== *)
(** ** The documentation parser *)
(* ================================================================== *)

Module CobolDocParserFacts.

(** [isRechDoc] looks for the opener in the lines joined by commas; the
    opener has no comma, so it is found there exactly when one line
    holds it. *)
Lemma isRechDoc_existsb documentation :
  isRechDoc documentation = existsb (includes (str "*>/**")) documentation.
Proof.
  unfold isRechDoc, arrayToString.
  apply (includes_join (str "*>/**") ","%char).
  - discriminate.
  - cbv. intuition discriminate.
Qed.

Lemma parseCobolDocTraced_result documentation :
  snd (parseCobolDocTraced documentation) = parseCobolDoc documentation.
Proof.
  unfold parseCobolDocTraced, parseCobolDoc.
  now destruct (isRechDoc documentation).
Qed.

(** *** Blank lines in a structured block *)

(** A line that is blank once the marker is removed is made of blanks
    and of the two code units of the marker. *)
Lemma blank_line_chars line :
  trim (replace (str "*>") [] line) = [] ->
  forall c, In c line -> c = "*"%char \/ c = ">"%char \/ isSpace c = true.
Proof.
  intros H c Hc. apply trim_nil_iff in H. rewrite forallb_forall in H.
  destruct (replace_nil_cover (str "*>") line c Hc) as [Hm | Hr].
  - simpl in Hm. intuition.
  - auto.
Qed.

Lemma blank_line_lacks line c :
  trim (replace (str "*>") [] line) = [] ->
  c <> "*"%char -> c <> ">"%char -> isSpace c = false -> ~ In c line.
Proof.
  intros H H1 H2 H3 Hc.
  destruct (blank_line_chars line H c Hc) as [?|[?|?]]; congruence.
Qed.

Lemma blank_line_not_startsWith line p c :
  trim (replace (str "*>") [] line) = [] ->
  In c p -> c <> "*"%char -> c <> ">"%char -> isSpace c = false ->
  startsWith p (trim line) = false.
Proof.
  intros H Hp H1 H2 H3. destruct (startsWith p (trim line)) eqn:E; [|reflexivity].
  exfalso. apply (blank_line_lacks line c H H1 H2 H3).
  apply trim_incl. eapply startsWith_In; eauto.
Qed.

Lemma blank_line_not_includes line p c :
  trim (replace (str "*>") [] line) = [] ->
  In c p -> c <> "*"%char -> c <> ">"%char -> isSpace c = false ->
  includes p line = false.
Proof.
  intros H Hp H1 H2 H3. destruct (includes p line) eqn:E; [|reflexivity].
  exfalso. apply (blank_line_lacks line c H H1 H2 H3).
  eapply includes_In; eauto.
Qed.

Ltac no_tag H :=
  apply blank_line_not_includes with (c := "@"%char);
  [ exact H | cbv; tauto | discriminate | discriminate | reflexivity ].

Lemma blank_line_tagStep st line :
  trim (replace (str "*>") [] line) = [] -> tagStep st line = st.
Proof.
  intros H. unfold tagStep, matchesOtherTag.
  assert (includes (str "@param") line = false) as -> by no_tag H.
  assert (includes (str "@return") line = false) as -> by no_tag H.
  assert (includes (str "@throws") line = false) as -> by no_tag H.
  assert (includes (str "@enum") line = false) as -> by no_tag H.
  assert (includes (str "@optional") line = false) as -> by no_tag H.
  assert (includes (str "@default") line = false) as -> by no_tag H.
  assert (includes (str "@extends") line = false) as -> by no_tag H.
  reflexivity.
Qed.

Lemma blank_line_commentStep st line :
  trim (replace (str "*>") [] line) = [] -> commentStep st line = st.
Proof.
  intros H. unfold commentStep. rewrite H. simpl.
  now destruct (extractingComment st).
Qed.

Lemma setParsing_same st : setParsing (parsingRechDoc st) st = st.
Proof. now destruct st. Qed.

Lemma blank_line_rechStep st line :
  trim (replace (str "*>") [] line) = [] -> rechStep st line = st.
Proof.
  intros H. unfold rechStep.
  rewrite (blank_line_not_startsWith line (str "*>/**") "/"%char H);
    [ | cbv; tauto | discriminate | discriminate | reflexivity ].
  rewrite (blank_line_not_startsWith line (str "*>*/") "/"%char H);
    [ | cbv; tauto | discriminate | discriminate | reflexivity ].
  rewrite (blank_line_tagStep st line H), (blank_line_commentStep st line H).
  now destruct (parsingRechDoc st).
Qed.

(** *** Tag tokens and the summary *)

Lemma tagStep_comment st line : stComment (tagStep st line) = stComment st.
Proof.
  unfold tagStep.
  destruct (includes (str "@param") line), (includes (str "@return") line),
    (includes (str "@throws") line), (matchesOtherTag line); reflexivity.
Qed.

Lemma tagStep_parsing st line : parsingRechDoc (tagStep st line) = parsingRechDoc st.
Proof.
  unfold tagStep.
  destruct (includes (str "@param") line), (includes (str "@return") line),
    (includes (str "@throws") line), (matchesOtherTag line); reflexivity.
Qed.

(** A line mentions a tag token exactly when one of the four tests of
    [tagStep] succeeds. *)
Lemma containsTagToken_tests line :
  containsTagToken line
  = (includes (str "@param") line || includes (str "@return") line
     || includes (str "@throws") line || matchesOtherTag line).
Proof.
  unfold containsTagToken, tagTokens, matchesOtherTag. cbn [existsb].
  destruct (includes (str "@param") line), (includes (str "@return") line),
    (includes (str "@throws") line), (includes (str "@enum") line),
    (includes (str "@optional") line), (includes (str "@default") line),
    (includes (str "@extends") line); reflexivity.
Qed.

Lemma tagStep_stops st line :
  containsTagToken line = true -> extractingComment (tagStep st line) = false.
Proof.
  rewrite containsTagToken_tests. unfold tagStep.
  destruct (includes (str "@param") line), (includes (str "@return") line),
    (includes (str "@throws") line), (matchesOtherTag line);
    simpl; intros H; try reflexivity; discriminate.
Qed.

Lemma tagStep_keeps_stopped st line :
  extractingComment st = false -> extractingComment (tagStep st line) = false.
Proof.
  unfold tagStep.
  destruct (includes (str "@param") line), (includes (str "@return") line),
    (includes (str "@throws") line), (matchesOtherTag line);
    simpl; intros H; try reflexivity; exact H.
Qed.

Lemma commentStep_stopped st line :
  extractingComment st = false -> commentStep st line = st.
Proof. unfold commentStep. now intros ->. Qed.

Lemma rechStep_off st line :
  accumulationOff st -> isOpener line = false ->
  accumulationOff (rechStep st line)
  /\ stComment (rechStep st line) = stComment st.
Proof.
  unfold accumulationOff, isOpener, rechStep. intros Hoff ->.
  destruct (startsWith (str "*>*/") (trim line)).
  - simpl. auto.
  - destruct (parsingRechDoc st) eqn:Ep.
    + destruct Hoff as [Hoff|Hoff]; [discriminate|].
      rewrite (commentStep_stopped _ line (tagStep_keeps_stopped st line Hoff)).
      split; [right; now apply tagStep_keeps_stopped | apply tagStep_comment].
    + auto.
Qed.

Lemma fold_rechStep_off rest : forall st,
  accumulationOff st -> Forall (fun l => isOpener l = false) rest ->
  stComment (fold_left rechStep rest st) = stComment st.
Proof.
  induction rest as [|l rest IH]; intros st Hoff Hall; [reflexivity|].
  inversion Hall as [|? ? Hl Hrest]; subst. simpl.
  destruct (rechStep_off st l Hoff Hl) as [Hoff' Hc].
  rewrite (IH _ Hoff' Hrest). exact Hc.
Qed.


Lemma rechStep_tag_token st line :
  isOpener line = false -> containsTagToken line = true ->
  accumulationOff (rechStep st line)
  /\ stComment (rechStep st line) = stComment st.
Proof.
  unfold accumulationOff, isOpener, rechStep. intros -> Htag.
  destruct (startsWith (str "*>*/") (trim line)).
  - simpl. auto.
  - destruct (parsingRechDoc st) eqn:Ep.
    + rewrite (commentStep_stopped _ line (tagStep_stops st line Htag)).
      split; [right; now apply tagStep_stops | apply tagStep_comment].
    + auto.
Qed.

(** *** The freeform dialect *)

Lemma dropLast_snoc (s : JsString.t) c : dropLast (s ++ [c]) = s.
Proof. unfold dropLast. apply removelast_last. Qed.

Lemma endsWith_dot_inv s :
  endsWith (str ".") s = true -> exists s', s = s' ++ ["."%char].
Proof.
  unfold endsWith. intros H. apply startsWith_iff in H as [r Hr].
  exists (rev r). apply (f_equal (@rev _)) in Hr.
  rewrite rev_involutive in Hr. rewrite Hr. reflexivity.
Qed.

Lemma endsWith_dot_false s :
  endsWith (str ".") s = false -> dropDots (rev s) = rev s.
Proof.
  unfold endsWith. simpl. destruct (rev s) as [|c r]; [reflexivity|].
  cbn [startsWith dropDots]. destruct (Ascii.eqb_spec "." c) as [<-|Hc]; [discriminate|].
  intros _. destruct (Ascii.eqb_spec c "."); [congruence | reflexivity].
Qed.

(** The loop of [removeDots] strips exactly the periods that end the
    string. *)
Lemma removeDots_strip s : removeDots s = stripTrailingDots s.
Proof.
  functional induction (removeDots s) as [s Hc IH | s Hc].
  - apply andb_true_iff in Hc as [_ Hd].
    destruct (endsWith_dot_inv s Hd) as [s' ->].
    rewrite dropLast_snoc in *. rewrite IH.
    unfold stripTrailingDots. rewrite rev_app_distr. reflexivity.
  - unfold stripTrailingDots. apply andb_false_iff in Hc as [Hn|Hd].
    + apply negb_false_iff, t_eqb_eq in Hn. now subst.
    + rewrite (endsWith_dot_false s Hd). now rewrite rev_involutive.
Qed.

Lemma dropDots_shape q :
  exists n, rev q = rev (dropDots q) ++ repeat "."%char n
            /\ startsWith ["."%char] (dropDots q) = false.
Proof.
  induction q as [|c q (n & Hq & Hd)].
  - exists 0. split; reflexivity.
  - cbn [dropDots]. destruct (Ascii.eqb_spec c ".") as [->|Hc].
    + exists (S n). split; [|exact Hd].
      simpl rev. rewrite Hq. rewrite <- app_assoc. f_equal.
      change ["."%char] with (repeat "."%char 1).
      rewrite <- repeat_app. now rewrite Nat.add_1_r.
    + exists 0. split; [now rewrite app_nil_r|].
      cbn [startsWith]. destruct (Ascii.eqb_spec "." c); [congruence | reflexivity].
Qed.

(** What is stripped is a run of periods, and what is left does not end
    with a period. *)
Lemma stripTrailingDots_shape s :
  exists n, s = stripTrailingDots s ++ repeat "."%char n
            /\ endsWith (str ".") (stripTrailingDots s) = false.
Proof.
  destruct (dropDots_shape (rev s)) as (n & Hq & Hd).
  exists n. unfold stripTrailingDots, endsWith.
  rewrite !rev_involutive in *. split; [exact Hq | exact Hd].
Qed.

Lemma defaultStep_fragment acc line :
  defaultStep acc line = acc ++ freeformFragment line.
Proof.
  unfold defaultStep, freeformFragment.
  destruct (startsWith (str "*>->") (trim line)).
  - rewrite removeDots_strip. reflexivity.
  - now rewrite app_nil_r.
Qed.

Lemma fold_defaultStep block : forall acc,
  fold_left defaultStep block acc = acc ++ freeformSummary block.
Proof.
  induction block as [|l block IH]; intros acc; simpl.
  - now rewrite app_nil_r.
  - rewrite IH, defaultStep_fragment. unfold freeformSummary. simpl.
    now rewrite app_assoc.
Qed.

Lemma extractDefaultDoc_summary block :
  extractDefaultDoc block = mkCobolDoc (freeformSummary block) [] [] [].
Proof. unfold extractDefaultDoc. now rewrite fold_defaultStep. Qed.

(** The first occurrence of a pattern that starts with a non-blank is
    not inside leading blanks. *)
Lemma replace_after_blanks p c w rest :
  p = c :: tl p -> isSpace c = false -> forallb isSpace w = true ->
  replace p [] (w ++ p ++ rest) = w ++ rest.
Proof.
  intros Hp Hc. induction w as [|x w IH]; intros Hw.
  - simpl app. destruct (p ++ rest) as [|y l] eqn:E.
    + destruct p; [|discriminate]. simpl in E. subst. reflexivity.
    + assert (Hs : startsWith p (y :: l) = true) by (rewrite <- E; apply startsWith_app).
      cbn [replace]. rewrite Hs. simpl. rewrite <- E.
      now rewrite skipn_app, skipn_all, Nat.sub_diag.
  - simpl in Hw. apply andb_true_iff in Hw as [Hx Hw].
    change ((x :: w) ++ p ++ rest) with (x :: (w ++ p ++ rest)).
    cbn [replace]. rewrite (startsWith_head_false p x _ c Hp) by congruence.
    simpl. f_equal. now apply IH.
Qed.

(** On a line taken by the freeform dialect, the marker that is removed
    is the one that starts the line after its leading blanks. *)
(** The first occurrence of a pattern is not inside a text that lacks
    the first code unit of the pattern. *)
Lemma replace_first_after p c x y :
  p = c :: tl p -> ~ In c x -> replace p [] (x ++ p ++ y) = x ++ y.
Proof.
  intros Hp. induction x as [|a x IH]; intros Hx.
  - simpl app. destruct (p ++ y) as [|b l] eqn:E.
    + destruct p; [|discriminate]. simpl in E. subst. reflexivity.
    + assert (Hs : startsWith p (b :: l) = true) by (rewrite <- E; apply startsWith_app).
      cbn [replace]. rewrite Hs. simpl. rewrite <- E.
      now rewrite skipn_app, skipn_all, Nat.sub_diag.
  - change ((a :: x) ++ p ++ y) with (a :: (x ++ p ++ y)).
    cbn [replace]. rewrite (startsWith_head_false p a _ c Hp).
    + cbn [app]. f_equal. apply IH. intros H. apply Hx. now right.
    + intros ->. apply Hx. now left.
Qed.

Lemma trimStart_skip w s :
  forallb isSpace w = true -> trimStart (w ++ s) = trimStart s.
Proof.
  induction w as [|c w IH]; simpl; [reflexivity|].
  intros H. apply andb_true_iff in H as [-> H]. auto.
Qed.

Lemma trimStart_app s u :
  trimStart s <> [] -> trimStart (s ++ u) = trimStart s ++ u.
Proof.
  induction s as [|c s IH]; simpl; [congruence|].
  destruct (isSpace c); [exact IH | reflexivity].
Qed.

(** Blanks around a text do not change what [trim] gives. *)
Lemma trim_blanks w s w' :
  forallb isSpace w = true -> forallb isSpace w' = true ->
  trim (w ++ s ++ w') = trim s.
Proof.
  intros Hw Hw'.
  destruct (forallb isSpace s) eqn:Hs.
  - rewrite (proj2 (trim_nil_iff s) Hs). apply trim_nil_iff.
    now rewrite !forallb_app, Hw, Hs, Hw'.
  - assert (Hne : trimStart s <> []).
    { intros H. apply trimStart_nil_inv in H. congruence. }
    unfold trim, trimEnd.
    rewrite (trimStart_skip w _ Hw), (trimStart_app s w' Hne).
    rewrite rev_app_distr, trimStart_skip by (now rewrite forallb_rev).
    reflexivity.
Qed.

(** A line made of the marker, a text without "<" and the closing
    marker, with blanks around: what it gives to the summary is the
    text, trimmed and without the periods that end it. *)
Lemma freeformFragment_of_marked_line w body w' :
  forallb isSpace w = true -> forallb isSpace w' = true ->
  ~ In "<"%char body ->
  freeformFragment (w ++ str "*>->" ++ body ++ str "<-<*" ++ w')
  = stripTrailingDots (trim body) ++ str " ".
Proof.
  intros Hw Hw' Hbody. unfold freeformFragment.
  assert (Hs : startsWith (str "*>->")
                 (trim (w ++ str "*>->" ++ body ++ str "<-<*" ++ w')) = true).
  { rewrite (startsWith_trim (str "*>->") _ "*"%char) by reflexivity.
    rewrite (trimStart_skip w _ Hw). reflexivity. }
  rewrite Hs.
  rewrite (replace_after_blanks (str "*>->") "*"%char w _ eq_refl eq_refl Hw).
  rewrite app_assoc.
  rewrite (replace_first_after (str "<-<*") "<"%char (w ++ body) w' eq_refl).
  - rewrite <- app_assoc. now rewrite (trim_blanks w body w' Hw Hw').
  - intros H. apply in_app_or in H as [H|H]; [|exact (Hbody H)].
    rewrite forallb_forall in Hw. specialize (Hw _ H). discriminate Hw.
Qed.

Lemma freeform_marker_removed line :
  startsWith (str "*>->") (trim line) = true ->
  exists w rest,
    forallb isSpace w = true
    /\ line = w ++ str "*>->" ++ rest
    /\ replace (str "*>->") [] line = w ++ rest.
Proof.
  intros H.
  rewrite (startsWith_trim (str "*>->") line "*"%char) in H by reflexivity.
  apply startsWith_iff in H as [rest Hrest].
  destruct (trimStart_suffix line) as (w & Hw & Hs).
  exists w, rest. split; [exact Hs|]. rewrite Hrest in Hw. split; [exact Hw|].
  rewrite Hw at 1. now apply (replace_after_blanks (str "*>->") "*"%char).
Qed.

End CobolDocParserFacts.

Import CobolDocParserFacts.

(** C5.  The dialect choice is binary and the structured dialect wins:
    for every comment block, [parseCobolDoc] makes exactly one call of an
    extraction method; it is [extractRechDoc] when some line of the block
    contains the opener (whatever freeform markers the block has) and
    [extractDefaultDoc] otherwise, and the record returned is the one
    that call built. *)
Theorem C5_dialect_selection (documentation : list JsString.t) :
  parseCobolDocTraced documentation =
    (if existsb (includes (str "*>/**")) documentation
     then ([ExtractRechDoc], extractRechDoc documentation)
     else ([ExtractDefaultDoc], extractDefaultDoc documentation))
  /\ parseCobolDoc documentation = snd (parseCobolDocTraced documentation).
Proof.
  split.
  - unfold parseCobolDocTraced. now rewrite isRechDoc_existsb.
  - symmetry. apply parseCobolDocTraced_result.
Qed.

(** C8.  A blank line of a structured block contributes nothing: when
    what is left of a line after removing the marker and trimming is
    empty, the step of [extractRechDoc] on that line returns the state
    it was given (summary, parameters, returns, throws and both flags),
    and the record built from a block is the one built from the block
    without that line. *)
Theorem C8_blank_line_ignored (st : RechState) (line : JsString.t)
    (before after : list JsString.t) :
  trim (replace (str "*>") [] line) = [] ->
  rechStep st line = st
  /\ extractRechDoc (before ++ line :: after) = extractRechDoc (before ++ after).
Proof.
  intros H. split.
  - now apply blank_line_rechStep.
  - unfold extractRechDoc. rewrite !fold_left_app. simpl.
    now rewrite blank_line_rechStep.
Qed.

Lemma C8_blank_line_ignored_witness :
  let st := mkRechState (str "Opens the file ") [] [] [] true true in
  let line := str "      *>   " in
  trim (replace (str "*>") [] line) = []
  /\ rechStep st line = st
  /\ comment (extractRechDoc [str "      *>/**"; str "      *> Opens"; line;
                              str "      *> the file"; str "      *>*/"])
     = str "Opens the file ".
Proof.
  intros st line.
  assert (H : trim (replace (str "*>") [] line) = []) by reflexivity.
  destruct (C8_blank_line_ignored st line [str "      *>/**"; str "      *> Opens"]
              [str "      *> the file"; str "      *>*/"] H) as [H1 H2].
  split; [exact H|]. split; [exact H1|].
  exact (eq_trans (f_equal comment H2) eq_refl).
Defined.




(* ================================================================== *)
(** ** The comment block above a declaration *)
(* ================================================================== *)

Module DocumentationFacts.

Lemma firstn_succ_nth (A : Type) (l : list A) : forall i x,
  nth_error l i = Some x -> firstn (S i) l = firstn i l ++ [x].
Proof.
  induction l as [|y l IH]; intros [|i] x H; simpl in *; try discriminate.
  - now inversion H.
  - f_equal. now apply IH.
Qed.

(** Inside the buffer the loop collects, nearest line first, the comment
    lines that end just above line [n]. *)
Lemma documentationLoop_in_range lines : forall n documentation,
  n <= length lines ->
  documentationLoop lines n documentation =
    Ok (documentation ++ takeWhile isCommentLine (rev (firstn n lines))).
Proof.
  induction n as [|index IH]; intros documentation Hn.
  - simpl. now rewrite app_nil_r.
  - cbn [documentationLoop].
    destruct (nth_error lines index) as [cur|] eqn:E.
    + rewrite (firstn_succ_nth _ lines index cur E), rev_app_distr.
      cbn [rev app takeWhile]. unfold isCommentLine at 1.
      destruct (startsWith (str "      *>") cur).
      * rewrite IH by lia. now rewrite <- app_assoc.
      * now rewrite app_nil_r.
    + apply nth_error_None in E. lia.
Qed.

(** Past the end of the buffer the first read is [undefined]. *)
Lemma documentationLoop_past_end lines n documentation :
  length lines < n -> documentationLoop lines n documentation = TypeError.
Proof.
  destruct n as [|index]; [lia|]. intros H. cbn [documentationLoop].
  assert (nth_error lines index = None) as -> by (apply nth_error_None; lia).
  reflexivity.
Qed.

Lemma getElementDocumentation_in_range lines (i : Z) :
  (i <= Z.of_nat (length lines))%Z ->
  getElementDocumentation lines i = Ok (commentBlockAbove lines (Z.to_nat i)).
Proof.
  intros H. unfold getElementDocumentation, commentBlockAbove.
  rewrite documentationLoop_in_range by lia. reflexivity.
Qed.

Lemma getElementDocumentation_past_end lines (i : Z) :
  (Z.of_nat (length lines) < i)%Z ->
  getElementDocumentation lines i = TypeError.
Proof.
  intros H. unfold getElementDocumentation.
  rewrite documentationLoop_past_end by lia. reflexivity.
Qed.

End DocumentationFacts.

Import DocumentationFacts.

(** C6, as the code has it.  At line index 0 and at every negative index
    the comment block is empty and nothing is raised.  At an index from
    1 to the length of the buffer (the length included) the result is
    the contiguous run of comment lines that ends just above that index,
    in source order.  At an index greater than the length the read of
    [lines[lineIndex - 1]] is [undefined] and a [TypeError] is raised. *)
Theorem C6_comment_block_by_index (lines : list JsString.t) (lineIndex : Z) :
  getElementDocumentation lines lineIndex =
    (if (lineIndex <=? 0)%Z then Ok []
     else if (lineIndex <=? Z.of_nat (length lines))%Z
          then Ok (commentBlockAbove lines (Z.to_nat lineIndex))
          else TypeError).
Proof.
  destruct (Z.leb_spec lineIndex 0) as [H0|H0].
  - rewrite getElementDocumentation_in_range by lia.
    replace (Z.to_nat lineIndex) with 0 by lia. reflexivity.
  - destruct (Z.leb_spec lineIndex (Z.of_nat (length lines))) as [H1|H1].
    + now apply getElementDocumentation_in_range.
    + now apply getElementDocumentation_past_end.
Qed.

(** C6 as stated fails at the end of a buffer: with one comment line in
    the buffer, index 1 (the length) gives that line, not an empty
    block, and index 2 raises. *)
Lemma C6_out_of_range_counterexample :
  let lines := [str "      *> closing note"] in
  (Z.of_nat (length lines) <= 1)%Z
  /\ getElementDocumentation lines 1 = Ok [str "      *> closing note"]
  /\ getElementDocumentation lines 1 <> Ok []
  /\ (Z.of_nat (length lines) <= 2)%Z
  /\ getElementDocumentation lines 2 = TypeError.
Proof.
  cbv zeta. split; [simpl; lia|]. split; [reflexivity|].
  split; [intros H; discriminate H|]. split; [simpl; lia | reflexivity].
Qed.

(** C7, as the code has it.  A comment block with no opener is parsed by
    the freeform path: the summary is the concatenation, in order, of
    what each line gives; a line that begins after trimming with the
    marker "*>->" gives the line without that leading marker and without
    the first "<-<*", trimmed, with the periods that end it stripped,
    followed by one space; any other line gives nothing.  When the line
    is the marker, a text without "<" and the closing marker, with
    blanks around, that is the text, trimmed and without the periods
    that end it, followed by one space.  In the scenario buffer the
    comment line stands above line 2: the block read at index 0 is empty
    and its summary is empty, and the block read at index 2 is that
    comment line, with summary "Does A ". *)
Theorem C7_freeform_summary (block : list JsString.t) :
  existsb (includes (str "*>/**")) block = false ->
  parseCobolDoc block = mkCobolDoc (freeformSummary block) [] [] []
  /\ (forall line, startsWith (str "*>->") (trim line) = true ->
        exists w rest,
          forallb isSpace w = true
          /\ line = w ++ str "*>->" ++ rest
          /\ replace (str "*>->") [] line = w ++ rest)
  /\ (forall s, exists n,
        s = removeDots s ++ repeat "."%char n
        /\ endsWith (str ".") (removeDots s) = false)
  /\ (forall w body w',
        forallb isSpace w = true -> forallb isSpace w' = true ->
        ~ In "<"%char body ->
        freeformFragment (w ++ str "*>->" ++ body ++ str "<-<*" ++ w')
        = removeDots (trim body) ++ str " ")
  /\ getElementDocumentation scenarioBuffer 0 = Ok []
  /\ comment (parseCobolDoc []) = []
  /\ getElementDocumentation scenarioBuffer 2 = Ok [str "      *>-> Does A. <-<*"]
  /\ comment (parseCobolDoc [str "      *>-> Does A. <-<*"]) = str "Does A ".
Proof.
  intros H. split.
  - unfold parseCobolDoc. rewrite isRechDoc_existsb, H.
    apply extractDefaultDoc_summary.
  - split; [exact freeform_marker_removed|].
    split; [intros s; rewrite removeDots_strip; apply stripTrailingDots_shape|].
    split.
    { intros w body w' Hw Hw' Hb. rewrite removeDots_strip.
      now apply freeformFragment_of_marked_line. }
    repeat split; reflexivity.
Qed.

Lemma C7_freeform_summary_witness :
  let block := [str "      *>-> Opens the file... <-<*";
                str "      *> not a summary line";
                str "      *>-> and reads it. <-<*"] in
  existsb (includes (str "*>/**")) block = false
  /\ comment (parseCobolDoc block) = str "Opens the file and reads it ".
Proof.
  intros block.
  assert (H : existsb (includes (str "*>/**")) block = false) by reflexivity.
  split; [exact H|].
  destruct (C7_freeform_summary block H) as [Hp _].
  exact (eq_trans (f_equal comment Hp) eq_refl).
Defined.

(** C7 as stated fails in three places.  In the scenario buffer the line
    that declares PARA-B is line 2, and the block read above it is the
    comment line, not an empty block; its summary is "Does A ", not
    empty.  What is left of that comment line when the two markers are
    removed ends with a blank, so that no period ends it: the code trims
    it before it removes the periods.  And of two "<-<*" in a line the
    first is removed: the one that ends the line stays in the summary,
    with the period before it. *)
Lemma C7_as_stated_counterexample :
  nth_error scenarioBuffer 2 = Some (str "       PARA-B.")
  /\ getElementDocumentation scenarioBuffer 2 = Ok [str "      *>-> Does A. <-<*"]
  /\ getElementDocumentation scenarioBuffer 2 <> Ok []
  /\ comment (parseCobolDoc [str "      *>-> Does A. <-<*"]) = str "Does A "
  /\ comment (parseCobolDoc [str "      *>-> Does A. <-<*"]) <> []
  /\ replace (str "<-<*") [] (replace (str "*>->") [] (str "      *>-> Does A. <-<*"))
     = str "       Does A. "
  /\ removeDots (str "       Does A. ") ++ str " " <> str "Does A "
  /\ comment (parseCobolDoc [str "      *>-> Copies <-<* to the end. <-<*"])
     = str "Copies  to the end. <-<* ".
Proof.
  split; [reflexivity|]. split; [reflexivity|].
  split; [intros H; discriminate H|]. split; [reflexivity|].
  split; [intros H; discriminate H|]. split; [reflexivity|].
  split; [intros H; discriminate H | reflexivity].
Qed.

(* ================================================================== *)
(** ** Maps *)
(* ================================================================== *)

Module JsMapFacts.

Section Facts.
Variable V : Type.
Implicit Types (m : JsMap.t V) (k : JsString.t) (v : V).

Lemma get_set_same k v m : JsMap.get k (JsMap.set k v m) = Some v.
Proof.
  induction m as [|[k' v'] m IH]; simpl.
  - now rewrite t_eqb_refl.
  - destruct (t_eqb k' k) eqn:E; simpl; rewrite E; auto.
Qed.

Lemma get_set_other k k' v m :
  k <> k' -> JsMap.get k' (JsMap.set k v m) = JsMap.get k' m.
Proof.
  intros Hk. induction m as [|[k0 v0] m IH]; simpl.
  - now rewrite t_eqb_neq.
  - destruct (t_eqb k0 k) eqn:E; simpl.
    + apply t_eqb_eq in E. subst k0. now rewrite !t_eqb_neq.
    + now rewrite IH.
Qed.

Lemma get_set k k' v m :
  JsMap.get k' (JsMap.set k v m) = if t_eqb k k' then Some v else JsMap.get k' m.
Proof.
  destruct (t_eqb k k') eqn:E.
  - apply t_eqb_eq in E. subst. apply get_set_same.
  - apply get_set_other. intros ->. now rewrite t_eqb_refl in E.
Qed.

Lemma get_None_keys k m : JsMap.get k m = None <-> ~ In k (JsMap.keys m).
Proof.
  induction m as [|[k' v'] m IH]; simpl.
  - tauto.
  - destruct (t_eqb k' k) eqn:E.
    + apply t_eqb_eq in E. split; [discriminate | intros H; exfalso; auto].
    + rewrite IH. split.
      * intros H [H'|H']; [subst; now rewrite t_eqb_refl in E | auto].
      * tauto.
Qed.

(** [set] keeps the keys in place and adds a new key at the end. *)
Lemma keys_set k v m :
  JsMap.keys (JsMap.set k v m) =
    if JsMap.has k m then JsMap.keys m else JsMap.keys m ++ [k].
Proof.
  unfold JsMap.has. induction m as [|[k' v'] m IH]; simpl; [reflexivity|].
  destruct (t_eqb k' k) eqn:E; simpl; [reflexivity|].
  rewrite IH. now destruct (JsMap.get k m).
Qed.

Lemma has_existsb k m :
  JsMap.has k m = existsb (fun k' => t_eqb k' k) (JsMap.keys m).
Proof.
  unfold JsMap.has. induction m as [|[k' v'] m IH]; simpl; [reflexivity|].
  destruct (t_eqb k' k); [reflexivity | exact IH].
Qed.

Lemma keys_set_addKey k v m :
  JsMap.keys (JsMap.set k v m) = addKey (JsMap.keys m) k.
Proof. rewrite keys_set, has_existsb. reflexivity. Qed.

Lemma NoDup_keys_set k v m :
  NoDup (JsMap.keys m) -> NoDup (JsMap.keys (JsMap.set k v m)).
Proof.
  intros H. rewrite keys_set. unfold JsMap.has.
  destruct (JsMap.get k m) eqn:E; [exact H|].
  apply get_None_keys in E.
  apply NoDup_rev in H. rewrite <- (rev_involutive (JsMap.keys m ++ [k])).
  apply NoDup_rev. rewrite rev_app_distr. simpl. constructor; [|exact H].
  now rewrite <- in_rev.
Qed.

End Facts.

End JsMapFacts.

Import JsMapFacts.

(* ================================================================== *)
(** ** The declaration index *)
(* ================================================================== *)

Section IndexFacts.

Variable scan : JsString.t -> regex -> list ScanIterator.
Variable getDeclaracaoParagrafo : JsString.t -> option JsString.t.
Variable commentDetail : CobolDoc -> JsString.t.
Variable elementsAsMarkdown : CobolDoc -> JsString.t.

Local Abbreviation create := (createParagraphCompletion commentDetail elementsAsMarkdown).
Local Abbreviation recordAt := (Spec.recordAt commentDetail elementsAsMarkdown).
Local Abbreviation callback := (scanCallback getDeclaracaoParagrafo commentDetail elementsAsMarkdown).
Local Abbreviation forEach := (forEachIterator getDeclaracaoParagrafo commentDetail elementsAsMarkdown).
Local Abbreviation buildIndex :=
  (generateParagraphCompletion scan getDeclaracaoParagrafo commentDetail elementsAsMarkdown).
Local Abbreviation declares' := (declares getDeclaracaoParagrafo).

Lemma find_app (A : Type) (f : A -> bool) (l1 l2 : list A) :
  find f (l1 ++ l2) = match find f l1 with Some x => Some x | None => find f l2 end.
Proof.
  induction l1 as [|x l1 IH]; simpl; [reflexivity|].
  now destruct (f x).
Qed.

(** One call of the callback, for a row inside the buffer. *)
Lemma scanCallback_in_range this lines items iterator :
  (row iterator <= Z.of_nat (length lines))%Z ->
  callback this lines items iterator =
    Ok (if truthy (getDeclaracaoParagrafo (lineContent iterator))
        then JsMap.set (text (getDeclaracaoParagrafo (lineContent iterator)))
               (recordAt this lines
                  (text (getDeclaracaoParagrafo (lineContent iterator))) iterator)
               items
        else items).
Proof.
  intros H. unfold scanCallback, Spec.recordAt.
  rewrite getElementDocumentation_in_range by exact H. simpl.
  now destruct (truthy (getDeclaracaoParagrafo (lineContent iterator))).
Qed.

(** The whole scan: it ends without an exception, keeps the keys
    distinct, and a name ends with the record of its last occurrence. *)
Lemma forEachIterator_last this lines : forall occurrences items,
  Forall (fun iterator => (row iterator <= Z.of_nat (length lines))%Z) occurrences ->
  exists items',
    forEach this lines occurrences items = Ok items'
    /\ (NoDup (JsMap.keys items) -> NoDup (JsMap.keys items'))
    /\ forall name,
         JsMap.get name items' =
           match find (declares' name) (rev occurrences) with
           | Some iterator => Some (recordAt this lines name iterator)
           | None => JsMap.get name items
           end.
Proof.
  induction occurrences as [|it rest IH]; intros items Hrows.
  - exists items. simpl. auto.
  - inversion Hrows as [|? ? Hit Hrest]; subst.
    cbn [forEachIterator]. rewrite (scanCallback_in_range this lines items it Hit).
    cbn [bind].
    destruct (IH (if truthy (getDeclaracaoParagrafo (lineContent it))
                  then JsMap.set (text (getDeclaracaoParagrafo (lineContent it)))
                         (recordAt this lines
                            (text (getDeclaracaoParagrafo (lineContent it))) it) items
                  else items) Hrest) as (items' & Hrun & Hdup & Hget).
    exists items'. split; [exact Hrun|]. split.
    + intros Hnd. apply Hdup.
      destruct (truthy (getDeclaracaoParagrafo (lineContent it))); [|exact Hnd].
      now apply NoDup_keys_set.
    + intros name. rewrite Hget. cbn [rev]. rewrite find_app.
      destruct (find (declares' name) (rev rest)); [reflexivity|].
      cbn [find]. unfold declares at 1.
      destruct (truthy (getDeclaracaoParagrafo (lineContent it))); [|reflexivity].
      rewrite get_set. cbn [andb].
      destruct (t_eqb (text (getDeclaracaoParagrafo (lineContent it))) name) eqn:E;
        [|reflexivity].
      apply t_eqb_eq in E. now rewrite E.
Qed.

(** The keys of the index are the declared names in the order of their
    first appearance. *)
Lemma forEachIterator_keys this lines : forall occurrences items items',
  Forall (fun iterator => (row iterator <= Z.of_nat (length lines))%Z) occurrences ->
  forEach this lines occurrences items = Ok items' ->
  JsMap.keys items' =
    fold_left addKey (declaredNames getDeclaracaoParagrafo occurrences)
              (JsMap.keys items).
Proof.
  induction occurrences as [|it rest IH]; intros items items' Hrows Hrun.
  - simpl in *. now inversion Hrun.
  - inversion Hrows as [|? ? Hit Hrest]; subst.
    cbn [forEachIterator] in Hrun.
    rewrite (scanCallback_in_range this lines items it Hit) in Hrun.
    cbn [bind] in Hrun. rewrite (IH _ _ Hrest Hrun).
    cbn [declaredNames flat_map].
    destruct (truthy (getDeclaracaoParagrafo (lineContent it))).
    + cbn [app fold_left]. now rewrite keys_set_addKey.
    + reflexivity.
Qed.

(** The merge of the local index into the index of the expanded source:
    a key of the expanded index keeps its record, any other key takes
    the record of the local index. *)
Lemma merge_get : forall (localItems items : JsMap.t CompletionItem) key,
  JsMap.get key (fold_left mergeEntry localItems items) =
    match JsMap.get key items with
    | Some value => Some value
    | None => JsMap.get key localItems
    end.
Proof.
  induction localItems as [|[k0 v0] rest IH]; intros items key.
  - simpl. now destruct (JsMap.get key items).
  - cbn [fold_left mergeEntry]. rewrite IH. unfold JsMap.has.
    destruct (JsMap.get k0 items) as [v|] eqn:E0; cbn [negb].
    + cbn [JsMap.get]. destruct (JsMap.get key items) eqn:Ek; [reflexivity|].
      destruct (t_eqb k0 key) eqn:E; [|reflexivity].
      apply t_eqb_eq in E. subst. congruence.
    + rewrite get_set. cbn [JsMap.get].
      destruct (t_eqb k0 key) eqn:E.
      * apply t_eqb_eq in E. subst. now rewrite E0.
      * reflexivity.
Qed.

Lemma merge_NoDup : forall (localItems items : JsMap.t CompletionItem),
  NoDup (JsMap.keys items) ->
  NoDup (JsMap.keys (fold_left mergeEntry localItems items)).
Proof.
  induction localItems as [|[k0 v0] rest IH]; intros items H; [exact H|].
  cbn [fold_left mergeEntry]. apply IH.
  destruct (negb (JsMap.has k0 items)); [now apply NoDup_keys_set | exact H].
Qed.

End IndexFacts.

(** C1, as the code has it.  For every buffer whose scan stays inside
    the buffer, [generateParagraphCompletion(lines, false)] returns a map
    without raising; its keys are distinct and are the declared names in
    the order of their first appearance; and a name that is scanned more
    than once is mapped to the record built from the comment block of
    its LAST occurrence ([Map.set] replaces the value of a key that is
    already there).  A name that no occurrence declares is not a key. *)
Theorem C1_last_occurrence_wins
    (scan : JsString.t -> regex -> list ScanIterator)
    (getDeclaracaoParagrafo : JsString.t -> option JsString.t)
    (commentDetail elementsAsMarkdown : CobolDoc -> JsString.t)
    (this : Instance) (lines : list JsString.t) :
  rowsInRange scan lines ->
  exists items,
    generateParagraphCompletion scan getDeclaracaoParagrafo commentDetail
                                elementsAsMarkdown this lines false = Ok items
    /\ NoDup (JsMap.keys items)
    /\ JsMap.keys items =
       firstAppearances
         (declaredNames getDeclaracaoParagrafo
            (scan (join newline lines) paragraphRegex))
    /\ forall name,
         JsMap.get name items =
           match lastOccurrence getDeclaracaoParagrafo name
                   (scan (join newline lines) paragraphRegex) with
           | Some iterator =>
               Some (createParagraphCompletion commentDetail elementsAsMarkdown
                       this name
                       (commentBlockAbove lines (Z.to_nat (row iterator))))
           | None => None
           end.
Proof.
  intros Hrows.
  destruct (forEachIterator_last getDeclaracaoParagrafo commentDetail
              elementsAsMarkdown this lines _ (JsMap.empty _) Hrows)
    as (items & Hrun & Hdup & Hget).
  exists items. unfold generateParagraphCompletion, generateWithoutCache.
  rewrite Hrun. split; [reflexivity|]. split; [|split].
  - apply Hdup. constructor.
  - apply (forEachIterator_keys getDeclaracaoParagrafo commentDetail
             elementsAsMarkdown this lines _ _ _ Hrows Hrun).
  - intros name. rewrite Hget. reflexivity.
Qed.

Lemma C1_last_occurrence_wins_witness :
  rowsInRange Collaborators.scan duplicateBuffer
  /\ exists items,
       Collaborators.generateParagraphCompletion someInstance duplicateBuffer false
       = Ok items
       /\ NoDup (JsMap.keys items)
       /\ option_map detail (JsMap.get (str "PARA-A") items) = Some (str "Second ").
Proof.
  assert (H : rowsInRange Collaborators.scan duplicateBuffer).
  { unfold rowsInRange. vm_compute. repeat constructor; discriminate. }
  split; [exact H|].
  destruct (C1_last_occurrence_wins Collaborators.scan
              Collaborators.getDeclaracaoParagrafo Collaborators.commentDetail
              Collaborators.elementsAsMarkdown someInstance duplicateBuffer H)
    as (items & Hrun & Hdup & _ & Hget).
  exists items. split; [exact Hrun|]. split; [exact Hdup|].
  rewrite (Hget (str "PARA-A")). reflexivity.
Defined.

(** C1 as stated fails on a buffer that declares PARA-A twice and goes
    on with a statement: the first declaration stands on line 1 under
    the comment "First", the second on line 3 under the comment
    "Second", and the index holds the record of the second one, not the
    record built from the comment block of the first. *)
Lemma C1_first_wins_counterexample :
  exists items first,
    Collaborators.generateParagraphCompletion someInstance duplicateBuffer false
    = Ok items
    /\ firstOccurrence Collaborators.getDeclaracaoParagrafo (str "PARA-A")
         (Collaborators.scan (join newline duplicateBuffer) paragraphRegex)
       = Some first
    /\ row first = 1%Z
    /\ detail (recordAt Collaborators.commentDetail Collaborators.elementsAsMarkdown
                  someInstance duplicateBuffer (str "PARA-A") first)
       = str "First "
    /\ option_map detail (JsMap.get (str "PARA-A") items) = Some (str "Second ")
    /\ JsMap.get (str "PARA-A") items
       <> Some (recordAt Collaborators.commentDetail Collaborators.elementsAsMarkdown
                  someInstance duplicateBuffer (str "PARA-A") first).
Proof.
  eexists. eexists. split; [reflexivity|]. split; [reflexivity|].
  split; [reflexivity|]. split; [reflexivity|]. split; [reflexivity|].
  intros H. discriminate H.
Qed.

(** C3.  With the expanded source scanned into [E] and the local buffer
    into [L], [generateParagraphCompletion(expanded, true)] returns a map
    that holds the record of [E] for every key of [E] and the record of
    [L] for every key that only [L] has, and no other key; its keys are
    distinct when those of [E] are. *)
Theorem C3_merge_precedence
    (scan : JsString.t -> regex -> list ScanIterator)
    (getDeclaracaoParagrafo : JsString.t -> option JsString.t)
    (commentDetail elementsAsMarkdown : CobolDoc -> JsString.t)
    (this : Instance) (expanded local : list JsString.t)
    (E L : JsMap.t CompletionItem) :
  currentLines this = Some local ->
  generateParagraphCompletion scan getDeclaracaoParagrafo commentDetail
                              elementsAsMarkdown this expanded false = Ok E ->
  generateParagraphCompletion scan getDeclaracaoParagrafo commentDetail
                              elementsAsMarkdown this local false = Ok L ->
  exists merged,
    generateParagraphCompletion scan getDeclaracaoParagrafo commentDetail
                                elementsAsMarkdown this expanded true = Ok merged
    /\ (forall key value, JsMap.get key E = Some value ->
                          JsMap.get key merged = Some value)
    /\ (forall key, JsMap.get key E = None ->
                    JsMap.get key merged = JsMap.get key L)
    /\ (NoDup (JsMap.keys E) -> NoDup (JsMap.keys merged)).
Proof.
  unfold generateParagraphCompletion. intros Hlocal HE HL.
  destruct (generateWithoutCache scan getDeclaracaoParagrafo commentDetail
              elementsAsMarkdown this expanded) as [E'|] eqn:E1; [|discriminate].
  destruct (generateWithoutCache scan getDeclaracaoParagrafo commentDetail
              elementsAsMarkdown this local) as [L'|] eqn:E2; [|discriminate].
  cbn [bind] in *. inversion HE; inversion HL; subst E' L'.
  rewrite Hlocal, E2. cbn [bind].
  exists (fold_left mergeEntry L E). split; [reflexivity|]. split; [|split].
  - intros key value Hk. now rewrite merge_get, Hk.
  - intros key Hk. now rewrite merge_get, Hk.
  - apply merge_NoDup.
Qed.

Lemma C3_merge_precedence_witness :
  let this := mkInstance (str "f.cache") (str "file:///f.cbl") (Some localLines) 0 0 in
  exists E L merged,
    Collaborators.generateParagraphCompletion this expandedLines false = Ok E
    /\ Collaborators.generateParagraphCompletion this localLines false = Ok L
    /\ Collaborators.generateParagraphCompletion this expandedLines true = Ok merged
    /\ option_map detail (JsMap.get (str "K") E) = Some (str "From the copy ")
    /\ option_map detail (JsMap.get (str "K") L) = Some (str "Local text ")
    /\ option_map detail (JsMap.get (str "K") merged) = Some (str "From the copy ")
    /\ JsMap.get (str "ONLY-LOCAL") E = None
    /\ JsMap.get (str "ONLY-LOCAL") merged = JsMap.get (str "ONLY-LOCAL") L
    /\ JsMap.keys merged = [str "K"; str "ONLY-LOCAL"].
Proof.
  intros this.
  destruct (Collaborators.generateParagraphCompletion this expandedLines false)
    as [E|] eqn:HE; [|discriminate HE].
  destruct (Collaborators.generateParagraphCompletion this localLines false)
    as [L|] eqn:HL; [|discriminate HL].
  destruct (C3_merge_precedence Collaborators.scan
              Collaborators.getDeclaracaoParagrafo Collaborators.commentDetail
              Collaborators.elementsAsMarkdown this expandedLines localLines E L
              eq_refl HE HL) as (merged & Hm & HinE & HonlyL & _).
  exists E, L, merged.
  assert (HK : option_map detail (JsMap.get (str "K") E) = Some (str "From the copy "))
    by (inversion HE; reflexivity).
  assert (HO : JsMap.get (str "ONLY-LOCAL") E = None)
    by (inversion HE; reflexivity).
  split; [reflexivity|]. split; [reflexivity|]. split; [exact Hm|].
  split; [exact HK|].
  split; [inversion HL; reflexivity|].
  split.
  - destruct (JsMap.get (str "K") E) as [v|] eqn:Ev; [|discriminate HK].
    rewrite (HinE (str "K") v Ev). exact HK.
  - split; [exact HO|]. split; [exact (HonlyL _ HO)|].
    unfold Collaborators.generateParagraphCompletion in Hm.
    vm_compute in Hm. inversion Hm. reflexivity.
Defined.

(* ================================================================== *)
(** ** Requests and the cache *)
(* ================================================================== *)

Section RequestFacts.

Variable scan : JsString.t -> regex -> list ScanIterator.
Variable getDeclaracaoParagrafo : JsString.t -> option JsString.t.
Variable commentDetail : CobolDoc -> JsString.t.
Variable elementsAsMarkdown : CobolDoc -> JsString.t.
Variable split : JsString.t -> list JsString.t.
Variable findWordStartWithinLine : Z -> option JsString.t -> Z.

Local Abbreviation buildIndex :=
  (generateParagraphCompletion scan getDeclaracaoParagrafo commentDetail elementsAsMarkdown).
Local Abbreviation executor :=
  (generateExecutor scan getDeclaracaoParagrafo commentDetail elementsAsMarkdown
                    findWordStartWithinLine).
Local Abbreviation generate' :=
  (generate scan getDeclaracaoParagrafo commentDetail elementsAsMarkdown
           split findWordStartWithinLine).

(** The scan of a buffer whose rows stay inside it does not raise. *)
Lemma generate_without_cache_total this lines :
  rowsInRange scan lines ->
  exists items, buildIndex this lines false = Ok items.
Proof.
  intros Hrows.
  destruct (forEachIterator_last getDeclaracaoParagrafo commentDetail
              elementsAsMarkdown this lines _ (JsMap.empty _) Hrows)
    as (items & Hrun & _).
  exists items. unfold generateParagraphCompletion, generateWithoutCache.
  now rewrite Hrun.
Qed.

(** What the executor leaves: the statics as they were, the fields of
    the instance assigned, no call of the provider. *)
Lemma executor_frame s this0 line column lines :
  let w := executor s this0 line column lines in
  statics w = s
  /\ cacheFileName (this_ w) = cacheFileName this0
  /\ uri (this_ w) = uri this0
  /\ currentLines (this_ w) = Some lines
  /\ lineNumber (this_ w) = line
  /\ loaded w = Pending
  /\ expansionRequests w = [].
Proof. cbv zeta. unfold generateExecutor. simpl. repeat split. Qed.

(** The promise of [generate] is settled by its executor. *)
Lemma executor_settles s this0 line column lines :
  generated (executor s this0 line column lines) <> Pending.
Proof.
  unfold generateExecutor. simpl.
  match goal with |- match ?x with _ => _ end <> _ => destruct x end;
    simpl; discriminate.
Qed.

Lemma rejectP_settled (A : Type) (p : promise A) : p <> Pending -> rejectP p = p.
Proof. destruct p; simpl; congruence. Qed.

(** A request whose expansion is rejected: the statics are those from
    before the request, the promise of [loadCache] is rejected, and the
    promise of [generate] is the one its executor settled. *)
Lemma request_expansion_rejected mode expansion s this0 line column lines :
  t_eqb mode (str "local") = false ->
  expansion (uri this0) = Rejects ->
  let w := generate' (Resolves mode) expansion s this0 line column lines in
  statics w = s
  /\ loaded w = Rejected
  /\ expansionRequests w = [uri this0]
  /\ generated w = generated (executor s this0 line column lines).
Proof.
  intros Hmode Hrej. cbv zeta. unfold generate, loadCacheThen.
  rewrite Hmode. cbn [this_ uri generateExecutor]. rewrite Hrej.
  unfold loadCacheCatch. cbn [statics loaded expansionRequests generated this_].
  repeat split.
  apply rejectP_settled. apply executor_settles.
Qed.

(** With a scan that stays inside the buffer the executor fulfils the
    promise of [generate]. *)
Lemma executor_fulfils s this0 line column lines :
  rowsInRange scan lines ->
  exists items, generated (executor s this0 line column lines) = Fulfilled items.
Proof.
  intros Hrows. unfold generateExecutor. cbn [generated currentLines].
  set (this := mkInstance _ _ _ _ _).
  destruct (cacheIsCurrent s this) eqn:Ec.
  - unfold cacheIsCurrent in Ec. destruct (cache s) as [c|]; [|discriminate].
    eexists. reflexivity.
  - destruct (generate_without_cache_total this lines Hrows) as (m & Hm).
    rewrite Hm. eexists. reflexivity.
Qed.

(** However the expansion fails, the caller of [generate] gets items:
    the promise is fulfilled, not rejected. *)
Lemma generate_fulfilled_despite_rejection mode expansion s this0 line column lines :
  rowsInRange scan lines ->
  t_eqb mode (str "local") = false ->
  expansion (uri this0) = Rejects ->
  exists items,
    generated (generate' (Resolves mode) expansion s this0 line column lines)
    = Fulfilled items.
Proof.
  intros Hrows Hmode Hrej.
  destruct (request_expansion_rejected mode expansion s this0 line column lines
              Hmode Hrej) as (_ & _ & _ & Hg).
  rewrite Hg. now apply executor_fulfils.
Qed.

End RequestFacts.

(** C4.  When [sourceOfCompletions] resolves to "local",
    [getExpandedSource] is not called during the request, whatever the
    provider would answer; the index built from the lines of the request
    is stored in the cache, the cache is named after the cache file of
    the request, and the promise of [loadCache] is fulfilled. *)
Theorem C4_local_mode_skips_expansion
    (scan : JsString.t -> regex -> list ScanIterator)
    (getDeclaracaoParagrafo : JsString.t -> option JsString.t)
    (commentDetail elementsAsMarkdown : CobolDoc -> JsString.t)
    (split : JsString.t -> list JsString.t)
    (findWordStartWithinLine : Z -> option JsString.t -> Z)
    (expansion : JsString.t -> settlement JsString.t)
    (s : Statics) (this0 : Instance) (line column : Z) (lines : list JsString.t) :
  rowsInRange scan lines ->
  let w := generate scan getDeclaracaoParagrafo commentDetail elementsAsMarkdown
                   split findWordStartWithinLine
                   (Resolves (str "local")) expansion s this0 line column lines in
  expansionRequests w = []
  /\ exists items,
       generateParagraphCompletion scan getDeclaracaoParagrafo commentDetail
                                   elementsAsMarkdown (this_ w) lines false = Ok items
       /\ cache (statics w) = Some items
       /\ cacheSourceFileName (statics w) = Some (cacheFileName this0)
       /\ loaded w = Fulfilled tt.
Proof.
  intros Hrows. cbv zeta. unfold generate, loadCacheThen.
  cbn [t_eqb str list_ascii_of_string Ascii.eqb Bool.eqb andb].
  cbn [this_ currentLines generateExecutor].
  set (this := mkInstance _ _ _ _ _).
  destruct (generate_without_cache_total scan getDeclaracaoParagrafo commentDetail
              elementsAsMarkdown this lines Hrows) as (items & Hitems).
  rewrite Hitems. cbn [expansionRequests statics this_ cache cacheSourceFileName loaded].
  split; [reflexivity|]. exists items. repeat split. exact Hitems.
Qed.

Lemma C4_local_mode_skips_expansion_witness :
  let w := Collaborators.generate (Resolves (str "local"))
             (fun _ => Resolves (str "       FROM-COPY."))
             priorStatics someInstance 0 0 localLines in
  rowsInRange Collaborators.scan localLines
  /\ expansionRequests w = []
  /\ option_map (@JsMap.keys CompletionItem) (cache (statics w))
     = Some [str "K"; str "ONLY-LOCAL"]
  /\ cacheSourceFileName (statics w) = Some (str "f.cache").
Proof.
  intros w.
  assert (H : rowsInRange Collaborators.scan localLines).
  { unfold rowsInRange. vm_compute. repeat constructor; discriminate. }
  split; [exact H|].
  destruct (C4_local_mode_skips_expansion Collaborators.scan
              Collaborators.getDeclaracaoParagrafo Collaborators.commentDetail
              Collaborators.elementsAsMarkdown Collaborators.split
              Collaborators.findWordStartWithinLine
              (fun _ => Resolves (str "       FROM-COPY."))
              priorStatics someInstance 0 0 localLines H)
    as (Hcalls & items & Hitems & Hcache & Hname & _).
  split; [exact Hcalls|]. split; [|exact Hname].
  unfold w, Collaborators.generate. rewrite Hcache.
  vm_compute in Hitems. inversion Hitems. reflexivity.
Defined.

(** C2, on the code.  The provider rejects the expansion of a file whose
    index from an earlier request is in the cache.  The cache and its
    name are untouched and the promise of [loadCache] is rejected, but
    the promise of [generate] was resolved by its executor, with the
    items of the cache, before the rejection arrived: the [reject] of
    the [catch] has no effect and the promise stays fulfilled.  With no
    cache at all the promise is fulfilled with the items of the local
    buffer, and the cache stays [undefined]. *)
Theorem C2_rejected_expansion_on_code :
  let w := Collaborators.generate (Resolves (str "expanded")) (fun _ => Rejects)
             priorStatics someInstance 0 0 localLines in
  let w0 := Collaborators.generate (Resolves (str "expanded")) (fun _ => Rejects)
              (mkStatics None None) someInstance 0 0 localLines in
  statics w = priorStatics
  /\ loaded w = Rejected
  /\ expansionRequests w = [str "file:///f.cbl"]
  /\ generated w = Fulfilled [priorItem]
  /\ generated w <> Rejected
  /\ statics w0 = mkStatics None None
  /\ loaded w0 = Rejected
  /\ (exists items, generated w0 = Fulfilled items
                    /\ map label items = [str "K"; str "ONLY-LOCAL"]).
Proof.
  cbv zeta.
  assert (H0 : let w0 := Collaborators.generate (Resolves (str "expanded"))
                           (fun _ => Rejects) (mkStatics None None)
                           someInstance 0 0 localLines in
               statics w0 = mkStatics None None /\ loaded w0 = Rejected
               /\ (exists items, generated w0 = Fulfilled items
                                 /\ map label items = [str "K"; str "ONLY-LOCAL"])).
  { cbv zeta. split; [reflexivity|]. split; [reflexivity|].
    eexists. split; reflexivity. }
  cbv zeta in H0. destruct H0 as (H01 & H02 & H03).
  destruct (request_expansion_rejected Collaborators.scan
              Collaborators.getDeclaracaoParagrafo Collaborators.commentDetail
              Collaborators.elementsAsMarkdown Collaborators.split
              Collaborators.findWordStartWithinLine
              (str "expanded") (fun _ => Rejects)
              priorStatics someInstance 0 0 localLines eq_refl eq_refl)
    as (Hs & Hl & Hc & Hg).
  unfold Collaborators.generate.
  split; [exact Hs|]. split; [exact Hl|]. split; [exact Hc|].
  rewrite Hg. split; [reflexivity|]. split; [discriminate|].
  split; [exact H01|]. split; [exact H02 | exact H03].
Qed.

(* ================================================================== *)
(** ** The matcher *)
(* ================================================================== *)

Module RegexFacts.

Section Matcher.
Variable R : Type.
Implicit Types (k : K R) (p : ascii -> bool).

(** A greedy run takes the longest prefix in the class when what
    follows accepts it. *)
Lemma starClass_greedy p k run : forall rest pos prev caps res,
  forallb p run = true ->
  stopsAt p rest = true ->
  (forall prev', k (length run + pos) prev' rest caps = Some res) ->
  starClass p k pos prev (run ++ rest) caps = Some res.
Proof.
  induction run as [|x run IH]; intros rest pos prev caps res Hrun Hstop Hk.
  - simpl in *.
    destruct rest as [|c rest]; simpl; [apply Hk|].
    simpl in Hstop. apply negb_true_iff in Hstop. rewrite Hstop. apply Hk.
  - simpl in Hrun. apply andb_true_iff in Hrun as [Hx Hrun].
    cbn [app starClass]. rewrite Hx.
    rewrite (IH rest (S pos) (Some x) caps res Hrun Hstop); [reflexivity|].
    intros prev'. rewrite <- (Hk prev'). f_equal. simpl. lia.
Qed.

(** A literal consumes itself. *)
Lemma matchK_Lit k l : forall rest pos prev caps,
  exists prev',
    matchK (Lit l) k pos prev (l ++ rest) caps = k (length l + pos) prev' rest caps.
Proof.
  induction l as [|a l IH]; intros rest pos prev caps.
  - exists prev. reflexivity.
  - cbn [Lit matchK app]. rewrite Ascii.eqb_refl.
    destruct (IH rest (S pos) (Some a) caps) as [prev' H].
    exists prev'. rewrite H. f_equal. simpl. lia.
Qed.

(** One or more of a class. *)
Lemma matchK_Plus_greedy p k x run rest pos prev caps res :
  p x = true -> forallb p run = true -> stopsAt p rest = true ->
  (forall prev', k (S (length run) + pos) prev' rest caps = Some res) ->
  matchK (Plus p) k pos prev (x :: run ++ rest) caps = Some res.
Proof.
  intros Hx Hrun Hstop Hk. unfold Plus. cbn [matchK]. rewrite Hx.
  apply starClass_greedy; auto.
  intros prev'. rewrite <- (Hk prev'). f_equal. lia.
Qed.

(** Soundness: a successful match consumed a string of the
    expression and handed the rest to the continuation. *)
Lemma starClass_sound p k : forall s pos prev caps res,
  starClass p k pos prev s caps = Some res ->
  exists w s' pos' prev',
    s = w ++ s' /\ forallb p w = true /\ k pos' prev' s' caps = Some res.
Proof.
  induction s as [|c s IH]; intros pos prev caps res H; simpl in H.
  - exists [], [], pos, prev. auto.
  - destruct (p c) eqn:Hc.
    + destruct (starClass p k (S pos) (Some c) s caps) as [r|] eqn:E.
      * destruct (IH _ _ _ _ E) as (w & s' & pos' & prev' & Hs & Hw & Hk).
        exists (c :: w), s', pos', prev'. simpl. rewrite Hc, Hw, Hs.
        inversion H; subst. auto.
      * exists [], (c :: s), pos, prev. auto.
    + exists [], (c :: s), pos, prev. auto.
Qed.

End Matcher.

Lemma matchK_sound (R : Type) (r : regex) : forall (k : K R) pos prev s caps res,
  matchK r k pos prev s caps = Some res ->
  exists w s' pos' prev' caps',
    s = w ++ s' /\ lang r w /\ k pos' prev' s' caps' = Some res.
Proof.
  induction r as [| |a|p|r1 IH1 r2 IH2|r1 IH1 r2 IH2|p|r1 IH1|n r1 IH1];
    intros k pos prev s caps res H; cbn [matchK] in H.
  - exists [], s, pos, prev, caps. simpl. auto.
  - exists [], s, pos, prev, caps. simpl. split; [reflexivity|]. split; [reflexivity|].
    destruct prev as [c|]; [|exact H].
    destruct (isLineTerminator c); [exact H | discriminate].
  - destruct s as [|c s]; [discriminate|].
    destruct (Ascii.eqb_spec a c) as [->|]; [|discriminate].
    exists [c], s, (S pos), (Some c), caps. simpl. auto.
  - destruct s as [|c s]; [discriminate|].
    destruct (p c) eqn:Hc; [|discriminate].
    exists [c], s, (S pos), (Some c), caps. simpl. eauto.
  - destruct (IH1 _ _ _ _ _ _ H) as (w1 & s1 & pos1 & prev1 & caps1 & Hs1 & Hw1 & Hk1).
    destruct (IH2 _ _ _ _ _ _ Hk1) as (w2 & s2 & pos2 & prev2 & caps2 & Hs2 & Hw2 & Hk2).
    exists (w1 ++ w2), s2, pos2, prev2, caps2. simpl.
    rewrite <- app_assoc, <- Hs2, <- Hs1. eauto 8.
  - destruct (matchK r1 k pos prev s caps) as [x|] eqn:E.
    + inversion H; subst x.
      destruct (IH1 _ _ _ _ _ _ E) as (w & s' & pos' & prev' & caps' & Hs & Hw & Hk).
      exists w, s', pos', prev', caps'. simpl. auto.
    + destruct (IH2 _ _ _ _ _ _ H) as (w & s' & pos' & prev' & caps' & Hs & Hw & Hk).
      exists w, s', pos', prev', caps'. simpl. auto.
  - destruct (starClass_sound R p k _ _ _ _ _ H) as (w & s' & pos' & prev' & Hs & Hw & Hk).
    exists w, s', pos', prev', caps. simpl. auto.
  - match type of H with
    | match ?m with _ => _ end = _ => destruct m as [x|] eqn:E
    end.
    + inversion H; subst x.
      destruct (IH1 _ _ _ _ _ _ E) as (w & s' & pos' & prev' & caps' & Hs & Hw & Hk).
      exists w, s', pos', prev', caps'. simpl. split; [exact Hs|]. split; [auto|].
      destruct (Nat.eqb pos' pos); [discriminate | exact Hk].
    + exists [], s, pos, prev, caps. simpl. auto.
  - destruct (IH1 _ _ _ _ _ _ H) as (w & s' & pos' & prev' & caps' & Hs & Hw & Hk).
    exists w, s', pos', prev', ((n, firstn (pos' - pos) s) :: caps'). simpl. auto.
Qed.

(** A match found by [exec] lies somewhere in the string. *)
Lemma execFrom_sound r : forall s pos prev res,
  execFrom r pos prev s = Some res ->
  exists a w b, s = a ++ w ++ b /\ lang r w.
Proof.
  induction s as [|c s IH]; intros pos prev res H; cbn [execFrom] in H.
  - destruct (matchAt r pos prev []) as [x|] eqn:E; [|discriminate].
    apply matchK_sound in E as (w & s' & _ & _ & _ & Hs & Hw & _).
    exists [], w, s'. auto.
  - destruct (matchAt r pos prev (c :: s)) as [x|] eqn:E.
    + apply matchK_sound in E as (w & s' & _ & _ & _ & Hs & Hw & _).
      exists [], w, s'. auto.
    + destruct (IH _ _ _ H) as (a & w & b & Hs & Hw).
      exists (c :: a), w, b. simpl. now rewrite Hs.
Qed.

(** A match at the first position tried is the one [exec] returns. *)
Lemma execFrom_here r pos prev s res :
  matchAt r pos prev s = Some res -> execFrom r pos prev s = Some res.
Proof. intros H. destruct s; cbn [execFrom]; now rewrite H. Qed.

End RegexFacts.

Import RegexFacts.

(* ================================================================== *)
(** ** Tag lines *)
(* ================================================================== *)

Module TagLineFacts.

Lemma takeWhile_split (A : Type) (f : A -> bool) (l : list A) :
  exists rest, l = takeWhile f l ++ rest
               /\ forallb f (takeWhile f l) = true
               /\ match rest with [] => True | x :: _ => f x = false end.
Proof.
  induction l as [|x l (rest & Hl & Hall & Hrest)]; simpl.
  - exists []. auto.
  - destruct (f x) eqn:E.
    + exists rest. simpl. rewrite E, Hall. split; [now rewrite <- Hl | auto].
    + exists (x :: l). auto.
Qed.

(** The optional group 3. *)
Lemma description_match start s pos caps :
  exists e, forall prev,
    matchK (Seqs [Opt (Grp 3 (Star dot))]) (finish start) pos prev s caps
    = Some (mkMatch start e (withDescription (takeWhile dot s) caps)).
Proof.
  destruct (takeWhile_split _ dot s) as (rest & Hs & Hall & Hrest).
  destruct (takeWhile dot s) as [|x run] eqn:Erun.
  - exists pos. intros prev. cbn [Seqs fold_right matchK].
    simpl in Hs. subst rest.
    destruct s as [|c s]; cbn [starClass].
    + now rewrite Nat.eqb_refl.
    + rewrite Hrest. now rewrite Nat.eqb_refl.
  - exists (S (length run) + pos). intros prev. cbn [Seqs fold_right matchK].
    rewrite Hs at 1.
    rewrite (starClass_greedy _ dot _ (x :: run) rest pos prev caps
               (mkMatch start (S (length run) + pos) ((3, x :: run) :: caps)));
      [reflexivity | exact Hall | | ].
    + destruct rest; [reflexivity|]. simpl. now rewrite Hrest.
    + intros prev'. cbn [length].
      replace (Nat.eqb (S (length run) + pos) pos) with false
        by (symmetry; apply Nat.eqb_neq; lia).
      unfold finish. rewrite Nat.add_sub. rewrite Hs.
      change (S (length run)) with (length (x :: run)). rewrite firstn_app.
      rewrite Nat.sub_diag, firstn_all. simpl. now rewrite app_nil_r.
Qed.

(** The optional blank and the optional group 3. *)
Lemma tail_match start tail pos caps :
  exists e, forall prev,
    matchK (Seqs [Opt (Cls isSpace); Opt (Grp 3 (Star dot))]) (finish start)
           pos prev tail caps
    = Some (mkMatch start e (withDescription (descriptionOf tail) caps)).
Proof.
  unfold descriptionOf.
  change (Seqs [Opt (Cls isSpace); Opt (Grp 3 (Star dot))])
    with (Seq (Opt (Cls isSpace)) (Seqs [Opt (Grp 3 (Star dot))])).
  destruct tail as [|c t].
  - destruct (description_match start [] pos caps) as (e & He).
    exists e. intros prev. cbn [matchK dropOneSpace]. apply He.
  - cbn [dropOneSpace]. destruct (isSpace c) eqn:Ec.
    + destruct (description_match start t (S pos) caps) as (e & He).
      exists e. intros prev. cbn [matchK]. rewrite Ec.
      replace (Nat.eqb (S pos) pos) with false
        by (symmetry; apply Nat.eqb_neq; lia).
      now rewrite He.
    + destruct (description_match start (c :: t) pos caps) as (e & He).
      exists e. intros prev. cbn [matchK]. rewrite Ec. apply He.
Qed.

(** Group 2 and what follows it. *)
Lemma name_match start n0 name tail pos caps :
  isWordOrDash n0 = true -> forallb isWordOrDash name = true ->
  stopsAt isWordOrDash tail = true ->
  exists e, forall prev,
    matchK (Seqs [Grp 2 (Plus isWordOrDash); Opt (Cls isSpace); Opt (Grp 3 (Star dot))])
           (finish start) pos prev (n0 :: name ++ tail) caps
    = Some (mkMatch start e
              (withDescription (descriptionOf tail) ((2, n0 :: name) :: caps))).
Proof.
  intros Hn0 Hname Hstop.
  destruct (tail_match start tail (S (length name) + pos) ((2, n0 :: name) :: caps))
    as (e & He).
  exists e. intros prev.
  change (Seqs [Grp 2 (Plus isWordOrDash); Opt (Cls isSpace); Opt (Grp 3 (Star dot))])
    with (Seq (Grp 2 (Plus isWordOrDash))
              (Seqs [Opt (Cls isSpace); Opt (Grp 3 (Star dot))])).
  cbn [matchK].
  apply matchK_Plus_greedy; [exact Hn0 | exact Hname | exact Hstop |].
  intros prev'. rewrite Nat.add_sub.
  change (S (length name)) with (length (n0 :: name)) at 2.
  change (n0 :: name ++ tail) with ((n0 :: name) ++ tail).
  rewrite firstn_app, Nat.sub_diag, firstn_all. cbn [firstn]. rewrite app_nil_r.
  apply He.
Qed.

(** Group 1: each of the three keywords is matched by its own branch. *)
Lemma tag_match (R : Type) (k : K R) tag rest pos prev caps res :
  In tag recordTags ->
  (forall prev', k (length tag + pos) prev' rest ((1, tag) :: caps) = Some res) ->
  matchK (Grp 1 (Alt (Lit (str "@param"))
                (Alt (Lit (str "@return")) (Lit (str "@throws")))))
         k pos prev (tag ++ rest) caps = Some res.
Proof.
  intros Htag Hk. unfold recordTags in Htag.
  destruct Htag as [<-|[<-|[<-|[]]]]; cbn -[Nat.sub firstn]; cbn in Hk.
  - replace (S (S (S (S (S (S pos))))) - pos) with 6 by lia.
    cbn [firstn]. now rewrite Hk.
  - replace (S (S (S (S (S (S (S pos)))))) - pos) with 7 by lia.
    cbn [firstn]. now rewrite Hk.
  - replace (S (S (S (S (S (S (S pos)))))) - pos) with 7 by lia.
    cbn [firstn]. now rewrite Hk.
Qed.

(** A tag line in the format of the specification: margin, marker,
    blanks, keyword, one blank, name, and what follows the name. *)
Lemma docElement_match m0 margin g0 gap tag sp n0 name tail :
  isSpace m0 = true -> forallb isSpace margin = true ->
  isSpace g0 = true -> forallb isSpace gap = true ->
  In tag recordTags -> isSpace sp = true ->
  isWordOrDash n0 = true -> forallb isWordOrDash name = true ->
  stopsAt isWordOrDash tail = true ->
  exists e,
    matchAt docElementRegex 0 None
      ((m0 :: margin) ++ str "*>" ++ (g0 :: gap) ++ tag ++ sp :: (n0 :: name) ++ tail)
    = Some (mkMatch 0 e
              (withDescription (descriptionOf tail) [(2, n0 :: name); (1, tag)])).
Proof.
  intros Hm0 Hmargin Hg0 Hgap Htag Hsp Hn0 Hname Hstop.
  destruct (name_match 0 n0 name tail
              (S (length tag + (S (length gap)
                                + (length (str "*>") + (S (length margin) + 0)))))
              [(1, tag)] Hn0 Hname Hstop) as (e & He).
  exists e. unfold matchAt, docElementRegex.
  change (Seqs (?a :: ?l)) with (Seq a (Seqs l)). cbn [matchK].
  change ((m0 :: margin) ++ ?x) with (m0 :: margin ++ x).
  apply matchK_Plus_greedy; [exact Hm0 | exact Hmargin | reflexivity |].
  intros prev1.
  change (Seqs (?a :: ?l)) with (Seq a (Seqs l)). cbn [matchK].
  match goal with
  | |- matchK (Lit ?l) ?k ?pos ?prev (?l ++ ?rest) ?caps = _ =>
      destruct (matchK_Lit _ k l rest pos prev caps) as [prev2 H2]; rewrite H2; clear H2
  end.
  change (Seqs (?a :: ?l)) with (Seq a (Seqs l)). cbn [matchK].
  change ((g0 :: gap) ++ ?x) with (g0 :: gap ++ x).
  apply matchK_Plus_greedy; [exact Hg0 | exact Hgap | |].
  { unfold recordTags in Htag. destruct Htag as [<-|[<-|[<-|[]]]]; reflexivity. }
  intros prev3.
  change (Seqs (?a :: ?l)) with (Seq a (Seqs l)). cbn [matchK].
  apply tag_match; [exact Htag|]. intros prev4.
  change (Seqs (?a :: ?l)) with (Seq a (Seqs l)). cbn [matchK]. rewrite Hsp.
  apply He.
Qed.

(** The record that [createDocElementFromLine] builds from such a line:
    the name token and the description that follows it. *)
Lemma createDocElementFromLine_record margin gap tag sp name tail :
  margin <> [] -> forallb isSpace margin = true ->
  gap <> [] -> forallb isSpace gap = true ->
  In tag recordTags -> isSpace sp = true ->
  name <> [] -> forallb isWordOrDash name = true ->
  stopsAt isWordOrDash tail = true ->
  createDocElementFromLine (margin ++ str "*>" ++ gap ++ tag ++ sp :: name ++ tail)
  = Some (mkDocElement name (descriptionOf tail)).
Proof.
  intros Hm Hmargin Hg Hgap Htag Hsp Hn Hname Hstop.
  destruct margin as [|m0 margin]; [congruence|].
  destruct gap as [|g0 gap]; [congruence|].
  destruct name as [|n0 name]; [congruence|].
  cbn [forallb] in Hmargin, Hgap, Hname.
  apply andb_true_iff in Hmargin as [Hm0 Hmargin].
  apply andb_true_iff in Hgap as [Hg0 Hgap].
  apply andb_true_iff in Hname as [Hn0 Hname].
  destruct (docElement_match m0 margin g0 gap tag sp n0 name tail
              Hm0 Hmargin Hg0 Hgap Htag Hsp Hn0 Hname Hstop) as (e & He).
  unfold createDocElementFromLine, exec.
  rewrite (execFrom_here _ _ _ _ _ He). cbn [groups].
  destruct (descriptionOf tail) as [|d ds]; reflexivity.
Qed.

(** *** Lines on which the expression finds nothing *)

Lemma lang_Lit l : forall w, lang (Lit l) w -> w = l.
Proof.
  induction l as [|a l IH]; intros w H; simpl in H.
  - exact H.
  - destruct H as (w1 & w2 & -> & -> & H2). simpl. f_equal. now apply IH.
Qed.

(** What a match of the expression of the tags looks like. *)
Lemma lang_docElementRegex w :
  lang docElementRegex w ->
  exists w1 w2 tag sp n0 more,
    w = w1 ++ str "*>" ++ w2 ++ tag ++ sp :: n0 :: more
    /\ forallb isSpace w1 = true /\ forallb isSpace w2 = true
    /\ In tag recordTags /\ isSpace sp = true /\ isWordOrDash n0 = true.
Proof.
  unfold docElementRegex. cbn [Seqs fold_right].
  intros (w1 & r1 & -> & H1 & r2 & r3 & -> & H2 & H3).
  destruct H3 as (w2 & r4 & -> & H3 & H4).
  destruct H4 as (tag & r5 & -> & H4 & H5).
  destruct H5 as (sp & r6 & -> & H5 & H6).
  destruct H6 as (name & r7 & -> & H6 & _).
  apply lang_Lit in H2. subst r2.
  destruct H1 as (a & b & -> & (c & -> & Hc) & Hb).
  destruct H3 as (a' & b' & -> & (c' & -> & Hc') & Hb').
  destruct H5 as (s0 & -> & Hs0).
  cbn [lang] in H6. destruct H6 as (a'' & b'' & -> & (n0 & -> & Hn0) & _).
  exists ([c] ++ b), ([c'] ++ b'), tag, s0, n0, (b'' ++ r7).
  cbn [lang] in Hb, Hb'.
  repeat split.
  - simpl. now rewrite Hc, Hb.
  - simpl. now rewrite Hc', Hb'.
  - cbn [lang] in H4. unfold recordTags.
    destruct H4 as [H4|[H4|H4]]; apply lang_Lit in H4; subst tag; simpl; auto.
  - exact Hs0.
  - exact Hn0.
Qed.

(** Where a code unit occurs once, the string splits around it in one
    way. *)
Lemma split_at_unique (c : ascii) : forall x y x' y',
  x ++ c :: y = x' ++ c :: y' -> ~ In c x' -> ~ In c y' -> x = x' /\ y = y'.
Proof.
  induction x as [|d x IH]; intros y x' y' H Hx' Hy'.
  - destruct x' as [|d' x']; simpl in H.
    + inversion H. auto.
    + inversion H; subst. exfalso. apply Hx'. now left.
  - destruct x' as [|d' x']; simpl in H.
    + inversion H; subst. exfalso. apply Hy'. apply in_or_app. right. now left.
    + inversion H; subst.
      destruct (IH y x' y' H2) as [-> ->]; auto.
      intros Hin. apply Hx'. now right.
Qed.

(** A run of a class followed by something outside the class is
    determined by the string. *)
Lemma span_unique (p : ascii -> bool) : forall l1 r1 l2 r2,
  l1 ++ r1 = l2 ++ r2 ->
  forallb p l1 = true -> forallb p l2 = true ->
  stopsAt p r1 = true -> stopsAt p r2 = true ->
  l1 = l2 /\ r1 = r2.
Proof.
  induction l1 as [|x l1 IH]; intros r1 l2 r2 H H1 H2 S1 S2.
  - destruct l2 as [|y l2]; simpl in H; [auto|].
    subst r1. simpl in S1, H2. apply andb_true_iff in H2 as [Hy _].
    rewrite Hy in S1. discriminate.
  - destruct l2 as [|y l2]; simpl in H.
    + subst r2. simpl in S2, H1. apply andb_true_iff in H1 as [Hx _].
      rewrite Hx in S2. discriminate.
    + inversion H; subst. simpl in H1, H2.
      apply andb_true_iff in H1 as [_ H1]. apply andb_true_iff in H2 as [_ H2].
      destruct (IH r1 l2 r2 H4 H1 H2 S1 S2) as [-> ->]. auto.
Qed.

Lemma blanks_lack (c : ascii) l :
  isSpace c = false -> forallb isSpace l = true -> ~ In c l.
Proof.
  intros Hc Hl Hin. rewrite forallb_forall in Hl. apply Hl in Hin. congruence.
Qed.

(** A tag line without a name token: after the keyword there is no
    blank followed by a code unit of a name, and no other marker. *)
Lemma exec_lacks_name margin gap tag tail :
  forallb isSpace margin = true -> forallb isSpace gap = true ->
  In tag recordTags -> ~ In "*"%char tail -> lacksName tail = true ->
  exec docElementRegex (margin ++ str "*>" ++ gap ++ tag ++ tail) = None.
Proof.
  intros Hmargin Hgap Htag Hstar Hlack.
  destruct (exec docElementRegex (margin ++ str "*>" ++ gap ++ tag ++ tail))
    as [res|] eqn:E; [exfalso|reflexivity].
  apply execFrom_sound in E as (a & w & b & Hline & Hw).
  apply lang_docElementRegex in Hw
    as (w1 & w2 & tag' & sp & n0 & more & -> & Hw1 & Hw2 & Htag' & Hsp & Hn0).
  (* the marker of the match is the marker of the line *)
  assert (Hsplit : (a ++ w1) ++ "*"%char :: (">"%char :: w2 ++ tag' ++ sp :: n0 :: more ++ b)
                   = margin ++ "*"%char :: (">"%char :: gap ++ tag ++ tail)).
  { change (margin ++ "*"%char :: ">"%char :: gap ++ tag ++ tail)
      with (margin ++ str "*>" ++ gap ++ tag ++ tail).
    rewrite Hline. rewrite <- ?app_assoc. simpl. rewrite <- ?app_assoc. reflexivity. }
  apply split_at_unique in Hsplit as [_ Hrest].
  - inversion Hrest as [Hrest']. clear Hrest.
    assert (Hspan : w2 ++ (tag' ++ sp :: n0 :: more ++ b) = gap ++ (tag ++ tail))
      by exact Hrest'.
    apply (span_unique isSpace) in Hspan as [_ Htags]; auto.
    + unfold recordTags in Htag, Htag'.
      destruct Htag as [<-|[<-|[<-|[]]]]; destruct Htag' as [<-|[<-|[<-|[]]]];
        simpl in Htags; try discriminate Htags;
        inversion Htags as [Htail]; rewrite <- Htail in Hlack;
        simpl in Hlack; rewrite Hsp, Hn0 in Hlack; discriminate Hlack.
    + unfold recordTags in Htag'. destruct Htag' as [<-|[<-|[<-|[]]]]; reflexivity.
    + unfold recordTags in Htag. destruct Htag as [<-|[<-|[<-|[]]]]; reflexivity.
  - now apply blanks_lack.
  - intros [H|H]; [discriminate H|].
    apply in_app_or in H as [H|H]; [revert H; now apply blanks_lack|].
    apply in_app_or in H as [H|H]; [|auto].
    unfold recordTags in Htag. destruct Htag as [<-|[<-|[<-|[]]]];
      simpl in H; intuition discriminate.
Qed.

Lemma createDocElementFromLine_lacks_name margin gap tag tail :
  forallb isSpace margin = true -> forallb isSpace gap = true ->
  In tag recordTags -> ~ In "*"%char tail -> lacksName tail = true ->
  createDocElementFromLine (margin ++ str "*>" ++ gap ++ tag ++ tail) = None.
Proof.
  intros. unfold createDocElementFromLine. now rewrite exec_lacks_name.
Qed.

(** A line that gives no record leaves the three lists as they are. *)
Lemma rechStep_no_record st line :
  createDocElementFromLine line = None ->
  stParams (rechStep st line) = stParams st
  /\ stReturns (rechStep st line) = stReturns st
  /\ stThrows (rechStep st line) = stThrows st.
Proof.
  intros H. unfold rechStep, commentStep, tagStep, updateDocElement. rewrite H.
  destruct (startsWith (str "*>/**") (trim line)); [simpl; auto|].
  destruct (startsWith (str "*>*/") (trim line)); [simpl; auto|].
  destruct (parsingRechDoc st); [|auto].
  destruct (includes (str "@param") line), (includes (str "@return") line),
    (includes (str "@throws") line), (matchesOtherTag line); cbn;
    repeat match goal with
           | |- context [if ?b then _ else _] => destruct b
           end; cbn; rewrite ?app_nil_r; auto.
Qed.

(** What the tag tests do to the three lists. *)
Lemma tagStep_lists st line :
  stParams (tagStep st line)
  = (if includes (str "@param") line
     then updateDocElement (stParams st) line else stParams st)
  /\ stReturns (tagStep st line)
     = (if includes (str "@return") line
        then updateDocElement (stReturns st) line else stReturns st)
  /\ stThrows (tagStep st line)
     = (if includes (str "@throws") line
        then updateDocElement (stThrows st) line else stThrows st).
Proof.
  unfold tagStep.
  destruct (includes (str "@param") line), (includes (str "@return") line),
    (includes (str "@throws") line), (matchesOtherTag line); cbn; auto.
Qed.

Lemma commentStep_lists st line :
  stParams (commentStep st line) = stParams st
  /\ stReturns (commentStep st line) = stReturns st
  /\ stThrows (commentStep st line) = stThrows st.
Proof.
  unfold commentStep. destruct (extractingComment st); [|auto].
  destruct (Nat.eqb _ 0); cbn; auto.
Qed.

Lemma trimStart_blanks w s :
  forallb isSpace w = true -> trimStart (w ++ s) = trimStart s.
Proof.
  induction w as [|c w IH]; simpl; [reflexivity|].
  intros H. apply andb_true_iff in H as [-> H]. auto.
Qed.

(** A tag line is neither an opener nor a closer: after the marker
    comes a blank. *)
Lemma tag_line_not_opener margin g0 rest :
  forallb isSpace margin = true -> isSpace g0 = true ->
  startsWith (str "*>/**") (trim (margin ++ str "*>" ++ g0 :: rest)) = false.
Proof.
  intros Hmargin Hg0.
  rewrite (startsWith_trim (str "*>/**") _ "*"%char) by reflexivity.
  rewrite trimStart_blanks by exact Hmargin.
  change (trimStart (str "*>" ++ g0 :: rest)) with ("*"%char :: ">"%char :: g0 :: rest).
  destruct (startsWith (str "*>/**") ("*"%char :: ">"%char :: g0 :: rest)) eqn:E;
    [|reflexivity].
  apply startsWith_iff in E as [r Hr]. inversion Hr; subst g0. discriminate Hg0.
Qed.

Lemma tag_line_not_closer margin g0 rest :
  forallb isSpace margin = true -> isSpace g0 = true ->
  startsWith (str "*>*/") (trim (margin ++ str "*>" ++ g0 :: rest)) = false.
Proof.
  intros Hmargin Hg0.
  rewrite (startsWith_trim (str "*>*/") _ "*"%char) by reflexivity.
  rewrite trimStart_blanks by exact Hmargin.
  change (trimStart (str "*>" ++ g0 :: rest)) with ("*"%char :: ">"%char :: g0 :: rest).
  destruct (startsWith (str "*>*/") ("*"%char :: ">"%char :: g0 :: rest)) eqn:E;
    [|reflexivity].
  apply startsWith_iff in E as [r Hr]. inversion Hr; subst g0. discriminate Hg0.
Qed.

(** Inside a block, a tag line with a name token adds its record to the
    list of its keyword. *)
Lemma rechStep_tag_record st margin gap tag sp name tail :
  parsingRechDoc st = true ->
  margin <> [] -> forallb isSpace margin = true ->
  gap <> [] -> forallb isSpace gap = true ->
  In tag recordTags -> isSpace sp = true ->
  name <> [] -> forallb isWordOrDash name = true ->
  stopsAt isWordOrDash tail = true ->
  listOfTag tag
    (rechStep st (margin ++ str "*>" ++ gap ++ tag ++ sp :: name ++ tail))
  = listOfTag tag st ++ [mkDocElement name (descriptionOf tail)].
Proof.
  intros Hp Hm Hmargin Hg Hgap Htag Hsp Hn Hname Hstop.
  pose proof (createDocElementFromLine_record margin gap tag sp name tail
                Hm Hmargin Hg Hgap Htag Hsp Hn Hname Hstop) as Hrec.
  set (line := margin ++ str "*>" ++ gap ++ tag ++ sp :: name ++ tail) in *.
  assert (Hinc : includes tag line = true).
  { apply includes_iff. exists (margin ++ str "*>" ++ gap), (sp :: name ++ tail).
    unfold line. now rewrite <- !app_assoc. }
  destruct gap as [|g0 gap]; [congruence|].
  cbn [forallb] in Hgap. apply andb_true_iff in Hgap as [Hg0 Hgap].
  assert (Ho : startsWith (str "*>/**") (trim line) = false)
    by exact (tag_line_not_opener margin g0 (gap ++ tag ++ sp :: name ++ tail)
                Hmargin Hg0).
  assert (Hcl : startsWith (str "*>*/") (trim line) = false)
    by exact (tag_line_not_closer margin g0 (gap ++ tag ++ sp :: name ++ tail)
                Hmargin Hg0).
  unfold rechStep. rewrite Ho, Hcl, Hp.
  destruct (commentStep_lists (tagStep st line) line) as (Hc1 & Hc2 & Hc3).
  destruct (tagStep_lists st line) as (Ht1 & Ht2 & Ht3).
  unfold updateDocElement in Ht1, Ht2, Ht3. rewrite Hrec in Ht1, Ht2, Ht3.
  unfold recordTags in Htag. unfold listOfTag.
  destruct Htag as [<-|[<-|[<-|[]]]]; cbn [t_eqb str list_ascii_of_string];
    cbn -[rechStep commentStep tagStep includes str line].
  - rewrite Hc1, Ht1, Hinc. reflexivity.
  - rewrite Hc2, Ht2, Hinc. reflexivity.
  - rewrite Hc3, Ht3, Hinc. reflexivity.
Qed.

Lemma space_not_word c : isSpace c = true -> isWordOrDash c = false.
Proof.
  destruct c as [[] [] [] [] [] [] [] []]; vm_compute; intros H;
    try reflexivity; discriminate H.
Qed.

Lemma takeWhile_all (A : Type) (f : A -> bool) (l : list A) :
  forallb f l = true -> takeWhile f l = l.
Proof.
  induction l as [|x l IH]; simpl; [reflexivity|].
  intros H. apply andb_true_iff in H as [-> H]. now rewrite IH.
Qed.

Lemma commentStep_parsing st line :
  parsingRechDoc (commentStep st line) = parsingRechDoc st.
Proof.
  unfold commentStep. destruct (extractingComment st); [|reflexivity].
  destruct (Nat.eqb _ 0); reflexivity.
Qed.

(** A line of a record keyword mentions a tag token. *)
Lemma recordTag_contains tag line :
  In tag recordTags -> includes tag line = true -> containsTagToken line = true.
Proof.
  intros Htag H. unfold containsTagToken, tagTokens. cbn [existsb].
  destruct Htag as [<-|[<-|[<-|[]]]]; rewrite H; rewrite ?orb_true_r; reflexivity.
Qed.

(** A line with a tag token that is neither opener nor closer and gives
    no record: inside a block it turns accumulation off and does nothing
    else; outside it does nothing. *)
Lemma rechStep_dropped_tag st line :
  isOpener line = false -> isCloser line = false ->
  containsTagToken line = true -> createDocElementFromLine line = None ->
  rechStep st line = (if parsingRechDoc st then setExtracting false st else st).
Proof.
  unfold isOpener, isCloser. rewrite containsTagToken_tests.
  intros Ho Hc Htag Hnone. unfold rechStep. rewrite Ho, Hc.
  destruct (parsingRechDoc st) eqn:Hp; [|reflexivity].
  unfold tagStep, updateDocElement. rewrite Hnone.
  destruct st as [c ps rs ts parsing extracting].
  destruct (includes (str "@param") line), (includes (str "@return") line),
    (includes (str "@throws") line), (matchesOtherTag line);
    try discriminate Htag; reflexivity.
Qed.

(** The lists and the block flag after a line depend only on the lists
    and the block flag before it. *)
Lemma rechStep_lists_congr st st' line :
  parsingRechDoc st = parsingRechDoc st' -> stParams st = stParams st' ->
  stReturns st = stReturns st' -> stThrows st = stThrows st' ->
  parsingRechDoc (rechStep st line) = parsingRechDoc (rechStep st' line)
  /\ stParams (rechStep st line) = stParams (rechStep st' line)
  /\ stReturns (rechStep st line) = stReturns (rechStep st' line)
  /\ stThrows (rechStep st line) = stThrows (rechStep st' line).
Proof.
  intros Hp H1 H2 H3. unfold rechStep.
  destruct (startsWith (str "*>/**") (trim line)); [cbn; auto|].
  destruct (startsWith (str "*>*/") (trim line)); [cbn; auto|].
  rewrite <- Hp. destruct (parsingRechDoc st) eqn:Ep; [|rewrite Ep; auto].
  destruct (commentStep_lists (tagStep st line) line) as (E1 & E2 & E3).
  destruct (commentStep_lists (tagStep st' line) line) as (E1' & E2' & E3').
  destruct (tagStep_lists st line) as (T1 & T2 & T3).
  destruct (tagStep_lists st' line) as (T1' & T2' & T3').
  rewrite !commentStep_parsing, !tagStep_parsing.
  rewrite E1, E2, E3, E1', E2', E3', T1, T2, T3, T1', T2', T3', H1, H2, H3.
  rewrite Ep. auto.
Qed.

Lemma fold_rechStep_lists_congr rest : forall st st',
  parsingRechDoc st = parsingRechDoc st' -> stParams st = stParams st' ->
  stReturns st = stReturns st' -> stThrows st = stThrows st' ->
  stParams (fold_left rechStep rest st) = stParams (fold_left rechStep rest st')
  /\ stReturns (fold_left rechStep rest st) = stReturns (fold_left rechStep rest st')
  /\ stThrows (fold_left rechStep rest st) = stThrows (fold_left rechStep rest st').
Proof.
  induction rest as [|l rest IH]; intros st st' Hp H1 H2 H3; [cbn; auto|].
  cbn [fold_left].
  destruct (rechStep_lists_congr st st' l Hp H1 H2 H3) as (Hp' & H1' & H2' & H3').
  now apply IH.
Qed.

(** Such a line can be taken out of a block without any change to the
    three lists: the records of the lines after it are all kept. *)
Lemma dropped_tag_lists line before after :
  isOpener line = false -> isCloser line = false ->
  containsTagToken line = true -> createDocElementFromLine line = None ->
  params (extractRechDoc (before ++ line :: after))
  = params (extractRechDoc (before ++ after))
  /\ returns (extractRechDoc (before ++ line :: after))
     = returns (extractRechDoc (before ++ after))
  /\ throws (extractRechDoc (before ++ line :: after))
     = throws (extractRechDoc (before ++ after)).
Proof.
  intros Ho Hc Htag Hnone. unfold extractRechDoc, docOfState.
  cbn [params returns throws]. rewrite !fold_left_app. cbn [fold_left].
  rewrite (rechStep_dropped_tag _ line Ho Hc Htag Hnone).
  set (sb := fold_left rechStep before initialRechState).
  apply fold_rechStep_lists_congr;
    destruct (parsingRechDoc sb) eqn:E; cbn; rewrite ?E; reflexivity.
Qed.

(** A line in the format of a tag line is neither opener nor closer and
    mentions its keyword. *)
Lemma tag_line_kind margin gap tag tail :
  forallb isSpace margin = true -> gap <> [] -> forallb isSpace gap = true ->
  In tag recordTags ->
  isOpener (margin ++ str "*>" ++ gap ++ tag ++ tail) = false
  /\ isCloser (margin ++ str "*>" ++ gap ++ tag ++ tail) = false
  /\ containsTagToken (margin ++ str "*>" ++ gap ++ tag ++ tail) = true.
Proof.
  intros Hmargin Hg Hgap Htag.
  destruct gap as [|g0 gap]; [congruence|].
  cbn [forallb] in Hgap. apply andb_true_iff in Hgap as [Hg0 Hgap].
  split; [|split].
  - exact (tag_line_not_opener margin g0 (gap ++ tag ++ tail) Hmargin Hg0).
  - exact (tag_line_not_closer margin g0 (gap ++ tag ++ tail) Hmargin Hg0).
  - apply (recordTag_contains tag _ Htag). apply includes_iff.
    exists (margin ++ str "*>" ++ g0 :: gap), tail.
    rewrite <- ?app_assoc. cbn [app]. rewrite <- ?app_assoc. reflexivity.
Qed.

End TagLineFacts.

Import TagLineFacts.

(** C9.  Tag lines and their records.  Take a tag line in the format of
    the specification: a margin of blanks, the marker, blanks, one of
    "@param", "@return", "@throws", one blank and a name token.
    With nothing after the name, the record appended has that name and
    an empty description.  With a blank and a text after the name, the
    record appended has that name and that text.  When what follows the
    keyword holds no name token (and no second marker), no record is
    made and the list is returned as it was.  For every line on which
    [createDocElementFromLine] finds nothing, the step of the parse
    leaves the three lists as they were; nothing is raised.  The rest of
    the block is parsed as if the line without a name were not there:
    inside a block the line turns the accumulation of the summary off,
    as every tag line does, and changes nothing else, so that the parse
    stays inside the block; and the three lists of a whole comment block
    are those of the block without that line, whatever stands before and
    after it. *)
Theorem C9_tag_records (st : RechState) (elements : list DocElement)
    (margin gap tag : JsString.t) (sp : ascii) (name : JsString.t) :
  margin <> [] -> forallb isSpace margin = true ->
  gap <> [] -> forallb isSpace gap = true ->
  In tag recordTags -> isSpace sp = true ->
  name <> [] -> forallb isWordOrDash name = true ->
  updateDocElement elements (margin ++ str "*>" ++ gap ++ tag ++ sp :: name)
  = elements ++ [mkDocElement name []]
  /\ (forall sp' description,
        isSpace sp' = true -> forallb dot description = true ->
        updateDocElement elements
          (margin ++ str "*>" ++ gap ++ tag ++ sp :: name ++ sp' :: description)
        = elements ++ [mkDocElement name description])
  /\ (forall tail,
        ~ In "*"%char tail -> lacksName tail = true ->
        createDocElementFromLine (margin ++ str "*>" ++ gap ++ tag ++ tail) = None
        /\ updateDocElement elements (margin ++ str "*>" ++ gap ++ tag ++ tail)
           = elements)
  /\ (forall line,
        createDocElementFromLine line = None ->
        updateDocElement elements line = elements
        /\ stParams (rechStep st line) = stParams st
        /\ stReturns (rechStep st line) = stReturns st
        /\ stThrows (rechStep st line) = stThrows st)
  /\ (forall tail,
        parsingRechDoc st = true -> stopsAt isWordOrDash tail = true ->
        listOfTag tag
          (rechStep st (margin ++ str "*>" ++ gap ++ tag ++ sp :: name ++ tail))
        = listOfTag tag st ++ [mkDocElement name (descriptionOf tail)])
  /\ (forall tail before after,
        ~ In "*"%char tail -> lacksName tail = true ->
        rechStep st (margin ++ str "*>" ++ gap ++ tag ++ tail)
        = (if parsingRechDoc st then setExtracting false st else st)
        /\ params (extractRechDoc
                     (before ++ (margin ++ str "*>" ++ gap ++ tag ++ tail) :: after))
           = params (extractRechDoc (before ++ after))
        /\ returns (extractRechDoc
                      (before ++ (margin ++ str "*>" ++ gap ++ tag ++ tail) :: after))
           = returns (extractRechDoc (before ++ after))
        /\ throws (extractRechDoc
                     (before ++ (margin ++ str "*>" ++ gap ++ tag ++ tail) :: after))
           = throws (extractRechDoc (before ++ after))).
Proof.
  intros Hm Hmargin Hg Hgap Htag Hsp Hn Hname.
  split; [|split; [|split; [|split; [|split]]]];
    [| | | | intros tail Hp Hstop; now apply rechStep_tag_record | ].
  5:{ intros tail before after Hstar Hlack.
      pose proof (createDocElementFromLine_lacks_name margin gap tag tail
                    Hmargin Hgap Htag Hstar Hlack) as Hnone.
      destruct (tag_line_kind margin gap tag tail Hmargin Hg Hgap Htag)
        as (Ho & Hc & Ht).
      split; [now apply rechStep_dropped_tag|].
      now apply dropped_tag_lists. }
  all: repeat split.
  - unfold updateDocElement.
    rewrite <- (app_nil_r name) at 1.
    rewrite (createDocElementFromLine_record margin gap tag sp name []); auto.
  - intros sp' description Hsp' Hdesc. unfold updateDocElement.
    rewrite (createDocElementFromLine_record margin gap tag sp name (sp' :: description));
      auto.
    + unfold descriptionOf. cbn [dropOneSpace]. rewrite Hsp'.
      now rewrite takeWhile_all.
    + simpl. now rewrite space_not_word.
  - now apply createDocElementFromLine_lacks_name.
  - unfold updateDocElement.
    now rewrite createDocElementFromLine_lacks_name.
  - unfold updateDocElement. now rewrite H.
  - now apply rechStep_no_record.
  - now apply rechStep_no_record.
  - now apply rechStep_no_record.
Qed.

Lemma C9_tag_records_witness :
  let st := fold_left rechStep [str "      *>/**"; str "      *> Opens the file"]
                      initialRechState in
  updateDocElement [] (str "      *> @param file-name")
  = [mkDocElement (str "file-name") []]
  /\ updateDocElement [] (str "      *> @param file-name the file to open")
     = [mkDocElement (str "file-name") (str "the file to open")]
  /\ createDocElementFromLine (str "      *> @param") = None
  /\ createDocElementFromLine (str "      *> @param  file-name") = None
  /\ stParams (rechStep st (str "      *> @param")) = []
  /\ stParams (rechStep st (str "      *> @param file-name the file to open"))
     = [mkDocElement (str "file-name") (str "the file to open")]
  /\ rechStep st (str "      *> @param") = setExtracting false st
  /\ throws (extractRechDoc
               ([str "      *>/**"; str "      *> Opens the file"]
                ++ str "      *> @param"
                   :: [str "      *> @throws io-error on failure"; str "      *>*/"]))
     = [mkDocElement (str "io-error") (str "on failure")].
Proof.
  intros st.
  assert (Hm : str "      " <> []) by discriminate.
  assert (Hg : str " " <> []) by discriminate.
  assert (Hn : str "file-name" <> []) by discriminate.
  assert (Htag : In (str "@param") recordTags) by (left; reflexivity).
  destruct (C9_tag_records st [] (str "      ") (str " ") (str "@param") " "%char
              (str "file-name") Hm eq_refl Hg eq_refl Htag eq_refl Hn eq_refl)
    as (H1 & H2 & H3 & H4 & H5 & H6).
  split; [exact H1|].
  split; [exact (H2 " "%char (str "the file to open") eq_refl eq_refl)|].
  assert (Hnone : createDocElementFromLine (str "      *> @param") = None).
  { apply (H3 []); [intros [] | reflexivity]. }
  split; [exact Hnone|].
  split.
  { apply (H3 (str "  file-name")); [|reflexivity].
    cbv. intuition discriminate. }
  split.
  { destruct (H4 _ Hnone) as (_ & Hp & _). rewrite Hp. reflexivity. }
  split; [exact (H5 (str " the file to open") eq_refl eq_refl)|].
  assert (Hstar : ~ In "*"%char []) by (intros []).
  destruct (H6 [] [str "      *>/**"; str "      *> Opens the file"]
              [str "      *> @throws io-error on failure"; str "      *>*/"]
              Hstar eq_refl) as (Hstep & _ & _ & Hthrows).
  split; [exact Hstep|].
  exact (eq_trans Hthrows eq_refl).
Defined.

(* ================================================================== *)
(** ** The modelled scanner stays inside the buffer *)
(* ================================================================== *)

Module CollaboratorsFacts.

Lemma splitLines_no_lf : forall l current,
  ~ In lineFeed l -> Collaborators.splitLines current l = [rev current ++ l].
Proof.
  induction l as [|c l IH]; intros current H; cbn [Collaborators.splitLines].
  - now rewrite app_nil_r.
  - destruct (Ascii.eqb_spec c lineFeed) as [->|_].
    + exfalso. apply H. now left.
    + rewrite IH by (intros Hin; apply H; now right).
      simpl. now rewrite <- app_assoc.
Qed.

Lemma splitLines_app : forall l current rest,
  ~ In lineFeed l ->
  Collaborators.splitLines current (l ++ lineFeed :: rest)
  = (rev current ++ l) :: Collaborators.splitLines [] rest.
Proof.
  induction l as [|c l IH]; intros current rest H; cbn [app Collaborators.splitLines].
  - rewrite Ascii.eqb_refl. now rewrite app_nil_r.
  - destruct (Ascii.eqb_spec c lineFeed) as [->|_].
    + exfalso. apply H. now left.
    + rewrite IH by (intros Hin; apply H; now right).
      simpl. now rewrite <- app_assoc.
Qed.

(** Splitting the joined lines gives the lines back. *)
Lemma split_join lines :
  lines <> [] -> Forall (fun l => ~ In lineFeed l) lines ->
  Collaborators.split (join newline lines) = lines.
Proof.
  unfold Collaborators.split. induction lines as [|x rest IH]; intros Hne Hall.
  - congruence.
  - inversion Hall as [|? ? Hx Hrest]; subst.
    destruct rest as [|y rest].
    + simpl join. now rewrite splitLines_no_lf.
    + rewrite join_cons. change (newline ++ ?z) with (lineFeed :: z).
      rewrite splitLines_app by exact Hx. simpl rev. simpl app at 1.
      f_equal. apply IH; [discriminate | exact Hrest].
Qed.

Lemma scanLines_rows r : forall lines n,
  Forall (fun iterator => (row iterator < Z.of_nat (n + length lines))%Z)
         (Collaborators.scanLines r n lines).
Proof.
  induction lines as [|l lines IH]; intros n; cbn [Collaborators.scanLines].
  - constructor.
  - assert (H : Forall (fun iterator =>
                          (row iterator < Z.of_nat (n + length (l :: lines)))%Z)
                       (Collaborators.scanLines r (S n) lines)).
    { eapply Forall_impl; [|apply IH]. simpl. intros it Hit. lia. }
    destruct (matchAt r 0 None l); [|exact H].
    constructor; [simpl; lia | exact H].
Qed.

(** On a buffer whose lines hold no line feed, every row of the modelled
    scan is a line of the buffer. *)
Lemma scan_rowsInRange lines :
  Forall (fun l => ~ In lineFeed l) lines -> rowsInRange Collaborators.scan lines.
Proof.
  intros Hall. unfold rowsInRange, Collaborators.scan.
  destruct lines as [|x rest].
  - vm_compute. constructor.
  - rewrite split_join by (discriminate || exact Hall).
    eapply Forall_impl; [|apply scanLines_rows]. simpl. intros it Hit. lia.
Qed.

End CollaboratorsFacts.

(* ================================================================== *)
(** ** More on the index *)
(* ================================================================== *)

Module MoreMapFacts.

Section Facts.
Variable V : Type.
Implicit Types (m : JsMap.t V) (k : JsString.t) (v : V).

Lemma set_Forall (P : JsString.t * V -> Prop) k v m :
  Forall P m -> P (k, v) -> Forall P (JsMap.set k v m).
Proof.
  intros Hm Hkv. induction m as [|[k' v'] m IH]; simpl.
  - constructor; [exact Hkv | constructor].
  - inversion Hm as [|? ? Hhead Htail]; subst.
    destruct (t_eqb k' k) eqn:E.
    + apply t_eqb_eq in E. subst k'. constructor; assumption.
    + constructor; [exact Hhead | now apply IH].
Qed.

Lemma has_in k v m : In (k, v) m -> JsMap.has k m = true.
Proof.
  unfold JsMap.has. induction m as [|[k' v'] m IH]; simpl; [tauto|].
  intros [H|H].
  - inversion H; subst. now rewrite t_eqb_refl.
  - destruct (t_eqb k' k); [reflexivity | now apply IH].
Qed.

End Facts.

End MoreMapFacts.

Import MoreMapFacts.

Section MoreIndexFacts.

Variable scan : JsString.t -> regex -> list ScanIterator.
Variable getDeclaracaoParagrafo : JsString.t -> option JsString.t.
Variable commentDetail : CobolDoc -> JsString.t.
Variable elementsAsMarkdown : CobolDoc -> JsString.t.

Local Abbreviation callback := (scanCallback getDeclaracaoParagrafo commentDetail elementsAsMarkdown).
Local Abbreviation forEach := (forEachIterator getDeclaracaoParagrafo commentDetail elementsAsMarkdown).
Local Abbreviation scanOnly :=
  (generateWithoutCache scan getDeclaracaoParagrafo commentDetail elementsAsMarkdown).
Local Abbreviation buildIndex :=
  (generateParagraphCompletion scan getDeclaracaoParagrafo commentDetail elementsAsMarkdown).

(** Whatever the rows are, a callback that returns keeps the entries
    well built and the keys distinct. *)
Lemma scanCallback_keeps this lines items iterator items' :
  callback this lines items iterator = Ok items' ->
  (Forall (builtBy this) items -> Forall (builtBy this) items')
  /\ (NoDup (JsMap.keys items) -> NoDup (JsMap.keys items')).
Proof.
  unfold scanCallback.
  destruct (getElementDocumentation lines (row iterator)) as [doc|]; [|discriminate].
  cbn [bind].
  destruct (truthy (getDeclaracaoParagrafo (lineContent iterator)));
    intros H; inversion H; subst; clear H.
  - split.
    + intros Hall. apply set_Forall; [exact Hall|]. repeat split.
    + apply NoDup_keys_set.
  - auto.
Qed.

Lemma forEachIterator_keeps this lines : forall occurrences items items',
  forEach this lines occurrences items = Ok items' ->
  (Forall (builtBy this) items -> Forall (builtBy this) items')
  /\ (NoDup (JsMap.keys items) -> NoDup (JsMap.keys items')).
Proof.
  induction occurrences as [|it rest IH]; intros items items' H; cbn [forEachIterator] in H.
  - inversion H; subst. auto.
  - destruct (callback this lines items it) as [items1|] eqn:E; [|discriminate].
    cbn [bind] in H.
    destruct (scanCallback_keeps _ _ _ _ _ E) as [H1 H2].
    destruct (IH _ _ H) as [H3 H4]. auto.
Qed.

Lemma merge_keeps this : forall (localItems items : JsMap.t CompletionItem),
  Forall (builtBy this) localItems -> Forall (builtBy this) items ->
  Forall (builtBy this) (fold_left mergeEntry localItems items).
Proof.
  induction localItems as [|[k v] rest IH]; intros items HL HE; [exact HE|].
  inversion HL as [|? ? Hkv Hrest]; subst.
  cbn [fold_left mergeEntry]. apply IH; [exact Hrest|].
  destruct (negb (JsMap.has k items)); [|exact HE].
  now apply set_Forall.
Qed.

(** Entries whose keys are all present already are all skipped. *)
Lemma merge_present : forall (localItems items : JsMap.t CompletionItem),
  (forall entry, In entry localItems -> JsMap.has (fst entry) items = true) ->
  fold_left mergeEntry localItems items = items.
Proof.
  induction localItems as [|[k v] rest IH]; intros items H; [reflexivity|].
  cbn [fold_left mergeEntry].
  pose proof (H (k, v) (or_introl eq_refl)) as Hk. cbn [fst] in Hk.
  rewrite Hk. cbn [negb].
  apply IH. intros entry Hin. apply H. now right.
Qed.

(** The keys after the merge: those of the first index, then the keys
    that only the second has, in its order. *)
Lemma merge_keys : forall (localItems items : JsMap.t CompletionItem),
  JsMap.keys (fold_left mergeEntry localItems items)
  = fold_left addKey (JsMap.keys localItems) (JsMap.keys items).
Proof.
  induction localItems as [|[k v] rest IH]; intros items; [reflexivity|].
  cbn [fold_left mergeEntry]. rewrite IH.
  change (JsMap.keys ((k, v) :: rest)) with (k :: JsMap.keys rest).
  cbn [fold_left]. f_equal.
  unfold addKey. rewrite <- has_existsb.
  destruct (JsMap.has k items) eqn:E; cbn [negb].
  - reflexivity.
  - rewrite keys_set. now rewrite E.
Qed.

Lemma addKey_filter : forall (l base extra : list JsString.t),
  NoDup l -> (forall k, In k l -> ~ In k extra) ->
  fold_left addKey l (base ++ extra)
  = base ++ extra ++ filter (fun k => negb (hasKey base k)) l.
Proof.
  induction l as [|k l IH]; intros base extra Hnd Hextra.
  - simpl. now rewrite app_nil_r.
  - inversion Hnd as [|? ? Hk Hl]; subst. cbn [fold_left filter].
    unfold addKey at 2. rewrite existsb_app.
    assert (Hex : existsb (fun k0 => t_eqb k0 k) extra = false).
    { apply not_true_is_false. intros H. apply existsb_exists in H as (x & Hx & Hxk).
      apply t_eqb_eq in Hxk. subst x. apply (Hextra k); [now left | exact Hx]. }
    rewrite Hex, orb_false_r. fold (hasKey base k).
    destruct (hasKey base k) eqn:Eb; cbn [negb].
    + apply IH; [exact Hl|]. intros k' Hk'. apply Hextra. now right.
    + rewrite <- app_assoc.
      rewrite (IH base (extra ++ [k]) Hl).
      * now rewrite <- app_assoc.
      * intros k' Hk' Hin. apply in_app_or in Hin as [Hin|[Hin|[]]].
        -- apply (Hextra k'); [now right | exact Hin].
        -- subst k'. contradiction.
Qed.

Lemma index_keys_distinct this lines items :
  buildIndex this lines false = Ok items -> NoDup (JsMap.keys items).
Proof.
  unfold generateParagraphCompletion, generateWithoutCache. intros H.
  destruct (forEach this lines (scan (join newline lines) paragraphRegex)
                    (JsMap.empty _)) as [E|] eqn:HE; [|discriminate].
  cbn [bind] in H. inversion H; subst.
  destruct (forEachIterator_keeps _ _ _ _ _ HE) as [_ Hnd].
  apply Hnd. constructor.
Qed.

(** Both modes of [generateParagraphCompletion] keep the entries well
    built and the keys distinct. *)
Lemma buildIndex_keeps this lines useCache items :
  buildIndex this lines useCache = Ok items ->
  Forall (builtBy this) items /\ NoDup (JsMap.keys items).
Proof.
  unfold generateParagraphCompletion, generateWithoutCache. intros H.
  destruct (forEachIterator getDeclaracaoParagrafo commentDetail elementsAsMarkdown
              this lines (scan (join newline lines) paragraphRegex) (JsMap.empty _))
    as [E|] eqn:HE; [|discriminate].
  cbn [bind] in H.
  destruct (forEachIterator_keeps _ _ _ _ _ HE) as [HE1 HE2].
  specialize (HE1 (Forall_nil _)). specialize (HE2 (NoDup_nil _)).
  destruct useCache.
  - destruct (currentLines this) as [local|]; [|discriminate].
    destruct (forEachIterator getDeclaracaoParagrafo commentDetail elementsAsMarkdown
                this local (scan (join newline local) paragraphRegex) (JsMap.empty _))
      as [L|] eqn:HL; [|discriminate].
    cbn [bind] in H. inversion H; subst.
    destruct (forEachIterator_keeps _ _ _ _ _ HL) as [HL1 _].
    split.
    + apply merge_keeps; [apply HL1; constructor | exact HE1].
    + now apply merge_NoDup.
  - inversion H; subst. auto.
Qed.

End MoreIndexFacts.

(** X1.  Every entry of an index that [generateParagraphCompletion]
    returns, with or without the merge, has its key as label and as the
    text to insert, and an edit at the line and column of the instance
    that built it; no key occurs twice. *)
Theorem index_entries_well_built
    (scan : JsString.t -> regex -> list ScanIterator)
    (getDeclaracaoParagrafo : JsString.t -> option JsString.t)
    (commentDetail elementsAsMarkdown : CobolDoc -> JsString.t)
    (this : Instance) (lines : list JsString.t) (useCache : bool)
    (items : JsMap.t CompletionItem) :
  generateParagraphCompletion scan getDeclaracaoParagrafo commentDetail
                              elementsAsMarkdown this lines useCache = Ok items ->
  Forall (builtBy this) items /\ NoDup (JsMap.keys items).
Proof.
  apply buildIndex_keeps.
Qed.

Lemma index_entries_well_built_witness :
  let this := mkInstance (str "f.cache") (str "file:///f.cbl") (Some localLines) 7 11 in
  exists items,
    Collaborators.generateParagraphCompletion this expandedLines true = Ok items
    /\ Forall (builtBy this) items
    /\ NoDup (JsMap.keys items).
Proof.
  intros this.
  destruct (Collaborators.generateParagraphCompletion this expandedLines true)
    as [items|] eqn:H; [|discriminate H].
  exists items. split; [reflexivity|].
  exact (index_entries_well_built Collaborators.scan
           Collaborators.getDeclaracaoParagrafo Collaborators.commentDetail
           Collaborators.elementsAsMarkdown this expandedLines true items H).
Defined.

(** X2.  When the buffer handed to [generateParagraphCompletion] is the
    buffer of the instance, the merge adds nothing: with [useCache] the
    result is the one without it (also when the scan raises). *)
Theorem merge_of_same_buffer
    (scan : JsString.t -> regex -> list ScanIterator)
    (getDeclaracaoParagrafo : JsString.t -> option JsString.t)
    (commentDetail elementsAsMarkdown : CobolDoc -> JsString.t)
    (this : Instance) (lines : list JsString.t) :
  currentLines this = Some lines ->
  generateParagraphCompletion scan getDeclaracaoParagrafo commentDetail
                              elementsAsMarkdown this lines true
  = generateParagraphCompletion scan getDeclaracaoParagrafo commentDetail
                                elementsAsMarkdown this lines false.
Proof.
  intros Hcur. unfold generateParagraphCompletion. rewrite Hcur.
  destruct (generateWithoutCache scan getDeclaracaoParagrafo commentDetail
              elementsAsMarkdown this lines) as [items|]; [|reflexivity].
  cbn [bind]. f_equal. apply merge_present.
  intros [k v] Hin. cbn [fst]. now apply (has_in _ k v).
Qed.

Lemma merge_of_same_buffer_witness :
  let this := mkInstance (str "f.cache") (str "file:///f.cbl") (Some localLines) 0 0 in
  Collaborators.generateParagraphCompletion this localLines true
  = Collaborators.generateParagraphCompletion this localLines false.
Proof.
  intros this.
  exact (merge_of_same_buffer Collaborators.scan
           Collaborators.getDeclaracaoParagrafo Collaborators.commentDetail
           Collaborators.elementsAsMarkdown this localLines eq_refl).
Defined.

(** X3.  The order of a merged index: the keys of the index of the
    expanded source come first, in their order, and the keys that only
    the local index has follow, in the order of the local index. *)
Theorem merged_key_order
    (scan : JsString.t -> regex -> list ScanIterator)
    (getDeclaracaoParagrafo : JsString.t -> option JsString.t)
    (commentDetail elementsAsMarkdown : CobolDoc -> JsString.t)
    (this : Instance) (expanded local : list JsString.t)
    (E L : JsMap.t CompletionItem) :
  currentLines this = Some local ->
  generateParagraphCompletion scan getDeclaracaoParagrafo commentDetail
                              elementsAsMarkdown this expanded false = Ok E ->
  generateParagraphCompletion scan getDeclaracaoParagrafo commentDetail
                              elementsAsMarkdown this local false = Ok L ->
  exists merged,
    generateParagraphCompletion scan getDeclaracaoParagrafo commentDetail
                                elementsAsMarkdown this expanded true = Ok merged
    /\ JsMap.keys merged
       = JsMap.keys E
         ++ filter (fun key => negb (hasKey (JsMap.keys E) key)) (JsMap.keys L).
Proof.
  intros Hlocal HE HL.
  pose proof (index_keys_distinct scan getDeclaracaoParagrafo commentDetail
                elementsAsMarkdown this local L HL) as HndL.
  unfold generateParagraphCompletion in *.
  destruct (generateWithoutCache scan getDeclaracaoParagrafo commentDetail
              elementsAsMarkdown this expanded) as [E'|] eqn:E1; [|discriminate].
  destruct (generateWithoutCache scan getDeclaracaoParagrafo commentDetail
              elementsAsMarkdown this local) as [L'|] eqn:E2; [|discriminate].
  cbn [bind] in *. inversion HE; inversion HL; subst E' L'.
  rewrite Hlocal, E2. cbn [bind].
  exists (fold_left mergeEntry L E). split; [reflexivity|].
  rewrite merge_keys.
  rewrite <- (app_nil_r (JsMap.keys E)) at 1.
  rewrite (addKey_filter (JsMap.keys L) (JsMap.keys E) [] HndL); [reflexivity|].
  intros k _ [].
Qed.

Lemma merged_key_order_witness :
  let this := mkInstance (str "f.cache") (str "file:///f.cbl") (Some localLines) 0 0 in
  exists E L merged,
    Collaborators.generateParagraphCompletion this expandedLines false = Ok E
    /\ Collaborators.generateParagraphCompletion this localLines false = Ok L
    /\ Collaborators.generateParagraphCompletion this expandedLines true = Ok merged
    /\ JsMap.keys merged
       = JsMap.keys E
         ++ filter (fun key => negb (hasKey (JsMap.keys E) key)) (JsMap.keys L).
Proof.
  intros this.
  destruct (Collaborators.generateParagraphCompletion this expandedLines false)
    as [E|] eqn:HE; [|discriminate HE].
  destruct (Collaborators.generateParagraphCompletion this localLines false)
    as [L|] eqn:HL; [|discriminate HL].
  destruct (merged_key_order Collaborators.scan
              Collaborators.getDeclaracaoParagrafo Collaborators.commentDetail
              Collaborators.elementsAsMarkdown this expandedLines localLines E L
              eq_refl HE HL) as (merged & Hm & Hk).
  exists E, L, merged. repeat split; assumption.
Defined.

(* ================================================================== *)
(** ** More on requests and the cache *)
(* ================================================================== *)

Section MoreRequestFacts.

Variable scan : JsString.t -> regex -> list ScanIterator.
Variable getDeclaracaoParagrafo : JsString.t -> option JsString.t.
Variable commentDetail : CobolDoc -> JsString.t.
Variable elementsAsMarkdown : CobolDoc -> JsString.t.
Variable split : JsString.t -> list JsString.t.
Variable findWordStartWithinLine : Z -> option JsString.t -> Z.

Local Abbreviation buildIndex :=
  (generateParagraphCompletion scan getDeclaracaoParagrafo commentDetail elementsAsMarkdown).
Local Abbreviation executor :=
  (generateExecutor scan getDeclaracaoParagrafo commentDetail elementsAsMarkdown
                    findWordStartWithinLine).
Local Abbreviation generate' :=
  (generate scan getDeclaracaoParagrafo commentDetail elementsAsMarkdown
            split findWordStartWithinLine).
Local Abbreviation assigned' := (assigned findWordStartWithinLine).

Lemma executor_this s this0 line column lines :
  this_ (executor s this0 line column lines) = assigned' this0 line column lines.
Proof. reflexivity. Qed.

(** No callback of [loadCache] changes the promise of [generate]. *)
Lemma generated_frame mode expansion s this0 line column lines :
  generated (generate' mode expansion s this0 line column lines)
  = generated (executor s this0 line column lines).
Proof.
  pose proof (executor_settles scan getDeclaracaoParagrafo commentDetail
                elementsAsMarkdown findWordStartWithinLine s this0 line column lines)
    as Hset.
  unfold generate. destruct mode as [source| |]; [|reflexivity|reflexivity].
  unfold loadCacheThen.
  destruct (t_eqb source (str "local")) eqn:Esrc.
  - destruct (currentLines (this_ (executor s this0 line column lines)));
      [|reflexivity].
    match goal with
    | |- generated (match ?x with _ => _ end) = _ => destruct x; reflexivity
    end.
  - cbn [this_ uri].
    destruct (expansion (uri (this_ (executor s this0 line column lines))))
      as [buffer| |]; [| |reflexivity].
    + unfold loadCacheExpanded. cbn [this_ generated].
      match goal with
      | |- generated (match ?x with _ => _ end) = _ => destruct x
      end; cbn [generated]; [reflexivity|].
      now apply rejectP_settled.
    + unfold loadCacheCatch. cbn [generated]. now apply rejectP_settled.
Qed.

(** What the executor resolves with on a hit and on a miss. *)
Lemma executor_hit s this0 line column lines c :
  cache s = Some c -> cacheSourceFileName s = Some (cacheFileName this0) ->
  generated (executor s this0 line column lines) = Fulfilled (JsMap.values c).
Proof.
  intros Hc Hn. unfold generateExecutor, cacheIsCurrent.
  cbn [cacheFileName generated]. rewrite Hc, Hn, t_eqb_refl. reflexivity.
Qed.

Lemma executor_miss s this0 line column lines index :
  cacheIsCurrent s (assigned' this0 line column lines) = false ->
  buildIndex (assigned' this0 line column lines) lines false = Ok index ->
  generated (executor s this0 line column lines) = Fulfilled (JsMap.values index).
Proof.
  intros Hmiss Hindex. unfold generateExecutor. cbn [generated currentLines].
  unfold assigned in Hmiss, Hindex. rewrite Hmiss, Hindex. reflexivity.
Qed.

(** The state that a request in local mode leaves. *)
Lemma local_mode_statics expansion s this0 line column lines index :
  buildIndex (assigned' this0 line column lines) lines false = Ok index ->
  statics (generate' (Resolves (str "local")) expansion s this0 line column lines)
  = mkStatics (Some index) (Some (cacheFileName this0)).
Proof.
  intros Hindex. unfold generate, loadCacheThen.
  cbn [t_eqb str list_ascii_of_string Ascii.eqb Bool.eqb andb].
  cbn [this_ currentLines generateExecutor].
  unfold assigned in Hindex. rewrite Hindex. reflexivity.
Qed.

Lemma cache_hit_serves_cache_general mode expansion s this0 line column lines c :
  cache s = Some c -> cacheSourceFileName s = Some (cacheFileName this0) ->
  generated (generate' mode expansion s this0 line column lines)
  = Fulfilled (JsMap.values c).
Proof. intros Hc Hn. rewrite generated_frame. now apply executor_hit. Qed.

End MoreRequestFacts.

(** X4.  The promise that [generate] returns is settled by its executor
    alone: whatever [sourceOfCompletions] and the expanded source do
    afterwards, its final state is the one the executor left, and that
    state is never pending.  In particular an index that arrives from
    the expansion during a request is not in the answer of that
    request. *)
Theorem generate_settled_by_executor
    (scan : JsString.t -> regex -> list ScanIterator)
    (getDeclaracaoParagrafo : JsString.t -> option JsString.t)
    (commentDetail elementsAsMarkdown : CobolDoc -> JsString.t)
    (split : JsString.t -> list JsString.t)
    (findWordStartWithinLine : Z -> option JsString.t -> Z)
    (mode : settlement JsString.t)
    (expansion : JsString.t -> settlement JsString.t)
    (s : Statics) (this0 : Instance) (line column : Z) (lines : list JsString.t) :
  generated (generate scan getDeclaracaoParagrafo commentDetail elementsAsMarkdown
                      split findWordStartWithinLine
                      mode expansion s this0 line column lines)
  = generated (generateExecutor scan getDeclaracaoParagrafo commentDetail
                                elementsAsMarkdown findWordStartWithinLine
                                s this0 line column lines)
  /\ generated (generate scan getDeclaracaoParagrafo commentDetail elementsAsMarkdown
                         split findWordStartWithinLine
                         mode expansion s this0 line column lines)
     <> Pending.
Proof.
  split.
  - apply generated_frame.
  - rewrite generated_frame. apply executor_settles.
Qed.

(** X5.  A cache hit: when the cache holds an index and is named after
    the cache file of the request, [generate] answers with the values of
    that index, in the order of the index, whatever lines, line and
    column the request carries and whatever the external promises do. *)
Theorem cache_hit_serves_cache
    (scan : JsString.t -> regex -> list ScanIterator)
    (getDeclaracaoParagrafo : JsString.t -> option JsString.t)
    (commentDetail elementsAsMarkdown : CobolDoc -> JsString.t)
    (split : JsString.t -> list JsString.t)
    (findWordStartWithinLine : Z -> option JsString.t -> Z)
    (mode : settlement JsString.t)
    (expansion : JsString.t -> settlement JsString.t)
    (s : Statics) (this0 : Instance) (line column : Z) (lines : list JsString.t)
    (c : JsMap.t CompletionItem) :
  cache s = Some c ->
  cacheSourceFileName s = Some (cacheFileName this0) ->
  generated (generate scan getDeclaracaoParagrafo commentDetail elementsAsMarkdown
                      split findWordStartWithinLine
                      mode expansion s this0 line column lines)
  = Fulfilled (JsMap.values c).
Proof.
  intros Hc Hn. rewrite generated_frame. now apply executor_hit.
Qed.

Lemma cache_hit_serves_cache_witness :
  generated (Collaborators.generate (Resolves (str "expanded"))
               (fun _ => Resolves (str "       FROM-COPY."))
               priorStatics someInstance 3 9 localLines)
  = Fulfilled [priorItem].
Proof.
  exact (cache_hit_serves_cache Collaborators.scan
           Collaborators.getDeclaracaoParagrafo Collaborators.commentDetail
           Collaborators.elementsAsMarkdown Collaborators.split
           Collaborators.findWordStartWithinLine
           (Resolves (str "expanded")) (fun _ => Resolves (str "       FROM-COPY."))
           priorStatics someInstance 3 9 localLines
           [(str "OLD", priorItem)] eq_refl eq_refl).
Defined.

(** X6.  A cache miss: when there is no cache, or the cache is named
    after another file, [generate] answers with the values of the index
    of the lines of the request, built at the line and column of the
    request; the index of the other file is not served. *)
Theorem cache_miss_serves_local
    (scan : JsString.t -> regex -> list ScanIterator)
    (getDeclaracaoParagrafo : JsString.t -> option JsString.t)
    (commentDetail elementsAsMarkdown : CobolDoc -> JsString.t)
    (split : JsString.t -> list JsString.t)
    (findWordStartWithinLine : Z -> option JsString.t -> Z)
    (mode : settlement JsString.t)
    (expansion : JsString.t -> settlement JsString.t)
    (s : Statics) (this0 : Instance) (line column : Z) (lines : list JsString.t) :
  cache s = None \/ cacheSourceFileName s <> Some (cacheFileName this0) ->
  rowsInRange scan lines ->
  exists index,
    generateParagraphCompletion scan getDeclaracaoParagrafo commentDetail
      elementsAsMarkdown (assigned findWordStartWithinLine this0 line column lines)
      lines false = Ok index
    /\ generated (generate scan getDeclaracaoParagrafo commentDetail
                           elementsAsMarkdown split findWordStartWithinLine
                           mode expansion s this0 line column lines)
       = Fulfilled (JsMap.values index).
Proof.
  intros Hmiss Hrows.
  destruct (generate_without_cache_total scan getDeclaracaoParagrafo commentDetail
              elementsAsMarkdown
              (assigned findWordStartWithinLine this0 line column lines) lines Hrows)
    as (index & Hindex).
  exists index. split; [exact Hindex|].
  rewrite generated_frame. apply executor_miss; [|exact Hindex].
  unfold cacheIsCurrent, assigned. cbn [cacheFileName].
  destruct Hmiss as [Hc|Hn].
  - now rewrite Hc.
  - destruct (cache s); [|reflexivity].
    destruct (cacheSourceFileName s) as [name|]; [|reflexivity].
    apply t_eqb_neq. congruence.
Qed.

Lemma cache_miss_serves_local_witness :
  let this := mkInstance (str "other.cache") (str "file:///other.cbl") None 0 0 in
  exists items,
    generated (Collaborators.generate (Resolves (str "expanded")) (fun _ => Rejects)
                 priorStatics this 2 8 localLines)
    = Fulfilled items
    /\ map label items = [str "K"; str "ONLY-LOCAL"]
    /\ map rangeLine items = [2%Z; 2%Z].
Proof.
  intros this.
  assert (Hrows : rowsInRange Collaborators.scan localLines).
  { unfold rowsInRange. vm_compute. repeat constructor; discriminate. }
  assert (Hmiss : cache priorStatics = None
                  \/ cacheSourceFileName priorStatics <> Some (cacheFileName this)).
  { right. intros H. discriminate H. }
  destruct (cache_miss_serves_local Collaborators.scan
              Collaborators.getDeclaracaoParagrafo Collaborators.commentDetail
              Collaborators.elementsAsMarkdown Collaborators.split
              Collaborators.findWordStartWithinLine
              (Resolves (str "expanded")) (fun _ => Rejects)
              priorStatics this 2 8 localLines Hmiss Hrows)
    as (index & Hindex & Hgen).
  exists (JsMap.values index). split; [exact Hgen|].
  vm_compute in Hindex. inversion Hindex. split; reflexivity.
Defined.

(** X7.  A successful expansion: when [sourceOfCompletions] resolves to
    anything but "local" and the provider resolves, the provider was
    called once, with the uri of the request; the cache is named after
    the cache file of the request and holds the index of the expanded
    lines merged with the index of the lines of the request; the promise
    of [loadCache] is fulfilled. *)
Theorem expansion_success_fills_cache
    (scan : JsString.t -> regex -> list ScanIterator)
    (getDeclaracaoParagrafo : JsString.t -> option JsString.t)
    (commentDetail elementsAsMarkdown : CobolDoc -> JsString.t)
    (split : JsString.t -> list JsString.t)
    (findWordStartWithinLine : Z -> option JsString.t -> Z)
    (source buffer : JsString.t)
    (expansion : JsString.t -> settlement JsString.t)
    (s : Statics) (this0 : Instance) (line column : Z) (lines : list JsString.t) :
  t_eqb source (str "local") = false ->
  expansion (uri this0) = Resolves buffer ->
  rowsInRange scan (split buffer) ->
  rowsInRange scan lines ->
  let w := generate scan getDeclaracaoParagrafo commentDetail elementsAsMarkdown
                    split findWordStartWithinLine
                    (Resolves source) expansion s this0 line column lines in
  exists merged,
    generateParagraphCompletion scan getDeclaracaoParagrafo commentDetail
      elementsAsMarkdown (assigned findWordStartWithinLine this0 line column lines)
      (split buffer) true = Ok merged
    /\ statics w = mkStatics (Some merged) (Some (cacheFileName this0))
    /\ loaded w = Fulfilled tt
    /\ expansionRequests w = [uri this0].
Proof.
  intros Hsource Hexp Hrb Hrl. cbv zeta.
  set (this := assigned findWordStartWithinLine this0 line column lines).
  destruct (generate_without_cache_total scan getDeclaracaoParagrafo commentDetail
              elementsAsMarkdown this (split buffer) Hrb) as (E & HE).
  destruct (generate_without_cache_total scan getDeclaracaoParagrafo commentDetail
              elementsAsMarkdown this lines Hrl) as (L & HL).
  assert (Hmerged : generateParagraphCompletion scan getDeclaracaoParagrafo
                      commentDetail elementsAsMarkdown this (split buffer) true
                    = Ok (fold_left mergeEntry L E)).
  { unfold generateParagraphCompletion in *.
    change (currentLines this) with (Some lines).
    destruct (generateWithoutCache scan getDeclaracaoParagrafo commentDetail
                elementsAsMarkdown this (split buffer)) as [E'|]; [|discriminate].
    destruct (generateWithoutCache scan getDeclaracaoParagrafo commentDetail
                elementsAsMarkdown this lines) as [L'|]; [|discriminate].
    cbn [bind] in *. inversion HE; inversion HL; subst. reflexivity. }
  exists (fold_left mergeEntry L E). split; [exact Hmerged|].
  unfold generate, loadCacheThen. rewrite Hsource.
  cbn [this_ uri generateExecutor]. rewrite Hexp.
  unfold loadCacheExpanded. cbn [this_ statics loaded expansionRequests].
  unfold this, assigned in Hmerged. rewrite Hmerged.
  repeat split.
Qed.

Lemma expansion_success_fills_cache_witness :
  let w := Collaborators.generate (Resolves (str "expanded"))
             (fun _ => Resolves (join newline expandedLines))
             priorStatics someInstance 0 0 localLines in
  option_map (@JsMap.keys CompletionItem) (cache (statics w))
  = Some [str "K"; str "ONLY-LOCAL"]
  /\ option_map (fun m => option_map detail (JsMap.get (str "K") m)) (cache (statics w))
     = Some (Some (str "From the copy "))
  /\ cacheSourceFileName (statics w) = Some (str "f.cache")
  /\ expansionRequests w = [str "file:///f.cbl"].
Proof.
  intros w.
  assert (Hrb : rowsInRange Collaborators.scan
                  (Collaborators.split (join newline expandedLines))).
  { unfold rowsInRange. vm_compute. repeat constructor; discriminate. }
  assert (Hrl : rowsInRange Collaborators.scan localLines).
  { unfold rowsInRange. vm_compute. repeat constructor; discriminate. }
  destruct (expansion_success_fills_cache Collaborators.scan
              Collaborators.getDeclaracaoParagrafo Collaborators.commentDetail
              Collaborators.elementsAsMarkdown Collaborators.split
              Collaborators.findWordStartWithinLine
              (str "expanded") (join newline expandedLines)
              (fun _ => Resolves (join newline expandedLines))
              priorStatics someInstance 0 0 localLines eq_refl eq_refl Hrb Hrl)
    as (merged & Hm & Hs & _ & Hc).
  unfold w, Collaborators.generate. rewrite Hs. cbn [cache cacheSourceFileName].
  vm_compute in Hm. inversion Hm.
  split; [reflexivity|]. split; [reflexivity|]. split; [reflexivity | exact Hc].
Defined.

(** X8.  Positions served from the cache are those of the request that
    filled it.  After a request in local mode at [line1] and [column1],
    a second request for the same cache file, at any line and column and
    with any lines, is answered with the items of the first request:
    every one of them carries an edit at [line1] and at the column
    computed from [column1]. *)
Theorem cached_items_keep_first_position
    (scan : JsString.t -> regex -> list ScanIterator)
    (getDeclaracaoParagrafo : JsString.t -> option JsString.t)
    (commentDetail elementsAsMarkdown : CobolDoc -> JsString.t)
    (split : JsString.t -> list JsString.t)
    (findWordStartWithinLine : Z -> option JsString.t -> Z)
    (expansion1 expansion2 : JsString.t -> settlement JsString.t)
    (mode2 : settlement JsString.t)
    (s : Statics) (this1 this2 : Instance)
    (line1 column1 line2 column2 : Z) (lines1 lines2 : list JsString.t) :
  rowsInRange scan lines1 ->
  cacheFileName this2 = cacheFileName this1 ->
  let w1 := generate scan getDeclaracaoParagrafo commentDetail elementsAsMarkdown
                     split findWordStartWithinLine
                     (Resolves (str "local")) expansion1 s this1 line1 column1 lines1 in
  let w2 := generate scan getDeclaracaoParagrafo commentDetail elementsAsMarkdown
                     split findWordStartWithinLine
                     mode2 expansion2 (statics w1) this2 line2 column2 lines2 in
  exists items,
    generated w2 = Fulfilled items
    /\ Forall (fun item =>
                 rangeLine item = line1
                 /\ rangeCharacter item
                    = (findWordStartWithinLine column1 (at_ lines1 line1) - 1)%Z)
              items.
Proof.
  intros Hrows Hname. cbv zeta.
  set (this := assigned findWordStartWithinLine this1 line1 column1 lines1).
  destruct (generate_without_cache_total scan getDeclaracaoParagrafo commentDetail
              elementsAsMarkdown this lines1 Hrows) as (index & Hindex).
  rewrite (local_mode_statics scan getDeclaracaoParagrafo commentDetail
             elementsAsMarkdown split findWordStartWithinLine
             expansion1 s this1 line1 column1 lines1 index Hindex).
  exists (JsMap.values index). split.
  - rewrite generated_frame. apply executor_hit; [reflexivity|].
    cbn [cacheSourceFileName]. now rewrite Hname.
  - destruct (buildIndex_keeps scan getDeclaracaoParagrafo commentDetail
                elementsAsMarkdown this lines1 false index Hindex) as [Hbuilt _].
    unfold JsMap.values. apply Forall_map.
    eapply Forall_impl; [|exact Hbuilt].
    intros [k v] (_ & _ & Hl & Hc). cbn [snd] in *. split; assumption.
Qed.

Lemma cached_items_keep_first_position_witness :
  let w1 := Collaborators.generate (Resolves (str "local")) (fun _ => Rejects)
              (mkStatics None None) someInstance 5 12 localLines in
  let w2 := Collaborators.generate (Resolves (str "local")) (fun _ => Rejects)
              (statics w1) someInstance 40 20 scenarioBuffer in
  rowsInRange Collaborators.scan localLines
  /\ exists items,
       generated w2 = Fulfilled items
       /\ Forall (fun item => rangeLine item = 5%Z /\ rangeCharacter item = 11%Z) items.
Proof.
  intros w1 w2.
  assert (Hrows : rowsInRange Collaborators.scan localLines).
  { unfold rowsInRange. vm_compute. repeat constructor; discriminate. }
  split; [exact Hrows|].
  exact (cached_items_keep_first_position Collaborators.scan
           Collaborators.getDeclaracaoParagrafo Collaborators.commentDetail
           Collaborators.elementsAsMarkdown Collaborators.split
           Collaborators.findWordStartWithinLine
           (fun _ => Rejects) (fun _ => Rejects) (Resolves (str "local"))
           (mkStatics None None) someInstance someInstance
           5 12 40 20 localLines scenarioBuffer Hrows eq_refl).
Defined.

(** X9.  After [clearCache] the cache is an empty index named by the
    empty string.  A request whose cache file name is not empty misses
    it and is answered from its own lines; a request whose cache file
    name is empty hits it and is answered with no item at all. *)
Theorem clearCache_then_generate
    (scan : JsString.t -> regex -> list ScanIterator)
    (getDeclaracaoParagrafo : JsString.t -> option JsString.t)
    (commentDetail elementsAsMarkdown : CobolDoc -> JsString.t)
    (split : JsString.t -> list JsString.t)
    (findWordStartWithinLine : Z -> option JsString.t -> Z)
    (mode : settlement JsString.t)
    (expansion : JsString.t -> settlement JsString.t)
    (s : Statics) (this0 : Instance) (line column : Z) (lines : list JsString.t) :
  rowsInRange scan lines ->
  let w := generate scan getDeclaracaoParagrafo commentDetail elementsAsMarkdown
                    split findWordStartWithinLine
                    mode expansion (clearCache s) this0 line column lines in
  (cacheFileName this0 = [] -> generated w = Fulfilled [])
  /\ (cacheFileName this0 <> [] ->
      exists index,
        generateParagraphCompletion scan getDeclaracaoParagrafo commentDetail
          elementsAsMarkdown (assigned findWordStartWithinLine this0 line column lines)
          lines false = Ok index
        /\ generated w = Fulfilled (JsMap.values index)).
Proof.
  intros Hrows. cbv zeta. split.
  - intros Hempty.
    apply (cache_hit_serves_cache_general scan getDeclaracaoParagrafo commentDetail
             elementsAsMarkdown split findWordStartWithinLine mode expansion
             (clearCache s) this0 line column lines (JsMap.empty _)).
    + reflexivity.
    + cbn [clearCache cacheSourceFileName]. now rewrite Hempty.
  - intros Hname.
    destruct (generate_without_cache_total scan getDeclaracaoParagrafo commentDetail
                elementsAsMarkdown
                (assigned findWordStartWithinLine this0 line column lines) lines Hrows)
      as (index & Hindex).
    exists index. split; [exact Hindex|].
    rewrite generated_frame. apply executor_miss; [|exact Hindex].
    unfold cacheIsCurrent, clearCache, assigned.
    cbn [cache cacheSourceFileName cacheFileName].
    apply t_eqb_neq. congruence.
Qed.

Lemma clearCache_then_generate_witness :
  let w := Collaborators.generate (Resolves (str "local")) (fun _ => Rejects)
             (clearCache priorStatics) someInstance 0 0 localLines in
  rowsInRange Collaborators.scan localLines
  /\ exists items, generated w = Fulfilled items
                   /\ map label items = [str "K"; str "ONLY-LOCAL"].
Proof.
  intros w.
  assert (Hrows : rowsInRange Collaborators.scan localLines).
  { unfold rowsInRange. vm_compute. repeat constructor; discriminate. }
  split; [exact Hrows|].
  destruct (clearCache_then_generate Collaborators.scan
              Collaborators.getDeclaracaoParagrafo Collaborators.commentDetail
              Collaborators.elementsAsMarkdown Collaborators.split
              Collaborators.findWordStartWithinLine
              (Resolves (str "local")) (fun _ => Rejects)
              priorStatics someInstance 0 0 localLines Hrows) as [_ H].
  destruct H as (index & Hindex & Hgen); [discriminate|].
  exists (JsMap.values index). split; [exact Hgen|].
  vm_compute in Hindex. inversion Hindex. reflexivity.
Defined.

(** X10.  [loadCache] puts no rejection handler on [sourceOfCompletions]:
    when that promise rejects or never settles, the provider is not
    called, the cache and its name stay as they were, and the promise of
    [loadCache] stays pending for ever, so the [catch] that [generate]
    put on it never runs. *)
Theorem mode_failure_leaves_loadCache_pending
    (scan : JsString.t -> regex -> list ScanIterator)
    (getDeclaracaoParagrafo : JsString.t -> option JsString.t)
    (commentDetail elementsAsMarkdown : CobolDoc -> JsString.t)
    (split : JsString.t -> list JsString.t)
    (findWordStartWithinLine : Z -> option JsString.t -> Z)
    (mode : settlement JsString.t)
    (expansion : JsString.t -> settlement JsString.t)
    (s : Statics) (this0 : Instance) (line column : Z) (lines : list JsString.t) :
  mode = Rejects \/ mode = NeverSettles ->
  let w := generate scan getDeclaracaoParagrafo commentDetail elementsAsMarkdown
                    split findWordStartWithinLine
                    mode expansion s this0 line column lines in
  statics w = s /\ loaded w = Pending /\ expansionRequests w = [].
Proof.
  intros [-> | ->]; cbv zeta; unfold generate;
    destruct (executor_frame scan getDeclaracaoParagrafo commentDetail
                elementsAsMarkdown findWordStartWithinLine s this0 line column lines)
      as (Hs & _ & _ & _ & _ & Hl & He); auto.
Qed.

Lemma mode_failure_leaves_loadCache_pending_witness :
  let w := Collaborators.generate Rejects (fun _ => Resolves (str "       X."))
             priorStatics someInstance 0 0 localLines in
  statics w = priorStatics /\ loaded w = Pending /\ expansionRequests w = [].
Proof.
  exact (mode_failure_leaves_loadCache_pending Collaborators.scan
           Collaborators.getDeclaracaoParagrafo Collaborators.commentDetail
           Collaborators.elementsAsMarkdown Collaborators.split
           Collaborators.findWordStartWithinLine
           Rejects (fun _ => Resolves (str "       X."))
           priorStatics someInstance 0 0 localLines (or_introl eq_refl)).
Defined.

(* ================================================================== *)
(** ** More on the comment block and on the structured dialect *)
(* ================================================================== *)

Module MoreDocFacts.

(** The comment lines that end a list, and what stands above them. *)
Lemma trailing_run_split (A : Type) (f : A -> bool) (l : list A) :
  exists above,
    l = above ++ rev (takeWhile f (rev l))
    /\ Forall (fun x => f x = true) (rev (takeWhile f (rev l)))
    /\ (above = [] \/ exists pre x, above = pre ++ [x] /\ f x = false).
Proof.
  destruct (takeWhile_split A f (rev l)) as (rest & Hl & Hall & Hrest).
  exists (rev rest). split; [|split].
  - rewrite <- rev_app_distr, <- Hl. now rewrite rev_involutive.
  - apply Forall_rev. apply Forall_forall. rewrite forallb_forall in Hall. exact Hall.
  - destruct rest as [|x r]; [now left|].
    right. exists (rev r), x. split; [reflexivity | exact Hrest].
Qed.

(** Outside a block, a line that is not an opener changes nothing. *)
Lemma rechStep_outside st line :
  parsingRechDoc st = false -> isOpener line = false -> rechStep st line = st.
Proof.
  unfold isOpener, rechStep. intros Hp ->.
  destruct (startsWith (str "*>*/") (trim line)).
  - cbn [setParsing parsingRechDoc]. rewrite <- Hp at 1. destruct st; reflexivity.
  - now rewrite Hp.
Qed.

Lemma fold_rechStep_outside lines : forall st,
  parsingRechDoc st = false -> Forall (fun l => isOpener l = false) lines ->
  fold_left rechStep lines st = st.
Proof.
  induction lines as [|l lines IH]; intros st Hp Hall; [reflexivity|].
  inversion Hall as [|? ? Hl Hrest]; subst. cbn [fold_left].
  rewrite (rechStep_outside st l Hp Hl). now apply IH.
Qed.

(** A line cannot open and close a block. *)
Lemma closer_not_opener line : isCloser line = true -> isOpener line = false.
Proof.
  unfold isCloser, isOpener. intros Hc.
  destruct (startsWith (str "*>/**") (trim line)) eqn:Ho; [|reflexivity].
  apply startsWith_iff in Hc as [r Hr]. apply startsWith_iff in Ho as [r' Hr'].
  rewrite Hr in Hr'. discriminate Hr'.
Qed.

(** A closer leaves the record as it is and puts the parse outside. *)
Lemma rechStep_closer st line :
  isCloser line = true ->
  rechStep st line = setParsing false st.
Proof.
  intros Hc. unfold rechStep.
  pose proof (closer_not_opener line Hc) as Ho. unfold isOpener in Ho.
  unfold isCloser in Hc. rewrite Ho, Hc. reflexivity.
Qed.

(** Inside a block and before any tag token, a plain line adds its
    fragment to the summary and nothing else. *)
Lemma rechStep_plain st line :
  parsingRechDoc st = true -> extractingComment st = true -> isPlain line = true ->
  rechStep st line = setComment (stComment st ++ summaryFragment line) st.
Proof.
  unfold isPlain, isOpener, isCloser. rewrite containsTagToken_tests.
  intros Hp He Hplain.
  apply andb_true_iff in Hplain as [Hplain Htag].
  apply andb_true_iff in Hplain as [Ho Hc].
  apply negb_true_iff in Ho, Hc, Htag.
  apply orb_false_iff in Htag as [Htag Hother].
  apply orb_false_iff in Htag as [Htag Hthrows].
  apply orb_false_iff in Htag as [Hparam Hreturn].
  unfold rechStep. rewrite Ho, Hc, Hp.
  unfold tagStep. rewrite Hparam, Hreturn, Hthrows, Hother.
  unfold commentStep, summaryFragment. rewrite He.
  destruct (Nat.eqb (length (trim (replace (str "*>") [] line))) 0).
  - rewrite app_nil_r. destruct st; reflexivity.
  - reflexivity.
Qed.

Lemma fold_rechStep_plain body : forall st,
  parsingRechDoc st = true -> extractingComment st = true ->
  Forall (fun l => isPlain l = true) body ->
  fold_left rechStep body st
  = setComment (stComment st ++ concat (map summaryFragment body)) st.
Proof.
  induction body as [|l body IH]; intros st Hp He Hall.
  - simpl. rewrite app_nil_r. destruct st; reflexivity.
  - inversion Hall as [|? ? Hl Hrest]; subst. cbn [fold_left map concat].
    rewrite (rechStep_plain st l Hp He Hl).
    rewrite IH by (assumption || reflexivity).
    cbn [setComment stComment stParams stReturns stThrows parsingRechDoc
         extractingComment].
    now rewrite app_assoc.
Qed.

(** A line that ends the summary turns accumulation off. *)
Lemma rechStep_endsSummary st line :
  isOpener line = false -> endsSummary line = true ->
  accumulationOff (rechStep st line)
  /\ stComment (rechStep st line) = stComment st.
Proof.
  unfold endsSummary. intros Ho H.
  destruct (isCloser line) eqn:Hc.
  - rewrite (rechStep_closer st line Hc). split; [now left | reflexivity].
  - cbn [orb] in H. now apply rechStep_tag_token.
Qed.

(** The summary of a block that is opened once. *)
Lemma summary_of_block pre opener body rest :
  Forall (fun l => isOpener l = false) pre ->
  isOpener opener = true ->
  Forall (fun l => isPlain l = true) body ->
  match rest with [] => True | l :: _ => endsSummary l = true end ->
  Forall (fun l => isOpener l = false) rest ->
  stComment (fold_left rechStep (pre ++ opener :: body ++ rest) initialRechState)
  = concat (map summaryFragment body).
Proof.
  intros Hpre Hopen Hbody Hend Hrest.
  rewrite fold_left_app. rewrite (fold_rechStep_outside pre initialRechState eq_refl Hpre).
  cbn [fold_left]. rewrite fold_left_app.
  assert (Hstep : rechStep initialRechState opener
                  = setExtracting true (setParsing true initialRechState)).
  { unfold rechStep. unfold isOpener in Hopen. now rewrite Hopen. }
  rewrite Hstep.
  rewrite (fold_rechStep_plain body (setExtracting true (setParsing true initialRechState))
             eq_refl eq_refl Hbody).
  set (st := setComment _ _).
  destruct rest as [|l rest]; [reflexivity|].
  inversion Hrest as [|? ? Hl Hrest']; subst. cbn [fold_left].
  destruct (rechStep_endsSummary st l Hl Hend) as [Hoff Hc].
  rewrite (fold_rechStep_off rest _ Hoff Hrest'). rewrite Hc. reflexivity.
Qed.

(** The three lists stay empty as long as no line has a tag token. *)
Lemma lists_of_plain_block pre opener body :
  Forall (fun l => isOpener l = false) pre ->
  isOpener opener = true ->
  Forall (fun l => isPlain l = true) body ->
  extractRechDoc (pre ++ opener :: body)
  = mkCobolDoc (concat (map summaryFragment body)) [] [] [].
Proof.
  intros Hpre Hopen Hbody. unfold extractRechDoc.
  rewrite fold_left_app. rewrite (fold_rechStep_outside pre initialRechState eq_refl Hpre).
  cbn [fold_left].
  assert (Hstep : rechStep initialRechState opener
                  = setExtracting true (setParsing true initialRechState)).
  { unfold rechStep. unfold isOpener in Hopen. now rewrite Hopen. }
  rewrite Hstep.
  rewrite (fold_rechStep_plain body (setExtracting true (setParsing true initialRechState))
             eq_refl eq_refl Hbody). reflexivity.
Qed.

End MoreDocFacts.

Import MoreDocFacts.

(** X11.  The block that [getElementDocumentation] returns is the
    longest run of comment lines that ends just above the declaration:
    the lines above the declaration are some lines followed by the
    block, every line of the block starts with the margin and the
    marker, and the line just above the block, if there is one, does
    not. *)
Theorem comment_block_shape (lines : list JsString.t) (lineIndex : Z)
    (block : list JsString.t) :
  getElementDocumentation lines lineIndex = Ok block ->
  exists above,
    firstn (Z.to_nat lineIndex) lines = above ++ block
    /\ Forall (fun l => startsWith (str "      *>") l = true) block
    /\ (above = []
        \/ exists pre l, above = pre ++ [l] /\ startsWith (str "      *>") l = false).
Proof.
  intros H.
  destruct (Z.leb_spec lineIndex (Z.of_nat (length lines))) as [Hin|Hout].
  - rewrite (getElementDocumentation_in_range lines lineIndex Hin) in H.
    inversion H; subst block. unfold commentBlockAbove.
    apply (trailing_run_split _ isCommentLine).
  - rewrite (getElementDocumentation_past_end lines lineIndex Hout) in H.
    discriminate H.
Qed.

Lemma comment_block_shape_witness :
  let lines := [str "       MOVE A TO B."; str "      *> first"; str "      *> second";
                str "       PARA-A."] in
  exists above,
    firstn 3 lines = above ++ [str "      *> first"; str "      *> second"]
    /\ above = [str "       MOVE A TO B."].
Proof.
  intros lines.
  destruct (comment_block_shape lines 3 [str "      *> first"; str "      *> second"]
              eq_refl) as (above & Hsplit & _ & _).
  exists above. split; [exact Hsplit|].
  assert (H : above ++ [str "      *> first"; str "      *> second"]
              = [str "       MOVE A TO B."] ++ [str "      *> first"; str "      *> second"])
    by (rewrite <- Hsplit; reflexivity).
  now apply app_inv_tail in H.
Defined.

(** X12.  [isRechDoc] looks for the opener anywhere in a line, but
    [extractRechDoc] only enters a block on a line that starts with it
    after trimming.  A comment block that holds the opener only inside
    its lines is therefore taken for structured and parsed to an empty
    record: its freeform summary lines are lost. *)
Theorem opener_inside_a_line_gives_empty_record (documentation : list JsString.t) :
  existsb (includes (str "*>/**")) documentation = true ->
  Forall (fun l => isOpener l = false) documentation ->
  parseCobolDoc documentation = mkCobolDoc [] [] [] [].
Proof.
  intros Hinc Hopen. unfold parseCobolDoc.
  rewrite isRechDoc_existsb, Hinc. unfold extractRechDoc.
  now rewrite (fold_rechStep_outside documentation initialRechState eq_refl Hopen).
Qed.

Lemma opener_inside_a_line_gives_empty_record_witness :
  let documentation := [str "      *>-> Reads the file. <-<*";
                        str "      *> see the block *>/** below"] in
  parseCobolDoc documentation = mkCobolDoc [] [] [] []
  /\ comment (extractDefaultDoc documentation) = str "Reads the file ".
Proof.
  intros documentation. split; [|reflexivity].
  apply opener_inside_a_line_gives_empty_record; [reflexivity|].
  repeat constructor.
Defined.

(** X13.  What follows the closer of a block is ignored up to the next
    opener, and the closer itself gives nothing: the record of a block
    followed by a closer and by lines that are not openers is the record
    of the block alone. *)
Theorem text_after_closer_ignored (before after : list JsString.t)
    (closer : JsString.t) :
  isCloser closer = true ->
  Forall (fun l => isOpener l = false) after ->
  extractRechDoc (before ++ closer :: after) = extractRechDoc before.
Proof.
  intros Hc Hafter. unfold extractRechDoc.
  rewrite fold_left_app. cbn [fold_left].
  rewrite (rechStep_closer _ closer Hc).
  rewrite (fold_rechStep_outside after
             (setParsing false (fold_left rechStep before initialRechState))
             eq_refl Hafter).
  reflexivity.
Qed.

Lemma text_after_closer_ignored_witness :
  extractRechDoc [str "      *>/**"; str "      *> Opens the file";
                  str "      *>*/"; str "      *> @param late too late";
                  str "      *> trailing text"]
  = mkCobolDoc (str "Opens the file ") [] [] [].
Proof.
  assert (Hafter : Forall (fun l => isOpener l = false)
                     [str "      *> @param late too late"; str "      *> trailing text"])
    by (repeat constructor).
  exact (eq_trans
           (text_after_closer_ignored
              [str "      *>/**"; str "      *> Opens the file"]
              [str "      *> @param late too late"; str "      *> trailing text"]
              (str "      *>*/") eq_refl Hafter)
           eq_refl).
Defined.

(** X14.  A record is filed under every keyword that its line mentions.
    Inside a block, a tag line with a name token gives one record; that
    record is appended to the list of any of "@param", "@return",
    "@throws" that occurs somewhere in the line, not only to the list
    of the keyword that introduces the name. *)
Theorem record_filed_under_every_keyword (st : RechState)
    (margin gap tag : JsString.t) (sp : ascii) (name tail other : JsString.t) :
  parsingRechDoc st = true ->
  margin <> [] -> forallb isSpace margin = true ->
  gap <> [] -> forallb isSpace gap = true ->
  In tag recordTags -> isSpace sp = true ->
  name <> [] -> forallb isWordOrDash name = true ->
  stopsAt isWordOrDash tail = true ->
  In other recordTags ->
  includes other (margin ++ str "*>" ++ gap ++ tag ++ sp :: name ++ tail) = true ->
  listOfTag other
    (rechStep st (margin ++ str "*>" ++ gap ++ tag ++ sp :: name ++ tail))
  = listOfTag other st ++ [mkDocElement name (descriptionOf tail)].
Proof.
  intros Hp Hm Hmargin Hg Hgap Htag Hsp Hn Hname Hstop Hother Hinc.
  pose proof (createDocElementFromLine_record margin gap tag sp name tail
                Hm Hmargin Hg Hgap Htag Hsp Hn Hname Hstop) as Hrec.
  set (line := margin ++ str "*>" ++ gap ++ tag ++ sp :: name ++ tail) in *.
  destruct gap as [|g0 gap]; [congruence|].
  cbn [forallb] in Hgap. apply andb_true_iff in Hgap as [Hg0 Hgap].
  assert (Ho : startsWith (str "*>/**") (trim line) = false)
    by exact (tag_line_not_opener margin g0 (gap ++ tag ++ sp :: name ++ tail)
                Hmargin Hg0).
  assert (Hcl : startsWith (str "*>*/") (trim line) = false)
    by exact (tag_line_not_closer margin g0 (gap ++ tag ++ sp :: name ++ tail)
                Hmargin Hg0).
  unfold rechStep. rewrite Ho, Hcl, Hp.
  destruct (commentStep_lists (tagStep st line) line) as (Hc1 & Hc2 & Hc3).
  destruct (tagStep_lists st line) as (Ht1 & Ht2 & Ht3).
  unfold updateDocElement in Ht1, Ht2, Ht3. rewrite Hrec in Ht1, Ht2, Ht3.
  unfold recordTags in Hother. unfold listOfTag.
  destruct Hother as [<-|[<-|[<-|[]]]]; cbn [t_eqb str list_ascii_of_string];
    cbn -[rechStep commentStep tagStep includes str line].
  - rewrite Hc1, Ht1, Hinc. reflexivity.
  - rewrite Hc2, Ht2, Hinc. reflexivity.
  - rewrite Hc3, Ht3, Hinc. reflexivity.
Qed.

Lemma record_filed_under_every_keyword_witness :
  let st := fold_left rechStep [str "      *>/**"] initialRechState in
  let line := str "      *> @throws io-error see @param file" in
  stParams (rechStep st line) = [mkDocElement (str "io-error") (str "see @param file")]
  /\ stThrows (rechStep st line) = [mkDocElement (str "io-error") (str "see @param file")].
Proof.
  intros st line.
  assert (Hm : str "      " <> []) by discriminate.
  assert (Hg : str " " <> []) by discriminate.
  assert (Hn : str "io-error" <> []) by discriminate.
  assert (Htag : In (str "@throws") recordTags) by (right; right; left; reflexivity).
  assert (Hother : In (str "@param") recordTags) by (left; reflexivity).
  split.
  - exact (record_filed_under_every_keyword st (str "      ") (str " ") (str "@throws")
             " "%char (str "io-error") (str " see @param file") (str "@param")
             eq_refl Hm eq_refl Hg eq_refl Htag eq_refl Hn eq_refl eq_refl
             Hother eq_refl).
  - exact (record_filed_under_every_keyword st (str "      ") (str " ") (str "@throws")
             " "%char (str "io-error") (str " see @param file") (str "@throws")
             eq_refl Hm eq_refl Hg eq_refl Htag eq_refl Hn eq_refl eq_refl
             Htag eq_refl).
Defined.

(** X15.  The summary of a structured block is the text between its
    opener and the first line that is a closer or mentions a tag token.
    For a comment block with one opener, plain lines after it, and then
    nothing or a line that ends the summary followed by any lines that
    are not openers, the summary is the concatenation of the fragments
    of the plain lines (each line without its marker, trimmed, followed
    by one space; nothing for a blank line); and as long as the block
    has only plain lines the three lists are empty. *)
Theorem structured_summary (before body after : list JsString.t)
    (opener : JsString.t) :
  Forall (fun l => isOpener l = false) before ->
  isOpener opener = true ->
  Forall (fun l => isPlain l = true) body ->
  match after with [] => True | l :: _ => endsSummary l = true end ->
  Forall (fun l => isOpener l = false) after ->
  comment (extractRechDoc (before ++ opener :: body ++ after))
  = concat (map summaryFragment body)
  /\ extractRechDoc (before ++ opener :: body)
     = mkCobolDoc (concat (map summaryFragment body)) [] [] [].
Proof.
  intros Hbefore Hopen Hbody Hend Hafter. split.
  - unfold extractRechDoc. cbn [comment docOfState].
    now apply summary_of_block.
  - now apply lists_of_plain_block.
Qed.

Lemma structured_summary_witness :
  comment (extractRechDoc [str "      *> stray line"; str "      *>/**";
                           str "      *> Opens the file"; str "      *>";
                           str "      *> and reads it."; str "      *> @return status ok";
                           str "      *> more text"; str "      *>*/"])
  = str "Opens the file and reads it. ".
Proof.
  assert (Hb : Forall (fun l => isOpener l = false) [str "      *> stray line"])
    by (repeat constructor).
  assert (Hbody : Forall (fun l => isPlain l = true)
                    [str "      *> Opens the file"; str "      *>";
                     str "      *> and reads it."])
    by (repeat constructor).
  assert (Ha : Forall (fun l => isOpener l = false)
                 [str "      *> @return status ok"; str "      *> more text";
                  str "      *>*/"])
    by (repeat constructor).
  destruct (structured_summary [str "      *> stray line"]
              [str "      *> Opens the file"; str "      *>"; str "      *> and reads it."]
              [str "      *> @return status ok"; str "      *> more text"; str "      *>*/"]
              (str "      *>/**") Hb eq_refl Hbody eq_refl Ha) as [H _].
  exact (eq_trans H eq_refl).
Defined.

(* ================================================================== *)
(** ** Where a record comes from *)
(* ================================================================== *)

Module CaptureFacts.

Lemma starClass_sound_at (R : Type) (p : ascii -> bool) (k : K R) :
  forall s pos prev caps res,
  starClass p k pos prev s caps = Some res ->
  exists w s' prev',
    s = w ++ s' /\ forallb p w = true
    /\ k (length w + pos) prev' s' caps = Some res.
Proof.
  induction s as [|c s IH]; intros pos prev caps res H; cbn [starClass] in H.
  - exists [], [], prev. auto.
  - destruct (p c) eqn:Hc.
    + destruct (starClass p k (S pos) (Some c) s caps) as [r|] eqn:E.
      * destruct (IH _ _ _ _ E) as (w & s' & prev' & Hs & Hw & Hk).
        exists (c :: w), s', prev'. cbn [forallb length app].
        rewrite Hc, Hw, Hs. inversion H; subst.
        repeat split. rewrite <- Hk. f_equal. lia.
      * exists [], (c :: s), prev. auto.
    + exists [], (c :: s), prev. auto.
Qed.

(** A successful match consumed a string of the expression, captured
    what its groups consumed, and handed the rest to the continuation
    at the position after that string. *)
Lemma matchK_matches (R : Type) (r : regex) :
  forall (k : K R) pos prev s caps res,
  matchK r k pos prev s caps = Some res ->
  exists w s' prev' caps',
    s = w ++ s' /\ matches r w caps caps'
    /\ k (length w + pos) prev' s' caps' = Some res.
Proof.
  induction r as [| |a|p|r1 IH1 r2 IH2|r1 IH1 r2 IH2|p|r1 IH1|n r1 IH1];
    intros k pos prev s caps res H; cbn [matchK] in H.
  - exists [], s, prev, caps. cbn. auto.
  - exists [], s, prev, caps. cbn. repeat split.
    destruct prev as [c|]; [|exact H].
    destruct (isLineTerminator c); [exact H | discriminate].
  - destruct s as [|c s]; [discriminate|].
    destruct (Ascii.eqb_spec a c) as [->|]; [|discriminate].
    exists [c], s, (Some c), caps. cbn. auto.
  - destruct s as [|c s]; [discriminate|].
    destruct (p c) eqn:Hc; [|discriminate].
    exists [c], s, (Some c), caps. cbn. eauto 6.
  - destruct (IH1 _ _ _ _ _ _ H) as (w1 & s1 & prev1 & caps1 & Hs1 & Hw1 & Hk1).
    destruct (IH2 _ _ _ _ _ _ Hk1) as (w2 & s2 & prev2 & caps2 & Hs2 & Hw2 & Hk2).
    exists (w1 ++ w2), s2, prev2, caps2. cbn [matches].
    split; [now rewrite <- app_assoc, <- Hs2|].
    split; [exists w1, w2, caps1; auto|].
    rewrite <- Hk2. f_equal. rewrite length_app. lia.
  - destruct (matchK r1 k pos prev s caps) as [x|] eqn:E.
    + inversion H; subst x.
      destruct (IH1 _ _ _ _ _ _ E) as (w & s' & prev' & caps' & Hs & Hw & Hk).
      exists w, s', prev', caps'. cbn [matches]. auto.
    + destruct (IH2 _ _ _ _ _ _ H) as (w & s' & prev' & caps' & Hs & Hw & Hk).
      exists w, s', prev', caps'. cbn [matches]. auto.
  - destruct (starClass_sound_at R p k _ _ _ _ _ H) as (w & s' & prev' & Hs & Hw & Hk).
    exists w, s', prev', caps. cbn [matches]. auto.
  - match type of H with
    | match ?m with _ => _ end = _ => destruct m as [x|] eqn:E
    end.
    + inversion H; subst x.
      destruct (IH1 _ _ _ _ _ _ E) as (w & s' & prev' & caps' & Hs & Hw & Hk).
      exists w, s', prev', caps'. cbn [matches].
      destruct (Nat.eqb_spec (length w + pos) pos) as [Heq|Hne]; [discriminate|].
      split; [exact Hs|]. split; [|exact Hk].
      right. split; [|exact Hw]. intros ->. apply Hne. reflexivity.
    + exists [], s, prev, caps. cbn [matches]. auto.
  - destruct (IH1 _ _ _ _ _ _ H) as (w & s' & prev' & caps' & Hs & Hw & Hk).
    exists w, s', prev', ((n, w) :: caps'). cbn [matches].
    split; [exact Hs|]. split; [eauto|].
    rewrite <- Hk. do 3 f_equal.
    rewrite Nat.add_sub, Hs, firstn_app, Nat.sub_diag, firstn_all.
    cbn [firstn]. now rewrite app_nil_r.
Qed.

Lemma execFrom_matches r : forall s pos prev res,
  execFrom r pos prev s = Some res ->
  exists a w b, s = a ++ w ++ b /\ matches r w [] (groups res).
Proof.
  assert (Hat : forall s pos prev res, matchAt r pos prev s = Some res ->
                exists w b, s = w ++ b /\ matches r w [] (groups res)).
  { intros s pos prev res H. unfold matchAt in H.
    apply matchK_matches in H as (w & s' & prev' & caps' & Hs & Hw & Hk).
    unfold finish in Hk. inversion Hk; subst. exists w, s'. auto. }
  induction s as [|c s IH]; intros pos prev res H; cbn [execFrom] in H.
  - destruct (matchAt r pos prev []) as [x|] eqn:E; [|discriminate].
    inversion H; subst x. destruct (Hat _ _ _ _ E) as (w & b & Hs & Hw).
    exists [], w, b. auto.
  - destruct (matchAt r pos prev (c :: s)) as [x|] eqn:E.
    + inversion H; subst x. destruct (Hat _ _ _ _ E) as (w & b & Hs & Hw).
      exists [], w, b. auto.
    + destruct (IH _ _ _ H) as (a & w & b & Hs & Hw).
      exists (c :: a), w, b. cbn [app]. now rewrite Hs.
Qed.

Lemma matches_Lit l : forall w caps caps',
  matches (Lit l) w caps caps' -> w = l /\ caps' = caps.
Proof.
  induction l as [|a l IH]; intros w caps caps' H; cbn [Lit matches] in H.
  - exact H.
  - destruct H as (w1 & w2 & mid & -> & (-> & ->) & H2).
    apply IH in H2 as [-> ->]. auto.
Qed.

Lemma matches_Plus p w caps caps' :
  matches (Plus p) w caps caps' -> w <> [] /\ forallb p w = true /\ caps' = caps.
Proof.
  unfold Plus. cbn [matches].
  intros (w1 & w2 & mid & -> & ((c & -> & Hc) & ->) & (Hw2 & ->)).
  repeat split; [discriminate|]. cbn [app forallb]. now rewrite Hc, Hw2.
Qed.

(** The shape of every match of the expression of the tags, with what
    its groups hold. *)
Lemma matches_docElementRegex w caps' :
  matches docElementRegex w [] caps' ->
  exists margin gap tag sp name blank description,
    w = margin ++ str "*>" ++ gap ++ tag ++ sp :: name ++ blank ++ description
    /\ margin <> [] /\ forallb isSpace margin = true
    /\ gap <> [] /\ forallb isSpace gap = true
    /\ In tag recordTags /\ isSpace sp = true
    /\ name <> [] /\ forallb isWordOrDash name = true
    /\ forallb isSpace blank = true /\ length blank <= 1
    /\ forallb dot description = true
    /\ caps' = withDescription description [(2, name); (1, tag)].
Proof.
  unfold docElementRegex. cbn [Seqs fold_right]. cbn [matches].
  intros (w1 & r1 & c1 & -> & H1 & w2 & r2 & c2 & -> & H2 & w3 & r3 & c3 & -> & H3
          & w4 & r4 & c4 & -> & H4 & w5 & r5 & c5 & -> & H5 & w6 & r6 & c6 & -> & H6
          & w7 & r7 & c7 & -> & H7 & w8 & r8 & c8 & -> & H8 & -> & ->).
  apply matches_Plus in H1 as (Hn1 & Hs1 & ->).
  apply matches_Lit in H2 as (-> & ->).
  apply matches_Plus in H3 as (Hn3 & Hs3 & ->).
  destruct H4 as (mid4 & H4 & ->).
  assert (Htag : In w4 recordTags /\ mid4 = []).
  { unfold recordTags. destruct H4 as [H4|[H4|H4]];
      apply matches_Lit in H4 as (-> & ->); cbn; auto. }
  destruct Htag as [Htag ->].
  destruct H5 as ((sp & -> & Hsp) & ->).
  destruct H6 as (mid6 & H6 & ->).
  apply matches_Plus in H6 as (Hn6 & Hs6 & ->).
  assert (Hblank : forallb isSpace w7 = true /\ length w7 <= 1
                   /\ c7 = [(2, w6); (1, w4)]).
  { destruct H7 as [(-> & ->) | (_ & (c & -> & Hc) & ->)].
    - cbn. auto.
    - cbn. rewrite Hc. auto. }
  destruct Hblank as (Hb1 & Hb2 & ->).
  assert (Hdesc : forallb dot w8 = true
                  /\ c8 = withDescription w8 [(2, w6); (1, w4)]).
  { destruct H8 as [(-> & ->) | (Hne & mid8 & (Hd & ->) & ->)].
    - cbn. auto.
    - split; [exact Hd|]. destruct w8; [congruence | reflexivity]. }
  destruct Hdesc as (Hd & ->).
  exists w1, w3, w4, sp, w6, w7, w8.
  rewrite app_nil_r. cbn [app]. repeat split; auto.
Qed.

End CaptureFacts.

Import CaptureFacts.

(** X16.  Every record that [createDocElementFromLine] makes is read
    off the line: the line holds, in this order, a margin of blanks,
    the marker, blanks, one of "@param", "@return", "@throws", one
    blank, the name of the record, at most one blank and the
    description of the record.  The name is never empty and is made of
    letters, digits, "_" and "-"; the description holds no line
    terminator. *)
Theorem record_read_off_the_line (line : JsString.t) (element : DocElement) :
  createDocElementFromLine line = Some element ->
  elementName element <> []
  /\ forallb isWordOrDash (elementName element) = true
  /\ forallb dot (elementDescription element) = true
  /\ exists before margin gap tag sp blank after,
       line = before ++ margin ++ str "*>" ++ gap ++ tag
              ++ sp :: elementName element ++ blank
              ++ elementDescription element ++ after
       /\ margin <> [] /\ forallb isSpace margin = true
       /\ gap <> [] /\ forallb isSpace gap = true
       /\ In tag recordTags /\ isSpace sp = true
       /\ forallb isSpace blank = true /\ length blank <= 1.
Proof.
  unfold createDocElementFromLine, exec. intros H.
  destruct (execFrom docElementRegex 0 None line) as [m|] eqn:E; [|discriminate].
  apply execFrom_matches in E as (a & w & b & Hline & Hw).
  apply matches_docElementRegex in Hw
    as (margin & gap & tag & sp & name & blank & description & -> & Hm1 & Hm2
        & Hg1 & Hg2 & Htag & Hsp & Hn1 & Hn2 & Hb1 & Hb2 & Hd & Hcaps).
  rewrite Hcaps in H.
  assert (He : element = mkDocElement name description).
  { destruct description as [|d ds]; cbn in H.
    - destruct name; [congruence|]. cbn in H. now inversion H.
    - now inversion H. }
  subst element. cbn [elementName elementDescription].
  split; [exact Hn1|]. split; [exact Hn2|]. split; [exact Hd|].
  exists a, margin, gap, tag, sp, blank, b.
  split; [|repeat split; assumption].
  rewrite Hline. rewrite <- !app_assoc. cbn [app]. rewrite <- !app_assoc. reflexivity.
Qed.

Lemma record_read_off_the_line_witness :
  let line := str "      *> @return status-code the code, 0 when all went well" in
  exists element,
    createDocElementFromLine line = Some element
    /\ elementName element = str "status-code"
    /\ elementName element <> []
    /\ forallb dot (elementDescription element) = true.
Proof.
  intros line.
  exists (mkDocElement (str "status-code") (str "the code, 0 when all went well")).
  destruct (record_read_off_the_line line
              (mkDocElement (str "status-code") (str "the code, 0 when all went well"))
              eq_refl) as (Hn & _ & Hd & _).
  split; [reflexivity|]. split; [reflexivity|]. split; [exact Hn | exact Hd].
Defined.

(* ================================================================== *)
(** ** server.ts: [createLocation] *)
(* ================================================================== *)

Module ServerFacts.

Import Server.

Lemma replaceAll_nil p r : replaceAll p r [] = [].
Proof. now rewrite replaceAll_equation. Qed.

(** A string without the pattern is left as it is. *)
Lemma replaceAll_absent p r s : includes p s = false -> replaceAll p r s = s.
Proof.
  induction s as [|c s IH]; intros H.
  - apply replaceAll_nil.
  - rewrite replaceAll_equation.
    cbn [includes] in H. apply orb_false_iff in H as [H1 H2].
    rewrite H1, andb_false_r. f_equal. auto.
Qed.

Local Abbreviation doubled := [backslash; backslash].

Lemma startsWith_doubled s :
  startsWith doubled s = true <-> exists rest, s = backslash :: backslash :: rest.
Proof.
  rewrite startsWith_iff. reflexivity.
Qed.

(** The replacement starts with a backslash only where the text did. *)
Lemma replaceAll_head s rest :
  replaceAll doubled (str "/") s = backslash :: rest ->
  exists rest', s = backslash :: rest'.
Proof.
  rewrite replaceAll_equation. destruct s as [|c s]; [discriminate|].
  destruct (negb (t_eqb doubled []) && startsWith doubled (c :: s)).
  - cbn. discriminate.
  - intros H. inversion H. eauto.
Qed.

Lemma replaceAll_no_doubled s :
  includes doubled (replaceAll doubled (str "/") s) = false.
Proof.
  functional induction (replaceAll doubled (str "/") s) as [| ? c s' ? E IH | ? c s' ? E IH].
  - reflexivity.
  - change (str "/" ++ ?x) with ("/"%char :: x).
    cbn [includes]. rewrite IH. reflexivity.
  - cbn [includes]. rewrite IH, orb_false_r.
    destruct (startsWith doubled (c :: replaceAll doubled (str "/") s')) eqn:Hs; [|reflexivity].
    apply startsWith_doubled in Hs as (rest & Hs). inversion Hs as [[Hc Hrest]].
    apply replaceAll_head in Hrest as (rest' & ->).
    subst c. discriminate E.
Qed.

(** Putting the drive prefix in brings no doubled backslash. *)
Lemma drive_prefix_no_doubled a b :
  includes doubled (a ++ str "F:" ++ b) = false ->
  includes doubled (a ++ str "file:///F%3A" ++ b) = false.
Proof.
  induction a as [|c a IH]; intros H.
  - cbn [app] in *. change (str "F:" ++ b) with ("F"%char :: ":"%char :: b) in H.
    apply includes_cons_false, includes_cons_false in H.
    cbn. exact H.
  - cbn [app includes] in *. apply orb_false_iff in H as [H1 H2].
    rewrite (IH H2), orb_false_r.
    destruct a as [|d a]; [|exact H1].
    cbn [startsWith]. destruct (Ascii.eqb backslash c); reflexivity.
Qed.

(** *** Calls of [configureServerLog] *)

Lemma configureServerLogs_configured configs st :
  loggingConfigured st = true ->
  configureServerLogs configs st
  = (st, repeat (Fulfilled tt) (length configs)).
Proof.
  intros H. induction configs as [|c configs IH]; [reflexivity|].
  cbn [configureServerLogs]. unfold configureServerLog. rewrite H, IH.
  reflexivity.
Qed.

(** *** Calls of [getSnippetsRepositories] *)

Lemma snippets_cached configs st repositories :
  snippetsRepositories st = Some repositories ->
  getSnippetsRepositoriesCalls configs st
  = (st, repeat (Fulfilled (Some repositories)) (length configs)).
Proof.
  intros H. induction configs as [|c configs IH]; [reflexivity|].
  cbn [getSnippetsRepositoriesCalls]. unfold getSnippetsRepositories.
  rewrite H, IH. reflexivity.
Qed.

End ServerFacts.

Import ServerFacts.

(** X17.   The uri of a location made by createLocation never has two
    backslashes in a row, whatever uri it is given, and the range of the
    location is empty: it starts and ends at the line and the column of
    the position. *)
Theorem createLocation_no_doubled_backslash (uri : JsString.t)
    (position : Server.RechPosition) :
  let location := Server.createLocation uri position in
  includes [Server.backslash; Server.backslash] (Server.locationUri location) = false
  /\ Server.startLine location = Server.positionLine position
  /\ Server.startCharacter location = Server.positionColumn position
  /\ Server.endLine location = Server.startLine location
  /\ Server.endCharacter location = Server.startCharacter location.
Proof.
  cbn zeta. unfold Server.createLocation.
  cbn [Server.locationUri Server.startLine Server.startCharacter
       Server.endLine Server.endCharacter].
  split; [|repeat split].
  pose proof (replaceAll_no_doubled uri) as H.
  destruct (includes (str "F:")
              (Server.replaceAll [Server.backslash; Server.backslash] (str "/") uri))
    eqn:E.
  - destruct (replace_present (str "F:") (str "file:///F%3A") _ E) as (a & b & Hs & Hr).
    rewrite Hr. apply drive_prefix_no_doubled. rewrite <- Hs. exact H.
  - rewrite (replace_absent _ _ _ E). exact H.
Qed.

(** X18.  A uri without two backslashes in a row and without the drive
    prefix F: is the uri of the location, code unit for code unit:
    single backslashes are not turned into slashes. *)
Theorem createLocation_keeps_clean_uri (uri : JsString.t)
    (position : Server.RechPosition) :
  includes [Server.backslash; Server.backslash] uri = false ->
  includes (str "F:") uri = false ->
  Server.locationUri (Server.createLocation uri position) = uri.
Proof.
  intros H1 H2. unfold Server.createLocation. cbn [Server.locationUri].
  rewrite (replaceAll_absent _ _ _ H1). apply replace_absent. exact H2.
Qed.

Lemma createLocation_keeps_clean_uri_witness :
  let uri := str "C:\src\cobol\sample.cbl" in
  Server.locationUri
    (Server.createLocation uri (Server.mkRechPosition 3 7 None)) = uri.
Proof.
  intros uri.
  exact (createLocation_keeps_clean_uri uri (Server.mkRechPosition 3 7 None)
           eq_refl eq_refl).
Defined.

(** X19.  However often configureServerLog is called and whatever the
    client answers, every returned promise is fulfilled; the setting of
    the log is asked for by the first call only, and the log is switched
    on only if that first request resolves with true.  A first request
    that fails or is never answered is not repeated. *)
Theorem log_configured_by_first_call (first : settlement bool)
    (later : list (settlement bool)) (st : Server.LogState) :
  Server.loggingConfigured st = false ->
  Server.configureServerLogs (first :: later) st
  = (Server.mkLogState true
       (Server.setActiveCalls st
        + match first with Resolves true => 1 | _ => 0 end)
       (S (Server.logConfigRequests st)),
     repeat (Fulfilled tt) (S (length later))).
Proof.
  intros H. cbn [Server.configureServerLogs]. unfold Server.configureServerLog.
  rewrite H.
  destruct first as [[|]| |]; cbn [resolveP rejectP Server.setActiveCalls
                                  Server.logConfigRequests];
    rewrite configureServerLogs_configured by reflexivity;
    cbn [repeat]; rewrite ?Nat.add_0_r, ?Nat.add_1_r; reflexivity.
Qed.

Lemma log_configured_by_first_call_witness :
  Server.configureServerLogs [Rejects; Resolves true; Resolves true]
    (Server.mkLogState false 0 0)
  = (Server.mkLogState true 0 1, [Fulfilled tt; Fulfilled tt; Fulfilled tt]).
Proof.
  exact (log_configured_by_first_call Rejects [Resolves true; Resolves true]
           (Server.mkLogState false 0 0) eq_refl).
Defined.

(** X20.  Calls of getSnippetsRepositories that follow one another, each
    after the request of the one before has been answered or given up:
    the client is asked by every call up to the first one it answers
    with an array and by none after it; from that call on every promise
    is fulfilled with that array, which stays in the module variable. *)
Theorem snippets_asked_until_answered
    (before after : list (settlement (option (list JsString.t))))
    (repositories : list JsString.t) (st : Server.SnippetState) :
  Server.snippetsRepositories st = None ->
  (forall r, ~ In (Resolves (Some r)) before) ->
  let (st', promises) :=
    Server.getSnippetsRepositoriesCalls
      (before ++ Resolves (Some repositories) :: after) st in
  st' = Server.mkSnippetState (Some repositories)
          (Server.snippetConfigRequests st + S (length before))
  /\ Server.callsUntilAnswer (before ++ Resolves (Some repositories) :: after)
     = S (length before)
  /\ skipn (length before) promises
     = repeat (Fulfilled (Some repositories)) (S (length after))
  /\ firstn (length before) promises
     = map (fun config =>
              match config with
              | Resolves value => Fulfilled value
              | Rejects => Rejected
              | NeverSettles => Pending
              end) before.
Proof.
  revert st. induction before as [|c before IH]; intros st Hst Hb.
  - cbn [app Server.getSnippetsRepositoriesCalls length].
    unfold Server.getSnippetsRepositories at 1. rewrite Hst.
    cbn [Server.snippetConfigRequests resolveP].
    rewrite snippets_cached with (repositories := repositories) by reflexivity.
    rewrite Nat.add_1_r. repeat split.
  - cbn [app Server.getSnippetsRepositoriesCalls].
    assert (Hb' : forall r, ~ In (Resolves (Some r)) before).
    { intros r Hr. apply (Hb r). now right. }
    assert (Hc : forall r, c <> Resolves (Some r)).
    { intros r Hr. apply (Hb r). now left. }
    unfold Server.getSnippetsRepositories at 1. rewrite Hst.
    set (asked := Server.mkSnippetState None (S (Server.snippetConfigRequests st))).
    assert (Hstep :
      (match c with
       | Resolves r => (Server.mkSnippetState r (Server.snippetConfigRequests asked),
                        resolveP r Pending)
       | Rejects => (asked, rejectP Pending)
       | NeverSettles => (asked, Pending)
       end)
      = (asked, match c with
                | Resolves value => Fulfilled value
                | Rejects => Rejected
                | NeverSettles => Pending
                end)).
    { destruct c as [[r|]| |]; try reflexivity. now destruct (Hc r). }
    rewrite Hstep. clear Hstep.
    specialize (IH asked eq_refl Hb').
    destruct (Server.getSnippetsRepositoriesCalls
                (before ++ Resolves (Some repositories) :: after) asked)
      as [st' promises].
    destruct IH as (H1 & H2 & H3 & H4).
    split.
    { rewrite H1. subst asked. cbn [Server.snippetConfigRequests length].
      f_equal. lia. }
    split.
    { cbn [Server.callsUntilAnswer length]. rewrite H2.
      destruct c as [[r|]| |]; try reflexivity. now destruct (Hc r). }
    split.
    { cbn [length skipn]. exact H3. }
    cbn [length firstn map]. f_equal. exact H4.
Qed.

Lemma snippets_asked_until_answered_witness :
  let (st', promises) :=
    Server.getSnippetsRepositoriesCalls
      ([Rejects; Resolves None] ++ Resolves (Some [str "F:\snippets"]) :: [Rejects])
      (Server.mkSnippetState None 0) in
  st' = Server.mkSnippetState (Some [str "F:\snippets"]) 3
  /\ Server.callsUntilAnswer
       ([Rejects; Resolves None] ++ Resolves (Some [str "F:\snippets"]) :: [Rejects])
     = 3
  /\ skipn 2 promises = repeat (Fulfilled (Some [str "F:\snippets"])) 2
  /\ firstn 2 promises = [Rejected; Fulfilled None].
Proof.
  assert (Hb : forall r : list JsString.t,
             ~ In (Resolves (Some r)) [Rejects; Resolves None]).
  { intros r [Hr|[Hr|[]]]; discriminate Hr. }
  exact (snippets_asked_until_answered
           [Rejects; Resolves None] [Rejects] [str "F:\snippets"]
           (Server.mkSnippetState None 0) eq_refl Hb).
Defined.

(** X21.  validateTextDocument sends diagnostics at most once, for the
    uri of the document it was given; it sends them exactly when the
    setting arrives and is not false, the event is true or equal to the
    setting, the document is open and the diagnosis settles.  With the
    setting true the events onSave and onChange send nothing, and a
    diagnosis that fails sends an empty list. *)
Theorem diagnostics_sent_when (Diagnostic : Type) (uri : JsString.t)
    (event : Server.Trigger) (autodiagnostic : settlement Server.Trigger)
    (document : option JsString.t) (diagnosis : settlement (list Diagnostic)) :
  let sent :=
    snd (Server.validateTextDocument uri event autodiagnostic document diagnosis) in
  (sent = [] \/ exists diagnostics, sent = [(uri, diagnostics)])
  /\ (sent <> [] <->
      exists setting,
        autodiagnostic = Resolves setting /\ setting <> Server.Flag false
        /\ (event = Server.Flag true \/ event = setting)
        /\ document <> None /\ diagnosis <> NeverSettles)
  /\ (autodiagnostic = Resolves (Server.Flag true) ->
      event <> Server.Flag true -> sent = [])
  /\ (diagnosis = Rejects -> sent = [] \/ sent = [(uri, [])]).
Proof.
  cbn zeta. unfold Server.validateTextDocument.
  split; [|split; [|split]].
  - destruct autodiagnostic as [setting| |]; cbn [snd]; auto.
    destruct (_ && _); auto. destruct document; auto.
    destruct diagnosis; eauto.
  - split.
    + destruct autodiagnostic as [setting| |]; cbn [snd]; try congruence.
      destruct (Server.triggerTruthy setting
                && (Server.strictlyTrue event || Server.looseEq setting event)) eqn:E;
        [|congruence].
      destruct document as [text|]; [|congruence].
      destruct diagnosis as [ds| |]; try congruence; intros _;
        exists setting; (split; [reflexivity|]);
        apply andb_true_iff in E as [E1 E2];
        (split; [intros ->; discriminate E1|]);
        (split; [|split; discriminate]);
        destruct event as [| |[|]], setting as [| |[|]];
        try discriminate; auto.
    + intros (setting & -> & Hs & He & Hd & Hn). cbn [snd].
      assert (E : Server.triggerTruthy setting
                  && (Server.strictlyTrue event || Server.looseEq setting event) = true).
      { destruct He as [->| ->]; destruct setting as [| |[|]];
          try reflexivity; congruence. }
      rewrite E. destruct document; [|congruence].
      destruct diagnosis; congruence.
  - intros -> He. cbn [snd].
    destruct event as [| |[|]]; try reflexivity. congruence.
  - intros ->. destruct autodiagnostic as [setting| |]; cbn [snd]; auto.
    destruct (_ && _); auto. destruct document; auto.
Qed.

Lemma diagnostics_sent_when_witness :
  snd (Server.validateTextDocument (str "file:///a.cbl") Server.OnSave
         (Resolves (Server.Flag true)) (Some (str "text"))
         (Resolves [1%nat])) = [].
Proof.
  destruct (diagnostics_sent_when nat (str "file:///a.cbl") Server.OnSave
              (Resolves (Server.Flag true)) (Some (str "text"))
              (Resolves [1%nat])) as (_ & _ & H & _).
  apply H; [reflexivity | discriminate].
Defined.

(* ================================================================== *)
(** ** FinallyFormatter: [findStartColumn] *)
(* ================================================================== *)

Section FormatterFacts.

Import Formatter.

Variable isDeclaration : option JsString.t -> outcome bool.
Variable countSpaces : option JsString.t -> outcome Z.

Local Abbreviation loop := (findLoop isDeclaration countSpaces).
Local Abbreviation plain := (fun l => isDeclaration (Some l) = Ok false).

Lemma at_of_nat (A : Type) (l : list A) (n : nat) :
  at_ l (Z.of_nat n) = nth_error l n.
Proof.
  unfold at_. destruct (Z.ltb_spec (Z.of_nat n) 0); [lia|].
  now rewrite Nat2Z.id.
Qed.

Lemma nth_error_middle (A : Type) (pre : list A) (x : A) (post : list A) :
  nth_error (pre ++ x :: post) (length pre) = Some x.
Proof. induction pre; simpl; auto. Qed.

(** One turn of the loop on a line that opens nothing and closes
    nothing, on an [end-try], and on a [try] below an [end-try]. *)
Lemma loop_plain lines i line depth :
  nth_error lines (S i) = Some line -> plain line ->
  closesTry line = false -> opensTry line = false -> (0 <= depth)%Z ->
  loop lines (S i) depth = loop lines i depth.
Proof.
  intros Hn Hp Hc Ho Hd. cbn [findLoop]. rewrite at_of_nat, Hn, Hp. cbn [bind].
  unfold opensTry in Ho. rewrite Hc in Ho. cbn [negb andb] in Ho.
  unfold closesTry in Hc. rewrite Hc, Ho.
  destruct (Z.ltb_spec depth 0); [lia|reflexivity].
Qed.

Lemma loop_closing lines i line depth :
  nth_error lines (S i) = Some line -> plain line ->
  closesTry line = true -> (0 <= depth)%Z ->
  loop lines (S i) depth = loop lines i (depth + 1)%Z.
Proof.
  intros Hn Hp Hc Hd. cbn [findLoop]. rewrite at_of_nat, Hn, Hp. cbn [bind].
  unfold closesTry in Hc. rewrite Hc.
  destruct (Z.ltb_spec (depth + 1) 0); [lia|reflexivity].
Qed.

Lemma loop_opening lines i line depth :
  nth_error lines (S i) = Some line -> plain line ->
  opensTry line = true ->
  loop lines (S i) depth
  = if (depth - 1 <? 0)%Z
    then do column <- countSpaces (Some line) ;; Ok (Some column)
    else loop lines i (depth - 1)%Z.
Proof.
  intros Hn Hp Ho. cbn [findLoop]. rewrite at_of_nat, Hn, Hp. cbn [bind].
  unfold opensTry in Ho. apply andb_true_iff in Ho as [Hc Ho].
  apply negb_true_iff in Hc. unfold closesTry in Hc. rewrite Hc, Ho.
  reflexivity.
Qed.

(** Going up through balanced lines the loop neither returns nor
    changes the depth. *)
Lemma loop_skips_balanced block :
  balanced block -> Forall plain block ->
  forall pre post k depth,
    length pre = S k -> (0 <= depth)%Z ->
    loop (pre ++ block ++ post) (k + length block) depth
    = loop (pre ++ block ++ post) k depth.
Proof.
  induction 1 as [| line rest Hc Ho Hb IH
                  | opening inner closing rest Ho Hc Hi IHi Hr IHr];
    intros Hp pre post k depth Hk Hd.
  - cbn [length]. now rewrite Nat.add_0_r.
  - inversion Hp as [|? ? Hp1 Hp2]; subst.
    cbn [length]. rewrite Nat.add_succ_r.
    change (pre ++ (line :: rest) ++ post) with (pre ++ [line] ++ rest ++ post).
    rewrite app_assoc.
    specialize (IH Hp2 (pre ++ [line]) post (S k) depth).
    cbn [Nat.add] in IH. rewrite IH; [|rewrite length_app; cbn [length]; lia|exact Hd].
    apply (loop_plain _ _ line); auto.
    rewrite <- app_assoc. cbn [app]. rewrite <- Hk. apply nth_error_middle.
  - inversion Hp as [|? ? Hp1 Hp2]; subst.
    apply Forall_app in Hp2 as [Hpi Hp2].
    inversion Hp2 as [|? ? Hpc Hpr]; subst.
    set (lines := pre ++ (opening :: inner ++ closing :: rest) ++ post).
    assert (E1 : lines = (pre ++ opening :: inner ++ [closing]) ++ rest ++ post).
    { subst lines. rewrite <- !app_assoc. cbn [app]. rewrite <- !app_assoc.
      reflexivity. }
    assert (E2 : lines = (pre ++ [opening]) ++ inner ++ closing :: rest ++ post).
    { subst lines. rewrite <- !app_assoc. cbn [app]. rewrite <- !app_assoc.
      reflexivity. }
    assert (E3 : lines = (pre ++ opening :: inner) ++ closing :: rest ++ post).
    { subst lines. rewrite <- !app_assoc. cbn [app]. rewrite <- !app_assoc.
      reflexivity. }
    assert (E4 : lines = pre ++ opening :: inner ++ closing :: rest ++ post).
    { subst lines. cbn [app]. rewrite <- !app_assoc. reflexivity. }
    cbn [length]. rewrite length_app. cbn [length].
    replace (k + S (length inner + S (length rest)))
      with (S (S (k + length inner)) + length rest) by lia.
    pose proof (IHr Hpr (pre ++ opening :: inner ++ [closing]) post
                  (S (S (k + length inner))) depth) as Hrest.
    rewrite <- E1 in Hrest. rewrite Hrest; [| |exact Hd].
    2:{ rewrite !length_app. cbn [length]. rewrite length_app. cbn [length]. lia. }
    rewrite (loop_closing lines _ closing); auto.
    2:{ rewrite E3. replace (S (S (k + length inner)))
          with (length (pre ++ opening :: inner)).
        - apply nth_error_middle.
        - rewrite length_app. cbn [length]. lia. }
    pose proof (IHi Hpi (pre ++ [opening]) (closing :: rest ++ post)
                  (S k) (depth + 1)%Z) as Hinner.
    rewrite <- E2 in Hinner. cbn [Nat.add] in Hinner.
    rewrite Hinner; [| |lia].
    2:{ rewrite length_app. cbn [length]. lia. }
    rewrite (loop_opening lines _ opening); auto.
    2:{ rewrite E4, <- Hk. apply nth_error_middle. }
    replace (depth + 1 - 1)%Z with depth by lia.
    destruct (Z.ltb_spec depth 0); [lia|reflexivity].
Qed.

(** The loop does not read the first line. *)
Lemma loop_first_line x y rest i depth :
  loop (x :: rest) i depth = loop (y :: rest) i depth.
Proof.
  revert depth. induction i as [|i IH]; intros depth; [reflexivity|].
  cbn [findLoop]. rewrite !at_of_nat. cbn [nth_error].
  destruct (isDeclaration (nth_error rest i)) as [[|]|]; cbn [bind]; try reflexivity.
  destruct (nth_error rest i); [|reflexivity].
  destruct (_ <? 0)%Z; [reflexivity|]. apply IH.
Qed.

End FormatterFacts.

(** X22.  When the lines between an opening try and the current line are
    balanced, hold no declaration, and the try is not the first line of
    the buffer, findStartColumn returns what countSpacesAtBeginning
    gives for the line of that try: the nested blocks in between are
    passed over. *)
Theorem finally_column_of_open_try
    (isDeclaration : option JsString.t -> outcome bool)
    (countSpaces : option JsString.t -> outcome Z)
    (above : list JsString.t) (opening : JsString.t)
    (block below : list JsString.t) :
  above <> [] ->
  Formatter.opensTry opening = true ->
  Formatter.balanced block ->
  isDeclaration (Some opening) = Ok false ->
  Forall (fun l => isDeclaration (Some l) = Ok false) block ->
  Formatter.findStartColumn isDeclaration countSpaces
    (Z.of_nat (length above + length block))
    (above ++ opening :: block ++ below)
  = countSpaces (Some opening).
Proof.
  intros Ha Ho Hb Hd Hp. unfold Formatter.findStartColumn.
  rewrite Nat2Z.id.
  destruct (length above) as [|k] eqn:Hk; [destruct above; [congruence|discriminate]|].
  pose proof (loop_skips_balanced isDeclaration countSpaces block Hb Hp
                (above ++ [opening]) below (S k) 0%Z) as H.
  rewrite <- app_assoc in H. cbn [app] in H. cbn [Nat.add] in *.
  rewrite H; [| rewrite length_app; cbn [length]; lia | lia].
  rewrite (loop_opening isDeclaration countSpaces _ k opening); auto.
  2:{ rewrite <- Hk. apply nth_error_middle. }
  cbn. destruct (countSpaces (Some opening)); reflexivity.
Qed.

Lemma finally_column_of_open_try_witness :
  Formatter.findStartColumn FormatterExamples.isDeclaration
    FormatterExamples.countSpaces 7
    ([str "       main."; str "           try"]
     ++ str "           try" :: FormatterExamples.openBlock
     ++ [str "           end-try"])
  = Ok 11%Z.
Proof.
  apply (finally_column_of_open_try FormatterExamples.isDeclaration
           FormatterExamples.countSpaces
           [str "       main."; str "           try"] (str "           try")
           FormatterExamples.openBlock [str "           end-try"]).
  - discriminate.
  - reflexivity.
  - apply Formatter.balanced_plain; [reflexivity|reflexivity|].
    apply (@Formatter.balanced_nest (str "              try")
             [str "                 perform write-it"]
             (str "              END-TRY") [str "              finally"]);
      try reflexivity.
    + apply Formatter.balanced_plain; try reflexivity. apply Formatter.balanced_nil.
    + apply Formatter.balanced_plain; try reflexivity. apply Formatter.balanced_nil.
  - reflexivity.
  - repeat constructor.
Defined.

(** X23.  findStartColumn never reads the first line of the buffer when
    it is asked about a later line: two buffers that differ in their
    first line only give the same result.  A try on the first line is
    therefore never found. *)
Theorem first_line_never_examined
    (isDeclaration : option JsString.t -> outcome bool)
    (countSpaces : option JsString.t -> outcome Z)
    (line : Z) (first other : JsString.t) (rest : list JsString.t) :
  (1 <= line)%Z ->
  Formatter.findStartColumn isDeclaration countSpaces line (first :: rest)
  = Formatter.findStartColumn isDeclaration countSpaces line (other :: rest).
Proof.
  intros H. unfold Formatter.findStartColumn.
  rewrite (loop_first_line isDeclaration countSpaces first other).
  replace (at_ (first :: rest) line) with (at_ (other :: rest) line); [reflexivity|].
  unfold at_. destruct (Z.ltb_spec line 0); [reflexivity|].
  destruct (Z.to_nat line) eqn:E; [lia|reflexivity].
Qed.

Lemma first_line_never_examined_witness :
  Formatter.findStartColumn FormatterExamples.isDeclaration
    FormatterExamples.countSpaces 4
    (str "           try" :: FormatterExamples.openBlock)
  = Formatter.findStartColumn FormatterExamples.isDeclaration
      FormatterExamples.countSpaces 4
      (str "" :: FormatterExamples.openBlock).
Proof.
  apply (first_line_never_examined FormatterExamples.isDeclaration
           FormatterExamples.countSpaces 4 (str "           try") (str "")
           FormatterExamples.openBlock).
  lia.
Defined.

(** X24.  The search stops at a declaration: when the lines between a
    declaration of a paragraph or method and the current line are
    balanced and hold no declaration, findStartColumn returns what
    countSpacesAtBeginning gives for the current line, whatever stands
    above the declaration. *)
Theorem declaration_stops_search
    (isDeclaration : option JsString.t -> outcome bool)
    (countSpaces : option JsString.t -> outcome Z)
    (above : list JsString.t) (declaration : JsString.t)
    (block below : list JsString.t) :
  isDeclaration (Some declaration) = Ok true ->
  Formatter.balanced block ->
  Forall (fun l => isDeclaration (Some l) = Ok false) block ->
  let lines := above ++ declaration :: block ++ below in
  let line := Z.of_nat (length above + length block) in
  Formatter.findStartColumn isDeclaration countSpaces line lines
  = countSpaces (at_ lines line).
Proof.
  intros Hd Hb Hp lines line. unfold Formatter.findStartColumn.
  subst line. rewrite Nat2Z.id.
  pose proof (loop_skips_balanced isDeclaration countSpaces block Hb Hp
                (above ++ [declaration]) below (length above) 0%Z) as H.
  rewrite <- app_assoc in H. cbn [app] in H. fold lines in H.
  rewrite H; [| rewrite length_app; cbn [length]; lia | lia].
  assert (E : Formatter.findLoop isDeclaration countSpaces lines (length above) 0
              = Ok None).
  { destruct (length above) as [|k] eqn:Hk; [reflexivity|].
    cbn [Formatter.findLoop]. rewrite at_of_nat.
    subst lines. rewrite <- Hk, nth_error_middle, Hd. reflexivity. }
  rewrite E. reflexivity.
Qed.

Lemma declaration_stops_search_witness :
  Formatter.findStartColumn FormatterExamples.isDeclaration
    FormatterExamples.countSpaces 7
    ([str "           try"; str "           end-try"]
     ++ str "       main." :: FormatterExamples.openBlock ++ [])
  = Ok 14%Z.
Proof.
  apply (declaration_stops_search FormatterExamples.isDeclaration
           FormatterExamples.countSpaces
           [str "           try"; str "           end-try"] (str "       main.")
           FormatterExamples.openBlock []).
  - reflexivity.
  - apply Formatter.balanced_plain; [reflexivity|reflexivity|].
    apply (@Formatter.balanced_nest (str "              try")
             [str "                 perform write-it"]
             (str "              END-TRY") [str "              finally"]);
      try reflexivity.
    + apply Formatter.balanced_plain; try reflexivity. apply Formatter.balanced_nil.
    + apply Formatter.balanced_plain; try reflexivity. apply Formatter.balanced_nil.
  - repeat constructor.
Defined.
